(** * Thermos runner helper: checkpoint-level task killing

    A shallow embedding of [src/python/twitter/thermos/runner/helper.py]
    ([TaskRunnerHelper] and [TaskKiller]) together with the properties of
    its specification.

    Conventions of the embedding:
    - Python [int] is [Z]; a Python [float] (seconds, here) is an IEEE 754
      binary64 number, Rocq's primitive [float], so that subtraction,
      multiplication, [abs] and the comparisons round and treat NaN as
      CPython does; [str] is [string]; a thrift optional field is an
      [option];
    - a [dict] is a [gmap], a [set] a [gset];
    - the operating system (process table, signals, advisory lock, files,
      wall clock) is a field of the [World] the code runs in, and every
      method is a function in the state-and-exception monad [M]. *)

From Stdlib Require Import ZArith QArith Qabs Floats Ascii String.
From stdpp Require Import gmap strings list fin_maps.

Set Warnings "-inexact-float".

Local Open Scope Z_scope.

(** ** Data model *)

(** Modelled from the spec: the generated thrift module
    [gen.twitter.thermos.ttypes] is not part of the sources; the enums and
    records below follow section 3 (DATA MODEL) of the specification and
    the keyword arguments used by [helper.py]. *)
Inductive TaskState := TS_ACTIVE | TS_SUCCESS | TS_FAILED | TS_KILLED | TS_LOST.

Inductive ProcessState :=
  PS_WAITING | PS_FORKED | PS_RUNNING | PS_SUCCESS | PS_KILLED | PS_FAILED | PS_LOST.

#[global] Instance TaskState_eq_dec : EqDecision TaskState.
Proof. solve_decision. Defined.
#[global] Instance ProcessState_eq_dec : EqDecision ProcessState.
Proof. solve_decision. Defined.

Record TaskStatus := mkTaskStatus {
  ts_state : TaskState;
  timestamp_ms : Z;
  runner_pid : Z;
  runner_uid : Z
}.

Record ProcessStatus := mkProcessStatus {
  process : string;
  seq : Z;
  state : ProcessState;
  coordinator_pid : option Z;
  pid : option Z;
  fork_time : option float;
  start_time : option float;
  return_code : option Z;
  stop_time : option float
}.

Record RunnerHeader := mkRunnerHeader {
  task_id : string;
  user : string
}.

(** [RunnerState]: the replayed checkpoint.  [header] and [statuses] may be
    [None] (the code tests them against [None]). *)
Record RunnerState := mkRunnerState {
  header : option RunnerHeader;
  statuses : option (list TaskStatus);
  processes : gmap string (list ProcessStatus)
}.

(** [RunnerCkpt]: one record of the checkpoint log. *)
Inductive RunnerCkpt :=
| task_status (update : TaskStatus)
| process_status (status : ProcessStatus).

(** A handle of the process provider: [pid()], [user()], [wall_time()]. *)
Record ProcessHandle := mkHandle {
  h_pid : Z;
  h_user : string;
  h_wall_time : float
}.

(** A snapshot of the process provider ([ProcessProviderFactory.get()]
    after [collect_all()]): [get_handle] per live pid and [children_of]
    (with [all=True]). *)
Record ProcessTable := mkTable {
  ps_handles : gmap Z ProcessHandle;
  ps_children : gmap Z (list Z)
}.

Definition pids (ps : ProcessTable) : gset Z := dom (ps_handles ps).
Definition get_handle (ps : ProcessTable) (p : Z) : option ProcessHandle :=
  ps_handles ps !! p.
Definition children_of (ps : ProcessTable) (p : Z) : list Z :=
  default [] (ps_children ps !! p).

(** The paths a [TaskPath] resolves to ([twitter.thermos.base.path] is not
    part of the sources; [getpath] is taken as given). *)
Record TaskPath := mkTaskPath {
  runner_checkpoint : string;
  active_task_path : string;
  finished_task_path : string
}.

(** ** Truthiness *)

(** Python truth value of an optional integer: [None] and [0] are false. *)
Definition truthy (p : option Z) : bool :=
  match p with
  | Some n => negb (n =? 0)
  | None => false
  end.

(** [posixpath.dirname]: everything up to the last slash, trailing slashes
    removed unless the head consists of slashes only. *)
Fixpoint drop_until_slash (l : list ascii) : list ascii :=
  match l with
  | [] => []
  | c :: l' => if Ascii.eqb c "/"%char then l else drop_until_slash l'
  end.

Fixpoint drop_slashes (l : list ascii) : list ascii :=
  match l with
  | [] => []
  | c :: l' => if Ascii.eqb c "/"%char then drop_slashes l' else l
  end.

Definition dirname (p : string) : string :=
  let head_rev := drop_until_slash (rev (list_ascii_of_string p)) in
  let stripped := drop_slashes head_rev in
  string_of_list_ascii (rev (match stripped with [] => head_rev | _ => stripped end)).

(** ** The world the helper runs in *)

Inductive Signal := SIGTERM | SIGKILL.

Inductive Errno := ESRCH | EPERM | ENOENT | EOTHER (code : Z).

#[global] Instance Errno_eq_dec : EqDecision Errno.
Proof. solve_decision. Defined.

(** Python exceptions the helper can meet. *)
Inductive Exn :=
| AssertionError
| PermissionError           (* TaskRunnerHelper.PermissionError *)
| OSError (errno : Errno)
| KeyError
| IndexError
| AttributeError
| TypeError
| ValueError
| OverflowError
| OtherError.

(** What [os.kill(pid, sig)] does: returns, raises [OSError], or raises
    something else. *)
Inductive KillOutcome :=
| Delivered
| KillOSError (errno : Errno)
| KillOtherError.

(** What the operating system answers to
    [twitter.common.dirutil.lock_file]: the file cannot be opened
    ([None]), the lock is held elsewhere ([False]), or the lock is
    granted. *)
Inductive LockAnswer := CannotOpen | HeldElsewhere | Granted.

(** Everything outside [helper.py].  The answers of the operating system
    are indexed by the instant ([w_tick]) at which they are asked, so that
    the process table, the clock and the outcome of a signal may change
    from one call to the next.  [env_replay] is
    [CheckpointDispatcher] replaying the records of a checkpoint file and
    [env_TaskPath] is [TaskPath(root=..., task_id=...)]; both are outside
    the sources and taken as given. *)
Record Env := mkEnv {
  env_time : nat → float;
  env_ps : nat → ProcessTable;
  env_kill : nat → Z → Signal → KillOutcome;
  env_lock : nat → string → bool → LockAnswer;
  env_getpid : Z;
  env_getuid : Z;
  env_replay : list RunnerCkpt → option RunnerState;
  env_TaskPath : string → string → TaskPath
}.

Record World := mkWorld {
  w_env : Env;
  w_tick : nat;                           (* instant *)
  w_PS : ProcessTable;                    (* snapshot held by [cls.PS] *)
  w_paths : gset string;                  (* paths for which os.path.exists holds *)
  w_ckpt : gmap string (list RunnerCkpt); (* records of each checkpoint file *)
  w_fds : gmap nat string;                (* open locked files: descriptor ↦ filename *)
  w_next_fd : nat;
  w_signals : list (Z * Signal)           (* calls of os.kill so far, oldest first *)
}.

Definition set_tick (f : nat → nat) (w : World) : World :=
  mkWorld (w_env w) (f (w_tick w)) (w_PS w) (w_paths w) (w_ckpt w) (w_fds w)
          (w_next_fd w) (w_signals w).
Definition set_PS (ps : ProcessTable) (w : World) : World :=
  mkWorld (w_env w) (w_tick w) ps (w_paths w) (w_ckpt w) (w_fds w)
          (w_next_fd w) (w_signals w).
Definition set_paths (f : gset string → gset string) (w : World) : World :=
  mkWorld (w_env w) (w_tick w) (w_PS w) (f (w_paths w)) (w_ckpt w) (w_fds w)
          (w_next_fd w) (w_signals w).
Definition set_ckpt (f : gmap string (list RunnerCkpt) → gmap string (list RunnerCkpt))
    (w : World) : World :=
  mkWorld (w_env w) (w_tick w) (w_PS w) (w_paths w) (f (w_ckpt w)) (w_fds w)
          (w_next_fd w) (w_signals w).
Definition set_fds (f : gmap nat string → gmap nat string) (w : World) : World :=
  mkWorld (w_env w) (w_tick w) (w_PS w) (w_paths w) (w_ckpt w) (f (w_fds w))
          (w_next_fd w) (w_signals w).
Definition set_next_fd (f : nat → nat) (w : World) : World :=
  mkWorld (w_env w) (w_tick w) (w_PS w) (w_paths w) (w_ckpt w) (w_fds w)
          (f (w_next_fd w)) (w_signals w).
Definition set_signals (f : list (Z * Signal) → list (Z * Signal)) (w : World) : World :=
  mkWorld (w_env w) (w_tick w) (w_PS w) (w_paths w) (w_ckpt w) (w_fds w)
          (w_next_fd w) (f (w_signals w)).

Definition tick : World → World := set_tick S.

(** The records of the checkpoint file [filename] (none if it does not
    exist). *)
Definition records (w : World) (filename : string) : list RunnerCkpt :=
  default [] (w_ckpt w !! filename).

(** ** The monad: state passing with exceptions *)

Inductive Res (A : Type) :=
| Ok (a : A)
| Raise (e : Exn).
Arguments Ok {A} a.
Arguments Raise {A} e.

Definition M (A : Type) : Type := World → Res A * World.

Definition ret {A} (a : A) : M A := λ w, (Ok a, w).

Definition bind {A B} (m : M A) (f : A → M B) : M B := λ w,
  match m w with
  | (Ok a, w') => f a w'
  | (Raise e, w') => (Raise e, w')
  end.

Declare Scope M_scope.
Delimit Scope M_scope with M.
Bind Scope M_scope with M.
Notation "x ← y ; z" := (bind y (λ x : _, z))
  (at level 20, y at level 100, z at level 200, only parsing) : M_scope.
Notation "' x ← y ; z" := (bind y (λ x : _, z))
  (at level 20, x pattern, y at level 100, z at level 200, only parsing) : M_scope.
Notation "x ;; z" := (bind x (λ _, z))
  (at level 100, z at level 200, only parsing, right associativity) : M_scope.
Local Open Scope M_scope.

Definition raise {A} (e : Exn) : M A := λ w, (Raise e, w).

(** A pure computation that may raise. *)
Definition lift {A} (r : Res A) : M A := λ w, (r, w).

(** [assert cond] *)
Definition assert (cond : bool) : M unit :=
  if cond then ret tt else raise AssertionError.

(** [try: body except Exception as e: handler(e)] *)
Definition try_except {A} (body : M A) (handler : Exn → M A) : M A := λ w,
  match body w with
  | (Ok a, w') => (Ok a, w')
  | (Raise e, w') => handler e w'
  end.

(** [for x in l: body(x)] *)
Fixpoint for_each {A} (l : list A) (body : A → M unit) : M unit :=
  match l with
  | [] => ret tt
  | x :: l' => body x;; for_each l' body
  end.

(** The turns of the loop [for x in l: body(x)] started in [w]: each item
    the loop reaches, with the world in which its body is entered.  The
    loop stops at the first body that raises. *)
Fixpoint visits {A} (l : list A) (body : A → M unit) (w : World) : list (A * World) :=
  match l with
  | [] => []
  | x :: l' =>
      (x, w) :: match body x w with
                | (Ok _, w') => visits l' body w'
                | (Raise _, _) => []
                end
  end.

(** [l[-1]] *)
Definition last_item {A} (l : list A) : M A :=
  match last l with
  | Some x => ret x
  | None => raise IndexError
  end.

(** ** Operations of the operating system and of the libraries *)

(** A clock is an object with a [time()] method; what it reads may depend
    on the world.  [time] is the [time] module: the ambient system clock. *)
Definition Clock : Type := World → float.

Definition time : Clock := λ w, env_time (w_env w) (w_tick w).

Definition clock_time (clock : Clock) : M float := λ w, (Ok (clock w), tick w).

(** Python [int(x)] on a float: truncation towards zero ([x] is
    [±m·2^e]); an infinity raises [OverflowError], a NaN [ValueError]. *)
Definition py_int (x : float) : Res Z :=
  match Prim2SF x with
  | S754_zero _ => Ok 0
  | S754_finite s m e =>
      let n := Z.shiftl (Z.pos m) e in
      Ok (if s then - n else n)
  | S754_infinity _ => Raise OverflowError
  | S754_nan => Raise ValueError
  end.

Definition os_getpid : M Z := λ w, (Ok (env_getpid (w_env w)), w).
Definition os_getuid : M Z := λ w, (Ok (env_getuid (w_env w)), w).

(** [os.kill(pid, sig)]: the call is recorded in [w_signals]. *)
Definition os_kill (p : Z) (sig : Signal) : M unit := λ w,
  let w' := tick (set_signals (λ l, l ++ [(p, sig)]) w) in
  match env_kill (w_env w) (w_tick w) p sig with
  | Delivered => (Ok tt, w')
  | KillOSError e => (Raise (OSError e), w')
  | KillOtherError => (Raise OtherError, w')
  end.

(** [cls.PS.collect_all()]: refresh the snapshot of the process table. *)
Definition collect_all : M unit := λ w,
  (Ok tt, tick (set_PS (env_ps (w_env w) (w_tick w)) w)).

Definition get_PS : M ProcessTable := λ w, (Ok (w_PS w), w).

Definition os_path_exists (p : string) : M bool := λ w,
  (Ok (bool_decide (p ∈ w_paths w)), w).

(** [safe_mkdir(d)] of [twitter.common.dirutil], which is outside the
    sources: it is taken to leave [d] existing and nothing else changed.
    The ancestors [os.makedirs] may create on the way, and the errors it
    may raise, are left out. *)
Definition safe_mkdir (d : string) : M unit := λ w,
  (Ok tt, set_paths (λ s, {[d]} ∪ s) w).

(** [open(p, 'w')] followed by a write: the file exists afterwards (its
    content is read by nothing in the helper and is not kept). *)
Definition write_file (p : string) (content : string) : M unit := λ w,
  (Ok tt, set_paths (λ s, {[p]} ∪ s) w).

Definition os_rename (src dst : string) : M unit := λ w,
  if bool_decide (src ∈ w_paths w)
  then (Ok tt, set_paths (λ s, {[dst]} ∪ (s ∖ {[src]})) w)
  else (Raise (OSError ENOENT), w).

Definition os_utime (p : string) : M unit := λ w,
  if bool_decide (p ∈ w_paths w) then (Ok tt, w) else (Raise (OSError ENOENT), w).

(** The result of [lock_file]: [None], [False] or a file object. *)
Inductive LockFile := LF_None | LF_False | LF_fp (fd : nat).

(** [fp in (None, False)] *)
Definition in_None_False (fp : LockFile) : bool :=
  match fp with
  | LF_fp _ => false
  | _ => true
  end.

(** Mode ["a+"] creates the file when it can be opened. *)
Definition touch (filename : string) (w : World) : World :=
  set_ckpt (λ m, match m !! filename with
                 | Some _ => m
                 | None => <[filename := []]> m
                 end) w.

(** [lock_file(filename, "a+", blocking=...)] *)
Definition lock_file (filename : string) (blocking : bool) : M LockFile := λ w,
  match env_lock (w_env w) (w_tick w) filename blocking with
  | CannotOpen => (Ok LF_None, tick w)
  | HeldElsewhere => (Ok LF_False, tick (touch filename w))
  | Granted =>
      let fd := w_next_fd w in
      (Ok (LF_fp fd),
       tick (set_next_fd S (set_fds (λ m, <[fd := filename]> m) (touch filename w))))
  end.

(** [ThriftRecordWriter.write(record)]: append to the file the writer is
    bound to; a closed file refuses the write. *)
Definition ckpt_write (ckpt : nat) (record : RunnerCkpt) : M unit := λ w,
  match w_fds w !! ckpt with
  | Some filename =>
      (Ok tt, set_ckpt (λ m, <[filename := default [] (m !! filename) ++ [record]]> m) w)
  | None => (Raise ValueError, w)
  end.

(** [ThriftRecordWriter.close()]: closes the file, which releases the lock. *)
Definition ckpt_close (ckpt : nat) : M unit := λ w,
  (Ok tt, set_fds (λ m, delete ckpt m) w).

(** [with closing(ckpt): body] *)
Definition closing {A} (ckpt : nat) (body : M A) : M A := λ w,
  match body w with
  | (r, w') => (r, snd (ckpt_close ckpt w'))
  end.

(** [CheckpointDispatcher.from_file(filename)]: the replayed state, or
    [None]. *)
Definition from_file (filename : string) : M (option RunnerState) := λ w,
  (Ok (match w_ckpt w !! filename with
       | Some recs => env_replay (w_env w) recs
       | None => None
       end), w).

Definition TaskPath_of (root task_id : string) : M TaskPath := λ w,
  (Ok (env_TaskPath (w_env w) root task_id), w).

(** ** [TaskRunnerHelper] *)

(** [if p: k(p) else: e] for an optional integer [p]. *)
Definition if_truthy {A} (p : option Z) (k : Z → A) (e : A) : A :=
  match p with
  | Some n => if n =? 0 then e else k n
  | None => e
  end.

(** [MAX_START_TIME_DRIFT = Amount(10, Time.SECONDS)], in seconds. *)
Definition MAX_START_TIME_DRIFT : float := 10%float.

Definition this_is_really_our_pid
    (process_handle : ProcessHandle) (current_user : string)
    (start_time : option float) (clock : Clock) : M bool :=
  if negb (String.eqb (h_user process_handle) current_user) then ret false
  else
    now ← clock_time clock;
    let estimated_start_time := (now - h_wall_time process_handle)%float in
    match start_time with
    | None => raise TypeError
    | Some start_time =>
        (* [abs(...) >= MAX_START_TIME_DRIFT]: false when the drift is NaN *)
        if (MAX_START_TIME_DRIFT <=? abs (start_time - estimated_start_time))%float
        then ret false
        else ret true
    end.

(** The verdict of the timing test of [this_is_really_our_pid] for a
    recorded start time, a clock reading and a wall time. *)
Definition within_drift (start_time now wall_time : float) : bool :=
  negb (MAX_START_TIME_DRIFT <=? abs (start_time - (now - wall_time)))%float.

(** The real number a double stands for; infinities and NaN stand for
    none. *)
Definition exact (x : float) : option Q :=
  match Prim2SF x with
  | S754_zero _ => Some 0%Q
  | S754_finite s m e =>
      let q := (inject_Z (Z.pos m) * 2 ^ e)%Q in
      Some (if s then (- q)%Q else q)
  | _ => None
  end.

(** [state.processes[process_name]] *)
Definition lookup_process (state : RunnerState) (process_name : string)
    : M (list ProcessStatus) :=
  match processes state !! process_name with
  | Some history => ret history
  | None => raise KeyError
  end.

(** [ps.get_handle(pid)] for a pid the table may not have. *)
Definition handle_of (ps : ProcessTable) (p : Z) : M ProcessHandle :=
  match get_handle ps p with
  | Some h => ret h
  | None => raise KeyError
  end.

(** [scan_process(state, process_name, clock, ps)]; [ps = None] stands for
    the default argument. *)
Definition scan_process (state : RunnerState) (process_name : string)
    (clock : Clock) (ps : option ProcessTable) : M (option Z * option Z * gset Z) :=
  history ← lookup_process state process_name;
  process_run ← last_item history;
  process_owner ← match header state with
                  | Some h => ret (user h)
                  | None => raise AttributeError
                  end;
  ps ← match ps with
       | Some ps => ret ps
       | None => collect_all;; get_PS
       end;
  coordinator_pid ←
    if_truthy (coordinator_pid process_run)
      (λ c,
        if bool_decide (c ∈ pids ps) then
          h ← handle_of ps c;
          ours ← this_is_really_our_pid h process_owner (fork_time process_run) time;
          ret (if ours then Some c else None)
        else ret None)
      (ret None);
  let completed : M (option Z * gset Z) := ret (None, ∅) in
  '(pid, tree) ←
    if_truthy (pid process_run)
      (λ p,
        if bool_decide (p ∈ pids ps) then
          h ← handle_of ps p;
          ours ← this_is_really_our_pid h process_owner (start_time process_run) clock;
          if ours then ret (Some p, list_to_set (children_of ps p))
          else completed
        else completed)
      completed;
  ret (coordinator_pid, pid, tree).

(** [safe_signal(pid, sig)]: whatever [os.kill] raises is caught (and at
    most logged). *)
Definition safe_signal (p : Z) (sig : Signal) : M unit :=
  try_except (os_kill p sig) (λ _, ret tt).

Definition terminate_pid (p : Z) : M unit := safe_signal p SIGTERM.
Definition kill_pid (p : Z) : M unit := safe_signal p SIGKILL.
Definition kill_group (pgrp : Z) : M unit := safe_signal (- pgrp) SIGKILL.

(** [process_name in state.processes and len(state.processes[process_name]) > 0] *)
Definition has_history (state : RunnerState) (process_name : string) : bool :=
  match processes state !! process_name with
  | Some (_ :: _) => true
  | _ => false
  end.

Definition _get_process_tuple (state : RunnerState) (process_name : string)
    : M (option Z * option Z * gset Z) :=
  assert (has_history state process_name);;
  collect_all;;
  ps ← get_PS;
  scan_process state process_name time (Some ps).

Definition _get_coordinator_group (state : RunnerState) (process_name : string)
    : M (option Z) :=
  assert (has_history state process_name);;
  history ← lookup_process state process_name;
  process_run ← last_item history;
  ret (coordinator_pid process_run).

Definition terminate_process (state : RunnerState) (process_name : string) : M bool :=
  '(_coordinator_pid, pid, _tree) ← _get_process_tuple state process_name;
  if_truthy pid terminate_pid (ret tt);;
  ret (truthy pid).

Definition kill_process (state : RunnerState) (process_name : string) : M bool :=
  coordinator_pgid ← _get_coordinator_group state process_name;
  '(coordinator_pid, pid, tree) ← _get_process_tuple state process_name;
  if_truthy coordinator_pgid kill_group (ret tt);;
  if_truthy coordinator_pid kill_pid (ret tt);;
  if_truthy pid kill_pid (ret tt);;
  for_each (elements tree) kill_pid;;
  ret (truthy coordinator_pid || truthy pid || negb (bool_decide (tree = ∅))).

(** [kill_runner(state)]; [state = None] is a state that could not be read. *)
Definition kill_runner (state : option RunnerState) : M bool :=
  match state with
  | None => raise AssertionError
  | Some state =>
      match statuses state with
      | None | Some [] => raise AssertionError
      | Some sts =>
          latest ← last_item sts;
          let pid := runner_pid latest in
          me ← os_getpid;
          assert (negb (pid =? me));;
          try_except (os_kill pid SIGKILL;; ret true)
            (λ e, match e with
                  | OSError EPERM => ret false
                  | OSError ESRCH => ret true
                  | _ => raise e
                  end)
      end
  end.

(** [open_checkpoint(filename, force, state)]: the writer is the file it
    wraps. *)
Definition open_checkpoint (filename : string) (force : bool)
    (state : option RunnerState) : M nat :=
  safe_mkdir (dirname filename);;
  fp ← lock_file filename false;
  fp ← (if in_None_False fp then
          if force then
            state ← match state with
                    | Some s => ret (Some s)
                    | None => from_file filename
                    end;
            killed ← kill_runner state;
            if killed then lock_file filename true else ret fp
          else ret fp
        else ret fp);
  match fp with
  | LF_fp fd => ret fd
  | _ => raise PermissionError
  end.

Definition TERMINAL_PROCESS_STATES : list ProcessState :=
  [PS_SUCCESS; PS_KILLED; PS_FAILED; PS_LOST].

Definition TERMINAL_TASK_STATES : list TaskState :=
  [TS_SUCCESS; TS_FAILED; TS_KILLED; TS_LOST].

Definition is_process_terminal (process_status : ProcessState) : bool :=
  bool_decide (process_status ∈ TERMINAL_PROCESS_STATES).

Definition is_task_terminal (task_status : TaskState) : bool :=
  bool_decide (task_status ∈ TERMINAL_TASK_STATES).

Definition initialize_task (spec : TaskPath) (task : string) : M unit :=
  let active_task := active_task_path spec in
  let finished_task := finished_task_path spec in
  is_active ← os_path_exists active_task;
  is_finished ← os_path_exists finished_task;
  assert (negb is_finished);;
  if negb is_active then
    safe_mkdir (dirname active_task);;
    write_file active_task task
  else ret tt.

Definition finalize_task (spec : TaskPath) : M unit :=
  let active_task := active_task_path spec in
  let finished_task := finished_task_path spec in
  is_active ← os_path_exists active_task;
  is_finished ← os_path_exists finished_task;
  assert (is_active && negb is_finished);;
  safe_mkdir (dirname finished_task);;
  os_rename active_task finished_task;;
  os_utime finished_task.

(** The two closures of [kill]. *)
Definition write_task_state (ckpt : nat) (clock : Clock) (state : TaskState) : M unit :=
  now ← clock_time clock;
  timestamp_ms ← lift (py_int (now * 1000)%float);
  me ← os_getpid;
  uid ← os_getuid;
  let update := mkTaskStatus state timestamp_ms me uid in
  ckpt_write ckpt (task_status update).

Definition write_process_status (ckpt : nat) (status : ProcessStatus) : M unit :=
  ckpt_write ckpt (process_status status).

(** The body of the loop of [kill] over [state.processes.items()]. *)
Definition kill_loop_body (ckpt : nat) (clock : Clock) (runner_state : RunnerState)
    (item : string * list ProcessStatus) : M unit :=
  let '(process, history) := item in
  process_status ← last_item history;
  if negb (is_process_terminal (state process_status)) then
    killed ← kill_process runner_state process;
    if killed then
      now ← clock_time clock;
      write_process_status ckpt
        (mkProcessStatus process (seq process_status + 1) PS_KILLED
           None None None None (Some (-9)) (Some now))
    else
      if negb (bool_decide (state process_status = PS_WAITING)) then
        write_process_status ckpt
          (mkProcessStatus process (seq process_status + 1) PS_LOST
             None None None None None None)
      else ret tt
  else ret tt.

Definition kill (task_id checkpoint_root : string) (force : bool)
    (terminal_status : TaskState) (clock : Clock) : M unit :=
  assert (bool_decide (terminal_status ∈ [TS_KILLED; TS_LOST]));;
  pathspec ← TaskPath_of checkpoint_root task_id;
  let checkpoint := runner_checkpoint pathspec in
  state ← from_file checkpoint;
  ckpt ← open_checkpoint checkpoint force state;
  match state with
  | None => ret tt
  | Some state =>
      match header state, statuses state with
      | Some _, Some sts =>
          latest ← last_item sts;
          if is_task_terminal (ts_state latest) then
            finalize_task pathspec
          else
            closing ckpt (
              write_task_state ckpt clock TS_ACTIVE;;
              for_each (map_to_list (processes state))
                       (kill_loop_body ckpt clock state);;
              write_task_state ckpt clock terminal_status);;
            finalize_task pathspec
      | _, _ => ret tt
      end
  end.

(** [TaskKiller(task_id, checkpoint_root)] *)
Definition TaskKiller_kill (task_id checkpoint_root : string) (force : bool) : M unit :=
  kill task_id checkpoint_root force TS_KILLED time.

Definition TaskKiller_lose (task_id checkpoint_root : string) (force : bool) : M unit :=
  kill task_id checkpoint_root force TS_LOST time.

(** ** What a computation leaves unchanged *)

(** [Frame R m]: whatever [m] returns or raises, the world it ends in is
    related by [R] to the world it started in. *)
Definition Frame {A} (R : relation World) (m : M A) : Prop :=
  ∀ w, R w (snd (m w)).

(** Only the instant, the process snapshot and the signal trace may
    change: files, checkpoints and descriptors are untouched. *)
Definition os_step (w w' : World) : Prop :=
  w_env w' = w_env w ∧ w_paths w' = w_paths w ∧ w_ckpt w' = w_ckpt w
  ∧ w_fds w' = w_fds w ∧ w_next_fd w' = w_next_fd w.

(** As [os_step], and no signal is sent either. *)
Definition scan_step (w w' : World) : Prop :=
  os_step w w' ∧ w_signals w' = w_signals w.

(** Only the set of existing paths may change. *)
Definition fs_step (w w' : World) : Prop :=
  w_env w' = w_env w ∧ w_tick w' = w_tick w ∧ w_ckpt w' = w_ckpt w
  ∧ w_fds w' = w_fds w ∧ w_next_fd w' = w_next_fd w
  ∧ w_signals w' = w_signals w.

(** No record is appended to any checkpoint file: each file keeps its
    records, or is created empty. *)
Definition no_append (w w' : World) : Prop :=
  w_env w' = w_env w
  ∧ ∀ f, w_ckpt w' !! f = w_ckpt w !! f
         ∨ (w_ckpt w !! f = None ∧ w_ckpt w' !! f = Some []).

(** Paths are only added. *)
Definition paths_grow (w w' : World) : Prop :=
  w_env w' = w_env w ∧ w_paths w ⊆ w_paths w'.

(** The records [w'] has in [filename] beyond those of [w]. *)
Definition appended (w w' : World) (filename : string) : list RunnerCkpt :=
  drop (length (records w filename)) (records w' filename).

(** The state [from_file] replays from [filename]. *)
Definition replayed (w : World) (filename : string) : option RunnerState :=
  match w_ckpt w !! filename with
  | Some recs => env_replay (w_env w) recs
  | None => None
  end.

(** The world after the calls [os.kill(pid, sig)] for each [(pid, sig)] of
    [sigs] in turn, whatever their outcomes. *)
Definition signalled (sigs : list (Z * Signal)) (w : World) : World :=
  foldl (λ w s, tick (set_signals (λ l, l ++ [s]) w)) w sigs.

(** The signals [kill_process] sends, in order, for a latest record whose
    coordinator pid is [coordinator_pgid] and a scan that found
    [(coordinator_pid, pid, tree)]. *)
Definition kill_signals (coordinator_pgid coordinator_pid pid : option Z)
    (tree : gset Z) : list (Z * Signal) :=
  if_truthy coordinator_pgid (λ g, [(- g, SIGKILL)]) []
  ++ if_truthy coordinator_pid (λ c, [(c, SIGKILL)]) []
  ++ if_truthy pid (λ p, [(p, SIGKILL)]) []
  ++ map (λ child, (child, SIGKILL)) (elements tree).

(** The two records [kill] builds for a process whose latest record is
    [prev]. *)
Definition KILLED_status (name : string) (prev : ProcessStatus) (now : float)
    : ProcessStatus :=
  mkProcessStatus name (seq prev + 1) PS_KILLED None None None None (Some (-9)) (Some now).

Definition LOST_status (name : string) (prev : ProcessStatus) : ProcessStatus :=
  mkProcessStatus name (seq prev + 1) PS_LOST None None None None None None.

(** The turns of the loop of [kill] over [state.processes.items()] in the
    run of [kill] started in [w]: the items the loop reaches, each with
    the world in which [kill_process] is about to be called for it.  There
    is none when [kill] does not reach the loop. *)
Definition kill_turns (task_id checkpoint_root : string) (force : bool)
    (terminal_status : TaskState) (clock : Clock) (w : World)
    : list ((string * list ProcessStatus) * World) :=
  let checkpoint := runner_checkpoint (env_TaskPath (w_env w) checkpoint_root task_id) in
  if negb (bool_decide (terminal_status ∈ [TS_KILLED; TS_LOST])) then []
  else
    match replayed w checkpoint with
    | None => []
    | Some runner_state =>
        match open_checkpoint checkpoint force (Some runner_state) w,
              header runner_state, statuses runner_state with
        | (Ok ckpt, w1), Some _, Some sts =>
            match last sts with
            | Some latest =>
                if is_task_terminal (ts_state latest) then []
                else
                  match write_task_state ckpt clock TS_ACTIVE w1 with
                  | (Ok _, w2) =>
                      visits (map_to_list (processes runner_state))
                             (kill_loop_body ckpt clock runner_state) w2
                  | (Raise _, _) => []
                  end
            | None => []
            end
        | _, _, _ => []
        end
    end.

(** A process record is accounted for by the turns [turns] of the loop
    over the replayed state [st] when it is the KILLED record of a process
    whose latest record was not terminal and for which [kill_process],
    called in the world of its turn, answered [True], stamped with the
    clock read right after; or the LOST record of a process whose latest
    record was neither terminal nor WAITING and for which [kill_process],
    called in the world of its turn, answered [False]. *)
Inductive accounted (st : RunnerState) (clock : Clock)
    (turns : list ((string * list ProcessStatus) * World)) : ProcessStatus → Prop :=
| accounted_killed name history prev w w1 :
    ((name, history), w) ∈ turns →
    processes st !! name = Some history →
    last history = Some prev →
    is_process_terminal (state prev) = false →
    kill_process st name w = (Ok true, w1) →
    accounted st clock turns (KILLED_status name prev (clock w1))
| accounted_lost name history prev w w1 :
    ((name, history), w) ∈ turns →
    processes st !! name = Some history →
    last history = Some prev →
    is_process_terminal (state prev) = false →
    kill_process st name w = (Ok false, w1) →
    state prev ≠ PS_WAITING →
    accounted st clock turns (LOST_status name prev).

(** From [w] to [w'] exactly the records [sfx] were appended to
    [filename], and none to any other checkpoint. *)
Definition appends (filename : string) (sfx : list RunnerCkpt) (w w' : World) : Prop :=
  w_env w' = w_env w
  ∧ records w' filename = records w filename ++ sfx
  ∧ ∀ g, g ≠ filename → records w' g = records w g.

(** The process records among [l]. *)
Definition process_records (l : list RunnerCkpt) : list ProcessStatus :=
  omap (λ r, match r with process_status s => Some s | task_status _ => None end) l.

(** Projections of the result of [scan_process]. *)
Definition coordinator_of (r : Res (option Z * option Z * gset Z)) : Res (option Z) :=
  match r with
  | Ok (c, _, _) => Ok c
  | Raise e => Raise e
  end.

Definition pid_of (r : Res (option Z * option Z * gset Z)) : Res (option Z) :=
  match r with
  | Ok (_, p, _) => Ok p
  | Raise e => Raise e
  end.

(** ** A concrete task

    Task ["t"] of user ["alice"] under root ["/r"]: process ["web"] is
    running (coordinator 200, pid 100, both started at time 1000, pid 100
    has descendants 101 and 102), process ["job"] is waiting, and process
    ["old"] was forked by a coordinator (pid 300) that is no longer in the
    process table.  The recorded runner is pid 77; we are pid 1. *)
Module Example.
Local Open Scope string_scope.

Definition web : ProcessStatus :=
  mkProcessStatus "web" 3 PS_RUNNING (Some 200) (Some 100)
                  (Some 1000%float) (Some 1000%float) None None.
Definition job : ProcessStatus :=
  mkProcessStatus "job" 0 PS_WAITING None None None None None None.
Definition old : ProcessStatus :=
  mkProcessStatus "old" 2 PS_FORKED (Some 300) None (Some 900%float) None None None.

Definition procs : gmap string (list ProcessStatus) :=
  <["web" := [web]]> (<["job" := [job]]> (<["old" := [old]]> ∅)).

Definition active_state : RunnerState :=
  mkRunnerState (Some (mkRunnerHeader "t" "alice"))
                (Some [mkTaskStatus TS_ACTIVE 5 77 1000]) procs.

Definition terminal_state : RunnerState :=
  mkRunnerState (Some (mkRunnerHeader "t" "alice"))
                (Some [mkTaskStatus TS_ACTIVE 5 77 1000;
                       mkTaskStatus TS_KILLED 9 77 1000]) procs.

Definition table : ProcessTable :=
  mkTable (<[100 := mkHandle 100 "alice" 5%float]> (<[200 := mkHandle 200 "alice" 5%float]> ∅))
          (<[100 := [101; 102]]> ∅).

Definition paths (root task_id : string) : TaskPath :=
  mkTaskPath (root ++ "/checkpoints/" ++ task_id ++ "/runner")
             (root ++ "/tasks/active/" ++ task_id)
             (root ++ "/tasks/finished/" ++ task_id).

(** An environment where the clock reads [now], every signal gets the
    outcome [outcome], the lock is answered by [lock] and the checkpoint
    replays to [st]. *)
Definition env (now : float) (outcome : KillOutcome) (lock : bool → LockAnswer)
    (st : RunnerState) : Env :=
  mkEnv (λ _, now) (λ _, table) (λ _ _ _, outcome) (λ _ _ blocking, lock blocking)
        1 1000 (λ _, Some st) paths.

Definition ckpt_file : string := runner_checkpoint (paths "/r" "t").

Definition world (e : Env) : World :=
  mkWorld e 0 (mkTable ∅ ∅) {[ active_task_path (paths "/r" "t") ]}
          (<[ckpt_file := []]> ∅) ∅ 0 [].

(** The lock is free; the task is still active. *)
Definition w_active : World :=
  world (env 1005%float Delivered (λ _, Granted) active_state).

(** The lock is free; the task is already terminal. *)
Definition w_terminal : World :=
  world (env 1005%float Delivered (λ _, Granted) terminal_state).

(** The lock is free; the replayed state has no header. *)
Definition headerless_state : RunnerState :=
  mkRunnerState None (Some [mkTaskStatus TS_ACTIVE 5 77 1000]) procs.

Definition w_headerless : World :=
  world (env 1005%float Delivered (λ _, Granted) headerless_state).

(** The active task once [open_checkpoint] has returned writer 0. *)
Definition w_open : World :=
  snd (open_checkpoint ckpt_file false (Some active_state) w_active).

(** The lock is held by a runner; a blocking attempt obtains it. *)
Definition w_held (outcome : KillOutcome) : World :=
  world (env 1005%float outcome (λ blocking, if blocking then Granted else HeldElsewhere)
             active_state).
End Example.

(** ** The rest of the helper *)

(** [process_from_name(task, process_name)].  The task is a configuration
    object outside the sources: [None] stands for a task without a
    [processes] attribute ([has_processes()] false), [name_of] for
    [process.name().get()]. *)
Fixpoint first_named {P} (name_of : P → string) (l : list P) (process_name : string)
    : option P :=
  match l with
  | [] => None
  | p :: l' =>
      if String.eqb (name_of p) process_name then Some p
      else first_named name_of l' process_name
  end.

Definition process_from_name {P} (name_of : P → string) (task : option (list P))
    (process_name : string) : option P :=
  match task with
  | Some l => first_named name_of l process_name
  | None => None
  end.

(** [dict((k, f(k)) for k in keys)], filled in the order of [keys]. *)
Fixpoint dict_of {A} (acc : gmap string A) (keys : list string) (f : string → M A)
    : M (gmap string A) :=
  match keys with
  | [] => ret acc
  | k :: keys' => v ← f k; dict_of (<[k := v]> acc) keys' f
  end.

(** [scantree(state, clock)] *)
Definition scantree (state : RunnerState) (clock : Clock)
    : M (gmap string (option Z * option Z * gset Z)) :=
  collect_all;;
  dict_of ∅ (map_to_list (processes state)).*1
    (λ process_name, ps ← get_PS; scan_process state process_name clock (Some ps)).

(** What [os.wait3(os.WNOHANG)] answers: a pid (0 when no child has
    exited) or an [OSError]. *)
Inductive Wait3Answer :=
| Wait3 (pid : Z)
| Wait3Error (errno : Errno).

(** [reap_children()]: the loop over the successive answers [wait3 0],
    [wait3 1], ... of the operating system; [None] when [fuel] answers did
    not end the loop. *)
Fixpoint reap_children_loop (wait3 : nat → Wait3Answer) (fuel i : nat) (pids : gset Z)
    : option (gset Z) :=
  match fuel with
  | O => None
  | S fuel' =>
      match wait3 i with
      | Wait3 pid =>
          if pid =? 0 then Some pids
          else reap_children_loop wait3 fuel' (S i) ({[pid]} ∪ pids)
      | Wait3Error _ => Some pids
      end
  end.

Definition reap_children (wait3 : nat → Wait3Answer) (fuel : nat) : option (gset Z) :=
  reap_children_loop wait3 fuel 0 ∅.

(** From [w] to [w'] only signals [sig] were sent. *)
Definition sends_only (sig : Signal) (w w' : World) : Prop :=
  ∃ l, w_signals w' = w_signals w ++ l ∧ Forall (λ s, s.2 = sig) l.

(** The recorded pid [p] cannot be found live in [tab]: it is unset, zero
    or not a pid of the table. *)
Definition not_running (tab : ProcessTable) (p : option Z) : Prop :=
  ∀ n, p = Some n → n ≠ 0 → n ∉ pids tab.

(** The task status [write_task_state] builds when [int(clock.time() * 1000)]
    is [timestamp_ms]. *)
Definition status_update (w : World) (s : TaskState) (timestamp_ms : Z) : TaskStatus :=
  mkTaskStatus s timestamp_ms (env_getpid (w_env w)) (env_getuid (w_env w)).

(** The snapshot held by [cls.PS] is kept. *)
Definition same_PS (w w' : World) : Prop := w_PS w' = w_PS w.

(** What [kill] runs under [with closing(ckpt)]. *)
Definition kill_body (ckpt : nat) (clock : Clock) (st : RunnerState)
    (terminal_status : TaskState) : M unit :=
  write_task_state ckpt clock TS_ACTIVE;;
  for_each (map_to_list (processes st)) (kill_loop_body ckpt clock st);;
  write_task_state ckpt clock terminal_status.

(** A second concrete task: ["web"] is running as before and ["cron"]
    has already succeeded. *)
Module Example2.
Local Open Scope string_scope.

Definition cron : ProcessStatus :=
  mkProcessStatus "cron" 7 PS_SUCCESS (Some 400) (Some 401)
                  (Some 950%float) (Some 950%float) (Some 0) (Some 960%float).

Definition state : RunnerState :=
  mkRunnerState (Some (mkRunnerHeader "t" "alice"))
                (Some [mkTaskStatus TS_ACTIVE 5 77 1000])
                (<["web" := [Example.web]]> (<["cron" := [cron]]> ∅)).

Definition w_active : World :=
  Example.world (Example.env 1005%float Delivered (λ _, Granted) state).
End Example2.

(** * Properties *)

(** ** Framing *)

#[global] Instance os_step_preorder : PreOrder os_step.
Proof.
  split; [intros w; unfold os_step; tauto |].
  intros a b c (?&?&?&?&?) (?&?&?&?&?). unfold os_step. repeat split; congruence.
Qed.

#[global] Instance scan_step_preorder : PreOrder scan_step.
Proof.
  split; [intros w; split; reflexivity |].
  intros a b c [H1 H2] [H3 H4]. split; [etrans; eassumption | congruence].
Qed.

#[global] Instance fs_step_preorder : PreOrder fs_step.
Proof.
  split; [intros w; unfold fs_step; tauto |].
  intros a b c (?&?&?&?&?&?) (?&?&?&?&?&?). unfold fs_step. repeat split; congruence.
Qed.

#[global] Instance no_append_preorder : PreOrder no_append.
Proof.
  split; [intros w; split; [reflexivity | intros f; by left] |].
  intros a b c [He1 H1] [He2 H2]. split; [congruence |].
  intros f. destruct (H1 f) as [E1 | [E1 E1']], (H2 f) as [E2 | [E2 E2']].
  - left. congruence.
  - congruence || (right; split; congruence).
  - right. split; congruence.
  - congruence.
Qed.

#[global] Instance paths_grow_preorder : PreOrder paths_grow.
Proof.
  split; [intros w; split; [reflexivity | set_solver] |].
  intros a b c [He1 H1] [He2 H2]. split; [congruence | set_solver].
Qed.

Lemma os_step_no_append w w' : os_step w w' → no_append w w'.
Proof. intros (He & _ & Hc & _). split; [exact He | intros f; left; by rewrite Hc]. Qed.

Lemma fs_step_no_append w w' : fs_step w w' → no_append w w'.
Proof. intros (He & _ & Hc & _). split; [exact He | intros f; left; by rewrite Hc]. Qed.

Lemma os_step_paths_grow w w' : os_step w w' → paths_grow w w'.
Proof. intros (He & Hp & _). split; [exact He | by rewrite Hp]. Qed.

Lemma no_append_records w w' f : no_append w w' → records w' f = records w f.
Proof.
  intros [_ H]. unfold records. destruct (H f) as [-> | [-> ->]]; reflexivity.
Qed.

Lemma no_append_lookup w w' f recs :
  no_append w w' → w_ckpt w !! f = Some recs → w_ckpt w' !! f = Some recs.
Proof. intros [_ H] Hf. destruct (H f) as [E | [E _]]; congruence. Qed.

Lemma no_append_replayed w w' f st :
  no_append w w' → replayed w f = Some st → replayed w' f = Some st.
Proof.
  intros Hn. unfold replayed. destruct (w_ckpt w !! f) as [recs|] eqn:E; [| done].
  rewrite (no_append_lookup _ _ _ _ Hn E). destruct Hn as [-> _]. done.
Qed.

Lemma no_append_appended w w' f : no_append w w' → appended w w' f = [].
Proof.
  intros H. unfold appended. rewrite (no_append_records _ _ _ H). apply drop_all.
Qed.

Section Framing.
Context {R : relation World} `{!PreOrder R}.

Lemma Frame_ret {A} (a : A) : Frame R (ret a).
Proof. intros w. reflexivity. Qed.

Lemma Frame_raise {A} e : Frame R (raise (A:=A) e).
Proof. intros w. reflexivity. Qed.

Lemma Frame_bind {A B} (m : M A) (f : A → M B) :
  Frame R m → (∀ a, Frame R (f a)) → Frame R (bind m f).
Proof.
  intros Hm Hf w. unfold bind. specialize (Hm w).
  destruct (m w) as [[a | e] w1]; simpl in *; [| exact Hm].
  etrans; [exact Hm | apply Hf].
Qed.

Lemma Frame_try_except {A} (m : M A) (h : Exn → M A) :
  Frame R m → (∀ e, Frame R (h e)) → Frame R (try_except m h).
Proof.
  intros Hm Hh w. unfold try_except. specialize (Hm w).
  destruct (m w) as [[a | e] w1]; simpl in *; [exact Hm |].
  etrans; [exact Hm | apply Hh].
Qed.

Lemma Frame_for_each {A} (l : list A) (body : A → M unit) :
  (∀ x, Frame R (body x)) → Frame R (for_each l body).
Proof.
  intros Hb. induction l as [| x l IH]; simpl.
  - apply Frame_ret.
  - apply Frame_bind; [apply Hb | intros _; exact IH].
Qed.

Lemma Frame_lift {A} (r : Res A) : Frame R (lift r).
Proof. intros w. reflexivity. Qed.

Lemma Frame_assert b : Frame R (assert b).
Proof. destruct b; [apply Frame_ret | apply Frame_raise]. Qed.

Lemma Frame_last_item {A} (l : list A) : Frame R (last_item l).
Proof. unfold last_item. destruct (last l); [apply Frame_ret | apply Frame_raise]. Qed.

Lemma Frame_if_truthy {A} p (k : Z → M A) (e : M A) :
  (∀ n, Frame R (k n)) → Frame R e → Frame R (if_truthy p k e).
Proof. intros Hk He. unfold if_truthy. destruct p as [n|]; [destruct (n =? 0) |]; auto. Qed.
End Framing.

Lemma Frame_weaken {A} (R R' : relation World) (m : M A) :
  (∀ w w', R w w' → R' w w') → Frame R m → Frame R' m.
Proof. intros H Hm w. apply H, Hm. Qed.

Create HintDb frame.

Ltac frame_prim :=
  intros w; unfold os_step, scan_step, fs_step, no_append, paths_grow;
  unfold os_rename, os_utime, lock_file;
  repeat case_match; simpl; repeat split; try reflexivity; try set_solver.

Ltac frame :=
  repeat first
    [ progress cbv beta zeta
    | solve [eauto with frame]
    | apply Frame_ret | apply Frame_raise | apply Frame_assert
    | apply Frame_lift | apply Frame_last_item
    | apply Frame_bind; [| intros ?]
    | apply Frame_try_except; [| intros ?]
    | apply Frame_for_each; intros ?
    | apply Frame_if_truthy; [intros ? |]
    | match goal with
      | |- Frame _ (match ?x with _ => _ end) => destruct x
      end ].

#[global] Hint Extern 5 (Frame os_step _) =>
  apply (Frame_weaken scan_step os_step); [intros ? ? [? _]; assumption |] : frame.
#[global] Hint Extern 5 (Frame no_append _) =>
  apply (Frame_weaken os_step no_append _ os_step_no_append) : frame.
#[global] Hint Extern 5 (Frame no_append _) =>
  apply (Frame_weaken fs_step no_append _ fs_step_no_append) : frame.
#[global] Hint Extern 5 (Frame paths_grow _) =>
  apply (Frame_weaken os_step paths_grow _ os_step_paths_grow) : frame.

Lemma clock_time_scan clock : Frame scan_step (clock_time clock).
Proof. frame_prim. Qed.
Lemma os_getpid_scan : Frame scan_step os_getpid.
Proof. frame_prim. Qed.
Lemma os_getuid_scan : Frame scan_step os_getuid.
Proof. frame_prim. Qed.
Lemma collect_all_scan : Frame scan_step collect_all.
Proof. frame_prim. Qed.
Lemma get_PS_scan : Frame scan_step get_PS.
Proof. frame_prim. Qed.
Lemma from_file_scan f : Frame scan_step (from_file f).
Proof. frame_prim. Qed.
Lemma TaskPath_of_scan r i : Frame scan_step (TaskPath_of r i).
Proof. frame_prim. Qed.
Lemma os_kill_os p sig : Frame os_step (os_kill p sig).
Proof. intros w. unfold os_kill. destruct (env_kill _ _ _ _); repeat split. Qed.

Lemma os_path_exists_fs p : Frame fs_step (os_path_exists p).
Proof. frame_prim. Qed.
Lemma safe_mkdir_fs d : Frame fs_step (safe_mkdir d).
Proof. frame_prim. Qed.
Lemma write_file_fs p c : Frame fs_step (write_file p c).
Proof. frame_prim. Qed.
Lemma os_rename_fs a b : Frame fs_step (os_rename a b).
Proof. frame_prim. Qed.
Lemma os_utime_fs p : Frame fs_step (os_utime p).
Proof. frame_prim. Qed.

Lemma os_path_exists_grow p : Frame paths_grow (os_path_exists p).
Proof. frame_prim. Qed.
Lemma safe_mkdir_grow d : Frame paths_grow (safe_mkdir d).
Proof. frame_prim. Qed.

Lemma touch_no_append f w : no_append w (touch f w).
Proof.
  split; [reflexivity |]. intros g. unfold touch. simpl.
  destruct (w_ckpt w !! f) eqn:E; [by left |].
  destruct (decide (f = g)) as [<- | Hne].
  - right. by rewrite lookup_insert_eq.
  - left. by rewrite lookup_insert_ne.
Qed.

Lemma lock_file_no_append f b : Frame no_append (lock_file f b).
Proof.
  intros w. unfold lock_file. destruct (env_lock _ _ _ _); simpl.
  - split; [reflexivity | intros g; by left].
  - exact (touch_no_append f w).
  - exact (touch_no_append f w).
Qed.

Lemma lock_file_grow f b : Frame paths_grow (lock_file f b).
Proof. frame_prim. Qed.

Lemma ckpt_close_no_append fd : Frame no_append (ckpt_close fd).
Proof. intros w. split; [reflexivity | intros g; by left]. Qed.

#[global] Hint Resolve clock_time_scan os_getpid_scan os_getuid_scan collect_all_scan
  get_PS_scan from_file_scan TaskPath_of_scan os_kill_os os_path_exists_fs safe_mkdir_fs
  write_file_fs os_rename_fs os_utime_fs os_path_exists_grow safe_mkdir_grow
  lock_file_no_append lock_file_grow ckpt_close_no_append : frame.

Lemma this_is_really_our_pid_scan h u s clock :
  Frame scan_step (this_is_really_our_pid h u s clock).
Proof. unfold this_is_really_our_pid. frame. Qed.
#[global] Hint Resolve this_is_really_our_pid_scan : frame.

Lemma scan_process_scan st name clock ps :
  Frame scan_step (scan_process st name clock ps).
Proof. unfold scan_process, lookup_process, handle_of. frame. Qed.
#[global] Hint Resolve scan_process_scan : frame.

Lemma _get_process_tuple_scan st name : Frame scan_step (_get_process_tuple st name).
Proof. unfold _get_process_tuple. frame. Qed.

Lemma _get_coordinator_group_scan st name :
  Frame scan_step (_get_coordinator_group st name).
Proof. unfold _get_coordinator_group, lookup_process. frame. Qed.
#[global] Hint Resolve _get_process_tuple_scan _get_coordinator_group_scan : frame.

Lemma safe_signal_os p sig : Frame os_step (safe_signal p sig).
Proof. unfold safe_signal. frame. Qed.
#[global] Hint Resolve safe_signal_os : frame.

Lemma kill_process_os st name : Frame os_step (kill_process st name).
Proof. unfold kill_process, kill_group, kill_pid. frame. Qed.

Lemma kill_runner_os st : Frame os_step (kill_runner st).
Proof. unfold kill_runner. frame. Qed.
#[global] Hint Resolve kill_process_os kill_runner_os : frame.

Lemma open_checkpoint_no_append f force st : Frame no_append (open_checkpoint f force st).
Proof. unfold open_checkpoint. frame. Qed.

Lemma open_checkpoint_grow f force st : Frame paths_grow (open_checkpoint f force st).
Proof. unfold open_checkpoint. frame. Qed.

Lemma finalize_task_fs spec : Frame fs_step (finalize_task spec).
Proof. unfold finalize_task. frame. Qed.

Lemma initialize_task_fs spec task : Frame fs_step (initialize_task spec task).
Proof. unfold initialize_task. frame. Qed.
#[global] Hint Resolve open_checkpoint_no_append open_checkpoint_grow finalize_task_fs
  initialize_task_fs : frame.

(** ** Running a computation *)

Lemma bind_Ok {A B} (m : M A) (f : A → M B) w a w1 :
  m w = (Ok a, w1) → bind m f w = f a w1.
Proof. intros H. unfold bind. by rewrite H. Qed.

Lemma bind_Raise {A B} (m : M A) (f : A → M B) w e w1 :
  m w = (Raise e, w1) → bind m f w = (Raise e, w1).
Proof. intros H. unfold bind. by rewrite H. Qed.

Lemma bind_inv {A B} (m : M A) (f : A → M B) w r w' :
  bind m f w = (r, w') →
  (∃ a w1, m w = (Ok a, w1) ∧ f a w1 = (r, w'))
  ∨ (∃ e, m w = (Raise e, w') ∧ r = Raise e).
Proof.
  unfold bind. destruct (m w) as [[a | e] w1]; intros H.
  - left. eauto.
  - right. inversion H; subst. eauto.
Qed.

(** ** Comparisons of doubles *)

Lemma SFcompare_swap a b c :
  SFcompare a b = Some c → SFcompare b a = Some (CompOpp c).
Proof.
  destruct a as [sa | sa | | sa ma ea], b as [sb | sb | | sb mb eb]; cbn;
    intros H; inversion H; subst; clear H;
    try (by destruct sa); try (by destruct sb); try (by destruct sa, sb).
  change (PosDef.Pos.compare_cont Eq ma mb) with (ma ?= mb)%positive.
  change (PosDef.Pos.compare_cont Eq mb ma) with (mb ?= ma)%positive.
  rewrite (Z.compare_antisym ea eb), (Pos.compare_antisym ma mb).
  destruct sa, sb; try reflexivity;
    destruct (ea ?= eb); cbn; try reflexivity;
    by destruct (ma ?= mb)%positive.
Qed.

Lemma SFcompare_None a b :
  SFcompare a b = None ↔ a = S754_nan ∨ b = S754_nan.
Proof.
  destruct a as [sa | sa | | sa ma ea], b as [sb | sb | | sb mb eb]; cbn;
    split; try discriminate; try tauto; try (intros [?|?]; discriminate).
Qed.

Lemma SFcompare_refl a : a ≠ S754_nan → SFcompare a a = Some Eq.
Proof.
  destruct a as [sa | sa | | sa ma ea]; cbn; intros H; try done.
  - by destruct sa.
  - rewrite Z.compare_refl.
    change (PosDef.Pos.compare_cont Eq ma ma) with (ma ?= ma)%positive.
    rewrite Pos.compare_refl. by destruct sa.
Qed.

Lemma is_nan_spec x : is_nan x = true ↔ Prim2SF x = S754_nan.
Proof.
  unfold is_nan. rewrite FloatAxioms.eqb_spec. unfold SFeqb. split.
  - intros H. destruct (Prim2SF x) eqn:E; try reflexivity; exfalso;
      rewrite SFcompare_refl in H by discriminate; discriminate.
  - intros ->. reflexivity.
Qed.

(** [x >= y] is false exactly when [x < y] or one of the two is NaN. *)
Lemma leb_false_iff x y :
  (x <=? y)%float = false
  ↔ (y <? x)%float = true ∨ is_nan x = true ∨ is_nan y = true.
Proof.
  rewrite FloatAxioms.leb_spec, FloatAxioms.ltb_spec, !is_nan_spec.
  unfold SFleb, SFltb.
  destruct (SFcompare (Prim2SF x) (Prim2SF y)) as [c|] eqn:E.
  - rewrite (SFcompare_swap _ _ _ E).
    assert (Prim2SF x ≠ S754_nan ∧ Prim2SF y ≠ S754_nan) as [Hx Hy].
    { split; intros Hn;
        assert (SFcompare (Prim2SF x) (Prim2SF y) = None) as Hc
          by (apply SFcompare_None; auto); congruence. }
    destruct c; cbn; split; try done; try (intros [?|[?|?]]; done); auto.
  - apply SFcompare_None in E as E'. split; [intros _ | done].
    right. exact E'.
Qed.

(** ** PID ownership (C3) *)

Lemma this_is_really_our_pid_eq h owner start clock w :
  this_is_really_our_pid h owner start clock w =
    if negb (String.eqb (h_user h) owner) then (Ok false, w)
    else match start with
         | Some s => (Ok (within_drift s (clock w) (h_wall_time h)), tick w)
         | None => (Raise TypeError, tick w)
         end.
Proof.
  unfold this_is_really_our_pid, within_drift, bind, clock_time.
  destruct (negb _); [reflexivity |]. destruct start as [s|]; [| reflexivity].
  destruct (PrimFloat.leb _ _); reflexivity.
Qed.

(** C3 (amended): for every handle, expected owner, recorded start time
    and clock, [this_is_really_our_pid] returns, and it returns [True]
    exactly when the handle's user is the expected owner and the test
    [abs(start_time - (clock.time() - wall_time)) >= 10] fails in double
    arithmetic, that is when the drift as computed in doubles is below 10
    or is NaN; a differing owner gives [False] whatever the times are. *)
Theorem this_is_really_our_pid_spec :
  ∀ (h : ProcessHandle) (owner : string) (recorded : float) (clock : Clock) (w : World),
    let drift := abs (recorded - (clock w - h_wall_time h))%float in
    (∃ b, fst (this_is_really_our_pid h owner (Some recorded) clock w) = Ok b)
    ∧ (fst (this_is_really_our_pid h owner (Some recorded) clock w) = Ok true
       ↔ h_user h = owner
         ∧ ((drift <? 10)%float = true ∨ is_nan drift = true))
    ∧ (∀ start, h_user h ≠ owner →
         fst (this_is_really_our_pid h owner start clock w) = Ok false).
Proof.
  intros h owner recorded clock w drift. split; [| split].
  - rewrite this_is_really_our_pid_eq. destruct (negb _); by eexists.
  - rewrite this_is_really_our_pid_eq. unfold within_drift, MAX_START_TIME_DRIFT.
    fold drift.
    destruct (String.eqb_spec (h_user h) owner) as [Heq | Hne]; cbn [negb fst].
    + destruct (10 <=? drift)%float eqn:Hle; cbn [negb].
      * split; [discriminate |]. intros [_ Hlt]. exfalso.
        assert ((10 <=? drift)%float = false) as Hc; [| congruence].
        apply leb_false_iff. destruct Hlt; auto.
      * split; [| reflexivity]. intros _. split; [exact Heq |].
        apply leb_false_iff in Hle as [Hlt | [Hn | Hn]]; auto.
        vm_compute in Hn. discriminate.
    + split; [discriminate | intros [Hc _]; contradiction].
  - intros start Hne. rewrite this_is_really_our_pid_eq.
    destruct (String.eqb_spec (h_user h) owner); [contradiction | reflexivity].
Qed.

(** Read with the drift a real number and the test [< 10], the verdict
    of the specification fails in both directions.  With a handle of wall time 0.1, a
    clock reading 10.1 and a recorded start time 0.0, the real drift of
    these three doubles is below 10, yet [10.1 - 0.1] rounds to 10.0 and
    the verdict is [False].  With a recorded start time NaN the drift is
    NaN, which is not below 10, yet [NaN >= 10] is false and the verdict is
    [True]. *)
Lemma this_is_really_our_pid_not_real_drift :
  (∃ s n wt,
      exact 0 = Some s ∧ exact 10.1 = Some n ∧ exact 0.1 = Some wt
      ∧ (Qabs (s - (n - wt)) < 10)%Q
      ∧ fst (this_is_really_our_pid (mkHandle 100 "alice" 0.1) "alice" (Some 0%float)
               (λ _, 10.1%float) Example.w_active) = Ok false)
  ∧ ((abs (nan - (1005 - 5)) <? 10)%float = false
     ∧ fst (this_is_really_our_pid (mkHandle 100 "alice" 5) "alice" (Some nan)
              (λ _, 1005%float) Example.w_active) = Ok true).
Proof.
  split.
  - eexists _, _, _. repeat split; try (vm_compute; reflexivity).
  - split; vm_compute; reflexivity.
Qed.

(** ** Task lifecycle markers (C9) *)

Lemma finalize_task_ok spec w :
  active_task_path spec ∈ w_paths w →
  finished_task_path spec ∉ w_paths w →
  finalize_task spec w =
    (Ok tt,
     set_paths (λ s, {[finished_task_path spec]} ∪ (s ∖ {[active_task_path spec]}))
       (set_paths (λ s, {[dirname (finished_task_path spec)]} ∪ s) w)).
Proof.
  intros Ha Hf.
  unfold finalize_task, bind, os_path_exists, assert, safe_mkdir, os_rename, os_utime, ret.
  rewrite (bool_decide_eq_true_2 _ Ha), (bool_decide_eq_false_2 _ Hf). cbn.
  rewrite bool_decide_eq_true_2 by (by apply elem_of_union_r).
  rewrite bool_decide_eq_true_2 by (apply elem_of_union_l; by apply elem_of_singleton).
  reflexivity.
Qed.

Lemma finalize_task_fails spec w :
  active_task_path spec ∉ w_paths w ∨ finished_task_path spec ∈ w_paths w →
  finalize_task spec w = (Raise AssertionError, w).
Proof.
  intros H.
  unfold finalize_task, bind, os_path_exists, assert, ret, raise.
  destruct H as [Ha | Hf].
  - rewrite (bool_decide_eq_false_2 _ Ha). reflexivity.
  - rewrite (bool_decide_eq_true_2 _ Hf). by rewrite andb_false_r.
Qed.

Lemma finalize_task_Ok_inv spec w w' :
  finalize_task spec w = (Ok tt, w') →
  active_task_path spec ∈ w_paths w ∧ (finished_task_path spec ∉ w_paths w)
  ∧ finished_task_path spec ∈ w_paths w' ∧ (active_task_path spec ∉ w_paths w').
Proof.
  intros H.
  destruct (decide (active_task_path spec ∈ w_paths w)) as [Ha | Ha];
    [| rewrite finalize_task_fails in H by (by left); discriminate].
  destruct (decide (finished_task_path spec ∈ w_paths w)) as [Hf | Hf];
    [rewrite finalize_task_fails in H by (by right); discriminate |].
  assert (active_task_path spec ≠ finished_task_path spec) as Hne by congruence.
  rewrite (finalize_task_ok _ _ Ha Hf) in H. injection H as <-.
  cbn [w_paths set_paths]. repeat split; [done | done | |].
  - apply elem_of_union_l. by apply elem_of_singleton.
  - intros [Hx | Hx]%elem_of_union.
    + by apply elem_of_singleton in Hx.
    + apply elem_of_difference in Hx as [_ Hx]. apply Hx. by apply elem_of_singleton.
Qed.

(** C9: [finalize_task] fails its assertion whenever the active marker
    does not exist or the finished marker already exists, hence before any
    [initialize_task] (no marker yet) and on a second call; when the
    precondition holds it returns with the active path renamed to the
    finished path. *)
Theorem finalize_task_lifecycle :
  ∀ (spec : TaskPath) (w : World),
    (active_task_path spec ∉ w_paths w ∨ finished_task_path spec ∈ w_paths w →
       finalize_task spec w = (Raise AssertionError, w))
    ∧ (w_paths w = ∅ → finalize_task spec w = (Raise AssertionError, w))
    ∧ (active_task_path spec ∈ w_paths w → finished_task_path spec ∉ w_paths w →
       ∃ w', finalize_task spec w = (Ok tt, w')
             ∧ finished_task_path spec ∈ w_paths w'
             ∧ (active_task_path spec ∉ w_paths w')
             ∧ (∀ p, p ≠ active_task_path spec → p ∈ w_paths w → p ∈ w_paths w')
             ∧ finalize_task spec w' = (Raise AssertionError, w')).
Proof.
  intros spec w. split; [apply finalize_task_fails |]. split.
  - intros He. apply finalize_task_fails. left. rewrite He. apply not_elem_of_empty.
  - intros Ha Hf.
    pose proof (finalize_task_ok _ _ Ha Hf) as Hrun.
    eexists. split; [exact Hrun |].
    destruct (finalize_task_Ok_inv _ _ _ Hrun) as (_ & _ & Hfin & Hact).
    split; [exact Hfin |]. split; [exact Hact |]. split.
    + intros p Hp Hin. cbn [w_paths set_paths].
      apply elem_of_union_r, elem_of_difference. split.
      * by apply elem_of_union_r.
      * by intros ?%elem_of_singleton.
    + apply finalize_task_fails. by right.
Qed.

(** ** The checkpoint lock (C7, C8) *)

Lemma lock_file_refused filename blocking w :
  env_lock (w_env w) (w_tick w) filename blocking ≠ Granted →
  ∃ fp w', lock_file filename blocking w = (Ok fp, w')
           ∧ in_None_False fp = true
           ∧ w_env w' = w_env w ∧ w_tick w' = S (w_tick w)
           ∧ w_fds w' = w_fds w ∧ w_signals w' = w_signals w
           ∧ w_next_fd w' = w_next_fd w.
Proof.
  intros H. unfold lock_file.
  destruct (env_lock _ _ _ _); [| | contradiction]; do 2 eexists; repeat split.
Qed.

Lemma lock_file_granted filename blocking w :
  env_lock (w_env w) (w_tick w) filename blocking = Granted →
  ∃ w', lock_file filename blocking w = (Ok (LF_fp (w_next_fd w)), w')
        ∧ w_fds w' = <[w_next_fd w := filename]> (w_fds w)
        ∧ w_env w' = w_env w ∧ w_tick w' = S (w_tick w)
        ∧ w_signals w' = w_signals w ∧ w_paths w' = w_paths w.
Proof. intros H. unfold lock_file. rewrite H. eexists. repeat split. Qed.

(** [kill_runner] on a state whose latest status names another process. *)
Lemma kill_runner_eq st sts latest w :
  statuses st = Some sts → last sts = Some latest →
  runner_pid latest ≠ env_getpid (w_env w) →
  kill_runner (Some st) w =
    let w' := tick (set_signals (λ l, l ++ [(runner_pid latest, SIGKILL)]) w) in
    match env_kill (w_env w) (w_tick w) (runner_pid latest) SIGKILL with
    | Delivered => (Ok true, w')
    | KillOSError EPERM => (Ok false, w')
    | KillOSError ESRCH => (Ok true, w')
    | KillOSError e => (Raise (OSError e), w')
    | KillOtherError => (Raise OtherError, w')
    end.
Proof.
  intros Hs Hl Hne. unfold kill_runner. rewrite Hs.
  destruct sts as [| s0 sts']; [discriminate |].
  unfold last_item. rewrite Hl.
  unfold bind at 1. cbn [ret]. unfold bind at 1, os_getpid at 1.
  apply Z.eqb_neq in Hne. rewrite Hne. cbn [negb assert].
  unfold bind at 1. cbn [ret]. unfold try_except, bind, os_kill.
  destruct (env_kill _ _ _ _) as [| [] |]; reflexivity.
Qed.

(** C8: when the lock of the checkpoint is not granted (it is held by
    another process, or the file cannot be opened) and [force] is false,
    [open_checkpoint] raises [PermissionError]; nothing is appended to any
    checkpoint, no writer is opened and no signal is sent.  [kill] with
    [force=False] surfaces the same error to its caller, with no record
    appended. *)
Theorem open_checkpoint_contention :
  ∀ (task_id checkpoint_root : string) (terminal_status : TaskState) (clock : Clock)
    (state : option RunnerState) (w : World),
    let filename := runner_checkpoint (env_TaskPath (w_env w) checkpoint_root task_id) in
    env_lock (w_env w) (w_tick w) filename false ≠ Granted →
    (∃ w', open_checkpoint filename false state w = (Raise PermissionError, w')
           ∧ (∀ f, records w' f = records w f)
           ∧ w_fds w' = w_fds w ∧ w_signals w' = w_signals w)
    ∧ (terminal_status ∈ [TS_KILLED; TS_LOST] →
       ∃ w', kill task_id checkpoint_root false terminal_status clock w
               = (Raise PermissionError, w')
             ∧ (∀ f, records w' f = records w f)
             ∧ w_fds w' = w_fds w ∧ w_signals w' = w_signals w).
Proof.
  intros task_id root term clock state w filename Hlock.
  assert (∀ state, ∃ w', open_checkpoint filename false state w = (Raise PermissionError, w')
           ∧ (∀ f, records w' f = records w f)
           ∧ w_fds w' = w_fds w ∧ w_signals w' = w_signals w) as Hopen.
  { intros state0.
    pose proof (open_checkpoint_no_append filename false state0 w) as Hna.
    unfold open_checkpoint in *.
    rewrite (bind_Ok (safe_mkdir _) _ w tt _ eq_refl) in *.
    destruct (lock_file_refused filename false
                (set_paths (λ s, {[dirname filename]} ∪ s) w) Hlock)
      as (fp & w1 & Hlf & Hfp & _ & _ & Hfds & Hsig & _).
    rewrite (bind_Ok _ _ _ _ _ Hlf) in *. rewrite Hfp in *.
    rewrite (bind_Ok (ret fp) _ w1 fp w1 eq_refl) in *.
    exists w1. destruct fp; [| | discriminate]; cbn [raise] in *;
      (split; [reflexivity |]; split;
       [intros f; apply no_append_records, Hna | split; assumption]). }
  split; [apply Hopen |].
  intros Hterm. unfold kill.
  rewrite (bool_decide_eq_true_2 _ Hterm).
  rewrite (bind_Ok (assert true) _ w tt w eq_refl).
  rewrite (bind_Ok (TaskPath_of root task_id) _ w _ w eq_refl).
  fold filename.
  rewrite (bind_Ok (from_file filename) _ w _ w eq_refl).
  destruct (Hopen (replayed w filename)) as (w' & Ho & Hrest).
  exists w'. split; [| exact Hrest].
  apply bind_Raise. exact Ho.
Qed.

(** C7: during a forced takeover the recorded runner is sent SIGKILL.
    "No such process" (ESRCH) makes [kill_runner] answer [True], and
    [open_checkpoint(force=True)] goes on to take the lock in blocking mode
    and returns the writer; "operation not permitted" (EPERM) makes
    [kill_runner] answer [False], no second lock attempt is made and
    [open_checkpoint] raises [PermissionError]. *)
Theorem forced_takeover :
  ∀ (filename : string) (st : RunnerState) (sts : list TaskStatus)
    (latest : TaskStatus) (w : World),
    statuses st = Some sts → last sts = Some latest →
    runner_pid latest ≠ env_getpid (w_env w) →
    (env_kill (w_env w) (w_tick w) (runner_pid latest) SIGKILL = KillOSError ESRCH →
       fst (kill_runner (Some st) w) = Ok true)
    ∧ (env_kill (w_env w) (w_tick w) (runner_pid latest) SIGKILL = KillOSError EPERM →
       fst (kill_runner (Some st) w) = Ok false)
    ∧ (env_lock (w_env w) (w_tick w) filename false ≠ Granted →
       env_kill (w_env w) (S (w_tick w)) (runner_pid latest) SIGKILL = KillOSError ESRCH →
       env_lock (w_env w) (S (S (w_tick w))) filename true = Granted →
       ∃ w', open_checkpoint filename true (Some st) w = (Ok (w_next_fd w), w')
             ∧ w_fds w' !! w_next_fd w = Some filename
             ∧ w_signals w' = w_signals w ++ [(runner_pid latest, SIGKILL)])
    ∧ (env_lock (w_env w) (w_tick w) filename false ≠ Granted →
       env_kill (w_env w) (S (w_tick w)) (runner_pid latest) SIGKILL = KillOSError EPERM →
       ∃ w', open_checkpoint filename true (Some st) w = (Raise PermissionError, w')
             ∧ w_fds w' = w_fds w
             ∧ w_tick w' = S (S (w_tick w))
             ∧ (∀ f, records w' f = records w f)).
Proof.
  intros filename st sts latest w Hs Hl Hne.
  split; [| split; [| split]].
  - intros Hk. rewrite (kill_runner_eq _ _ _ _ Hs Hl Hne), Hk. reflexivity.
  - intros Hk. rewrite (kill_runner_eq _ _ _ _ Hs Hl Hne), Hk. reflexivity.
  - intros Hlock Hk Hblock. unfold open_checkpoint.
    rewrite (bind_Ok (safe_mkdir _) _ w tt _ eq_refl).
    destruct (lock_file_refused filename false
                (set_paths (λ s, {[dirname filename]} ∪ s) w) Hlock)
      as (fp & w1 & Hlf & Hfp & He1 & Ht1 & Hfds1 & Hsig1 & Hnext1).
    cbn [w_env w_tick w_fds w_signals w_next_fd set_paths] in *.
    rewrite (bind_Ok _ _ _ _ _ Hlf). rewrite Hfp.
    assert (runner_pid latest ≠ env_getpid (w_env w1)) as Hne1 by (by rewrite He1).
    pose proof (kill_runner_eq _ _ _ w1 Hs Hl Hne1) as Hkr.
    rewrite He1, Ht1, Hk in Hkr. cbv zeta in Hkr.
    set (w2 := tick (set_signals (λ l, l ++ [(runner_pid latest, SIGKILL)]) w1)) in *.
    assert (env_lock (w_env w2) (w_tick w2) filename true = Granted) as Hb2.
    { subst w2. cbn. by rewrite He1, Ht1. }
    destruct (lock_file_granted filename true w2 Hb2)
      as (w3 & Hlf3 & Hfds3 & _ & _ & Hsig3 & _).
    exists w3. split; [| split].
    + erewrite bind_Ok;
        [| erewrite bind_Ok; [| reflexivity];
           erewrite bind_Ok; [| exact Hkr]; exact Hlf3].
      subst w2. cbn. by rewrite Hnext1.
    + rewrite Hfds3. subst w2. cbn. rewrite Hnext1. apply lookup_insert_eq.
    + rewrite Hsig3. subst w2. cbn. by rewrite Hsig1.
  - intros Hlock Hk.
    destruct (lock_file_refused filename false
                (set_paths (λ s, {[dirname filename]} ∪ s) w) Hlock)
      as (fp & w1 & Hlf & Hfp & He1 & Ht1 & Hfds1 & Hsig1 & Hnext1).
    cbn [w_env w_tick w_fds w_signals w_next_fd set_paths] in *.
    assert (runner_pid latest ≠ env_getpid (w_env w1)) as Hne1 by (by rewrite He1).
    pose proof (kill_runner_eq _ _ _ w1 Hs Hl Hne1) as Hkr.
    rewrite He1, Ht1, Hk in Hkr. cbv zeta in Hkr.
    set (w2 := tick (set_signals (λ l, l ++ [(runner_pid latest, SIGKILL)]) w1)) in *.
    assert (open_checkpoint filename true (Some st) w = (Raise PermissionError, w2))
      as Heq.
    { unfold open_checkpoint.
      rewrite (bind_Ok (safe_mkdir _) _ w tt _ eq_refl).
      rewrite (bind_Ok _ _ _ _ _ Hlf). rewrite Hfp.
      erewrite bind_Ok;
        [| erewrite bind_Ok; [| reflexivity];
           erewrite bind_Ok; [| exact Hkr]; reflexivity].
      destruct fp; [reflexivity | reflexivity | discriminate]. }
    pose proof (open_checkpoint_no_append filename true (Some st) w) as Hna.
    rewrite Heq in Hna. exists w2. split; [exact Heq |].
    split; [subst w2; cbn; exact Hfds1 |].
    split; [subst w2; cbn; by rewrite Ht1 |].
    intros f. apply no_append_records, Hna.
Qed.

(** ** The clocks of [scan_process] (C10) *)

(** Two computations agree up to the observation [g] of their result. *)
Lemma bind_agree {A B C} (g : Res B → C) (m : M A) (f1 f2 : A → M B) :
  (∀ a w, g (fst (f1 a w)) = g (fst (f2 a w)) ∧ snd (f1 a w) = snd (f2 a w)) →
  ∀ w, g (fst (bind m f1 w)) = g (fst (bind m f2 w))
       ∧ snd (bind m f1 w) = snd (bind m f2 w).
Proof. intros H w. unfold bind. destruct (m w) as [[a | e] w1]; [apply H | done]. Qed.

Lemma scan_process_clock st name c1 c2 ps w :
  coordinator_of (fst (scan_process st name c1 ps w))
    = coordinator_of (fst (scan_process st name c2 ps w))
  ∧ snd (scan_process st name c1 ps w) = snd (scan_process st name c2 ps w).
Proof.
  unfold scan_process. revert w.
  apply bind_agree; intros history.
  apply bind_agree; intros run.
  apply bind_agree; intros owner.
  apply bind_agree; intros tab.
  apply bind_agree; intros cp w.
  cbv zeta. unfold bind, if_truthy, handle_of.
  destruct (pid run) as [p |]; [| done].
  destruct (p =? 0); [done |].
  destruct (bool_decide (p ∈ pids tab)); [| done].
  destruct (get_handle tab p) as [h |]; [| done].
  cbn [ret]. rewrite !this_is_really_our_pid_eq.
  destruct (negb (String.eqb (h_user h) owner)); [done |].
  destruct (start_time run) as [s |]; [| done].
  destruct (within_drift s (c1 w) (h_wall_time h));
    destruct (within_drift s (c2 w) (h_wall_time h)); done.
Qed.

(** C10: in [scan_process] the verdict on the recorded coordinator pid is
    computed with the ambient [time] module, not with the [clock]
    argument: two runs that differ only in [clock] agree on the
    coordinator (and on the world they end in), whereas the verdict on the
    main pid does depend on [clock], and the verdict on the coordinator
    does depend on the ambient time. *)
Theorem scan_process_coordinator_ignores_clock :
  (∀ (st : RunnerState) (name : string) (c1 c2 : Clock)
     (ps : option ProcessTable) (w : World),
     coordinator_of (fst (scan_process st name c1 ps w))
       = coordinator_of (fst (scan_process st name c2 ps w)))
  ∧ (∃ (st : RunnerState) (name : string) (c1 c2 : Clock)
       (ps : option ProcessTable) (w : World),
       pid_of (fst (scan_process st name c1 ps w)) = Ok (Some 100)
       ∧ pid_of (fst (scan_process st name c2 ps w)) = Ok None)
  ∧ (∃ (st : RunnerState) (name : string) (c : Clock) (ps : option ProcessTable)
       (now1 now2 : float),
       let w1 := Example.world (Example.env now1 Delivered (λ _, Granted) st) in
       let w2 := Example.world (Example.env now2 Delivered (λ _, Granted) st) in
       coordinator_of (fst (scan_process st name c ps w1)) = Ok (Some 200)
       ∧ coordinator_of (fst (scan_process st name c ps w2)) = Ok None).
Proof.
  split; [| split].
  - intros. apply scan_process_clock.
  - exists Example.active_state, "web"%string, (λ _, 1005%float), (λ _, 2000%float),
      None, Example.w_active.
    split; vm_compute; reflexivity.
  - exists Example.active_state, "web"%string, time, None, 1005%float, 2000%float.
    split; vm_compute; reflexivity.
Qed.

(** ** Signals sent by [kill_process] (C6) *)

Lemma signalled_app l1 l2 w : signalled (l1 ++ l2) w = signalled l2 (signalled l1 w).
Proof. apply foldl_app. Qed.

Lemma signalled_os l w : os_step w (signalled l w).
Proof.
  revert w. induction l as [| s l IH]; intros w; [reflexivity |].
  change (os_step w (signalled l (tick (set_signals (λ l, l ++ [s]) w)))).
  etrans; [| apply IH]. repeat split.
Qed.

Lemma signalled_signals l w : w_signals (signalled l w) = w_signals w ++ l.
Proof.
  revert w. induction l as [| s l IH]; intros w; [by rewrite app_nil_r |].
  change (w_signals (signalled l (tick (set_signals (λ l, l ++ [s]) w)))
          = w_signals w ++ s :: l).
  rewrite IH. cbn. by rewrite <- app_assoc.
Qed.

Lemma safe_signal_eq p sig w : safe_signal p sig w = (Ok tt, signalled [(p, sig)] w).
Proof.
  unfold safe_signal, try_except, os_kill.
  destruct (env_kill _ _ _ _); reflexivity.
Qed.

Lemma if_truthy_signal o (f : Z → Z) w :
  if_truthy o (λ n, safe_signal (f n) SIGKILL) (ret tt) w
  = (Ok tt, signalled (if_truthy o (λ n, [(f n, SIGKILL)]) []) w).
Proof.
  unfold if_truthy. destruct o as [n |]; [| reflexivity].
  destruct (n =? 0); [reflexivity | apply safe_signal_eq].
Qed.

Lemma for_each_kill_pid l w :
  for_each l kill_pid w = (Ok tt, signalled (map (λ child, (child, SIGKILL)) l) w).
Proof.
  revert w. induction l as [| c l IH]; intros w; [reflexivity |].
  cbn [for_each]. unfold kill_pid at 1.
  rewrite (bind_Ok _ _ _ _ _ (safe_signal_eq c SIGKILL w)). apply IH.
Qed.

Lemma has_history_true st name history run :
  processes st !! name = Some history → last history = Some run →
  has_history st name = true.
Proof. intros Hp Hl. unfold has_history. rewrite Hp. by destruct history. Qed.

Lemma _get_coordinator_group_eq st name history run w :
  processes st !! name = Some history → last history = Some run →
  _get_coordinator_group st name w = (Ok (coordinator_pid run), w).
Proof.
  intros Hp Hl. unfold _get_coordinator_group.
  rewrite (has_history_true _ _ _ _ Hp Hl).
  unfold lookup_process, last_item, bind, assert, ret. by rewrite Hp, Hl.
Qed.

(** [kill_process] as a function of what the scan finds. *)
Lemma kill_process_eq st name history run w :
  processes st !! name = Some history → last history = Some run →
  kill_process st name w =
    match _get_process_tuple st name w with
    | (Ok (coordinator_pid0, pid0, tree), w1) =>
        (Ok (truthy coordinator_pid0 || truthy pid0 || negb (bool_decide (tree = ∅))),
         signalled (kill_signals (coordinator_pid run) coordinator_pid0 pid0 tree) w1)
    | (Raise e, w1) => (Raise e, w1)
    end.
Proof.
  intros Hp Hl. unfold kill_process.
  rewrite (bind_Ok _ _ _ _ _ (_get_coordinator_group_eq _ _ _ _ w Hp Hl)).
  unfold bind at 1.
  destruct (_get_process_tuple st name w) as [[[[cp p] tree] | e] w1]; [| reflexivity].
  unfold kill_group, kill_pid at 1 2.
  rewrite (bind_Ok _ _ _ _ _ (if_truthy_signal _ Z.opp w1)).
  rewrite (bind_Ok _ _ _ _ _ (if_truthy_signal _ id _)).
  rewrite (bind_Ok _ _ _ _ _ (if_truthy_signal _ id _)).
  rewrite (bind_Ok _ _ _ _ _ (for_each_kill_pid _ _)).
  unfold kill_signals, ret. by rewrite !signalled_app.
Qed.

Lemma bind_Ok_inv {A B} (m : M A) (f : A → M B) w b w' :
  bind m f w = (Ok b, w') → ∃ a w1, m w = (Ok a, w1) ∧ f a w1 = (Ok b, w').
Proof.
  intros H. apply bind_inv in H as [(a & w1 & Hm & Hf) | (e & _ & He)]; [eauto | done].
Qed.

(** The check of the coordinator pid ends in the world it started in, or
    one clock reading later. *)
Lemma coordinator_check_world (tab : ProcessTable) owner fork clock (o : option Z) w r wa :
  if_truthy o
    (λ c, if bool_decide (c ∈ pids tab)
          then bind (handle_of tab c)
                 (λ h, bind (this_is_really_our_pid h owner fork clock)
                         (λ ours, ret (if ours then Some c else None)))
          else ret None)
    (ret None) w = (r, wa) →
  wa = w ∨ wa = tick w.
Proof.
  unfold if_truthy, handle_of. intros H.
  destruct o as [c |]; [| left; by injection H].
  destruct (c =? 0); [left; by injection H |].
  destruct (bool_decide (c ∈ pids tab)); [| left; by injection H].
  destruct (get_handle tab c) as [h |]; [| left; by injection H].
  rewrite (bind_Ok (ret h) _ w h w eq_refl) in H. unfold bind in H.
  rewrite this_is_really_our_pid_eq in H.
  destruct (negb _); [left; by injection H |].
  destruct fork; right; by injection H.
Qed.

(** What the scan returns was recorded in the latest record, is in the
    process table and passed the ownership check: the coordinator pid in
    the world the scan starts in, the main pid in the world the check of
    the coordinator ended in. *)
Lemma scan_process_sound st name clock tab history run w cp p tree w1 :
  processes st !! name = Some history → last history = Some run →
  scan_process st name clock (Some tab) w = (Ok (cp, p, tree), w1) →
  (∀ c, cp = Some c →
     coordinator_pid run = Some c ∧ c ≠ 0 ∧ c ∈ pids tab
     ∧ ∃ h owner, get_handle tab c = Some h ∧ user <$> header st = Some owner
         ∧ fst (this_is_really_our_pid h owner (fork_time run) time w) = Ok true)
  ∧ (∀ q, p = Some q →
     pid run = Some q ∧ q ≠ 0 ∧ q ∈ pids tab
     ∧ tree = list_to_set (children_of tab q)
     ∧ ∃ h owner w0, get_handle tab q = Some h ∧ user <$> header st = Some owner
         ∧ (w0 = w ∨ w0 = tick w)
         ∧ fst (this_is_really_our_pid h owner (start_time run) clock w0) = Ok true)
  ∧ (p = None → tree = ∅).
Proof.
  intros Hp Hl H. unfold scan_process, lookup_process, last_item in H.
  rewrite Hp in H. rewrite (bind_Ok (ret history) _ w history w eq_refl) in H.
  rewrite Hl in H. rewrite (bind_Ok (ret run) _ w run w eq_refl) in H.
  destruct (header st) as [hd |]; [| discriminate].
  rewrite (bind_Ok (ret (user hd)) _ w _ w eq_refl) in H.
  rewrite (bind_Ok (ret tab) _ w _ w eq_refl) in H.
  apply bind_Ok_inv in H as (cp' & wa & Hc & H). cbv zeta in H.
  apply bind_Ok_inv in H as ([p' tree'] & wb & Hq & H).
  unfold ret in H. injection H as -> -> -> ->.
  pose proof (coordinator_check_world _ _ _ _ _ _ _ _ Hc) as Hwa.
  split; [| split].
  - intros c ->. unfold if_truthy in Hc.
    destruct (coordinator_pid run) as [c0 |]; [| discriminate].
    destruct (c0 =? 0) eqn:Hz; [discriminate |]. apply Z.eqb_neq in Hz.
    destruct (bool_decide (c0 ∈ pids tab)) eqn:Hin; [| discriminate].
    apply bool_decide_eq_true in Hin. unfold handle_of in Hc.
    destruct (get_handle tab c0) as [h |] eqn:Hh; [| discriminate].
    rewrite (bind_Ok (ret h) _ w h w eq_refl) in Hc.
    apply bind_Ok_inv in Hc as (ours & w0 & Hours & Hc).
    destruct ours; [| discriminate]. injection Hc as -> ->.
    repeat split; [done | done |].
    exists h, (user hd). by rewrite Hours.
  - intros q ->. unfold if_truthy in Hq.
    destruct (pid run) as [q0 |]; [| discriminate].
    destruct (q0 =? 0) eqn:Hz; [discriminate |]. apply Z.eqb_neq in Hz.
    destruct (bool_decide (q0 ∈ pids tab)) eqn:Hin; [| discriminate].
    apply bool_decide_eq_true in Hin. unfold handle_of in Hq.
    destruct (get_handle tab q0) as [h |] eqn:Hh; [| discriminate].
    rewrite (bind_Ok (ret h) _ wa h wa eq_refl) in Hq.
    apply bind_Ok_inv in Hq as (ours & w0 & Hours & Hq).
    destruct ours; [| discriminate]. injection Hq as -> -> ->.
    repeat split; [done | done |].
    exists h, (user hd), wa. by rewrite Hours.
  - intros ->. unfold if_truthy in Hq.
    destruct (pid run) as [q0 |]; [| by injection Hq as -> ->].
    destruct (q0 =? 0); [by injection Hq as -> -> |].
    destruct (bool_decide (q0 ∈ pids tab)); [| by injection Hq as -> ->].
    unfold handle_of in Hq.
    destruct (get_handle tab q0) as [h |]; [| discriminate].
    rewrite (bind_Ok (ret h) _ wa h wa eq_refl) in Hq.
    apply bind_Ok_inv in Hq as (ours & w0 & Hours & Hq).
    destruct ours; [discriminate |]. by injection Hq as -> ->.
Qed.

Lemma _get_process_tuple_eq st name history run w :
  processes st !! name = Some history → last history = Some run →
  _get_process_tuple st name w =
    scan_process st name time (Some (env_ps (w_env w) (w_tick w)))
                 (tick (set_PS (env_ps (w_env w) (w_tick w)) w)).
Proof.
  intros Hp Hl. unfold _get_process_tuple.
  rewrite (has_history_true _ _ _ _ Hp Hl). reflexivity.
Qed.

(** ** Appending to the checkpoint *)

Lemma appends_nil f w w' : no_append w w' → appends f [] w w'.
Proof.
  intros H. split; [apply H |]. split.
  - rewrite app_nil_r. by apply no_append_records.
  - intros g _. by apply no_append_records.
Qed.

Lemma appends_trans f s1 s2 w w1 w2 :
  appends f s1 w w1 → appends f s2 w1 w2 → appends f (s1 ++ s2) w w2.
Proof.
  intros (He1 & Hr1 & Ho1) (He2 & Hr2 & Ho2). split; [congruence |]. split.
  - by rewrite Hr2, Hr1, app_assoc.
  - intros g Hg. by rewrite Ho2, Ho1.
Qed.

Lemma appends_appended f sfx w w' : appends f sfx w w' → appended w w' f = sfx.
Proof. intros (_ & Hr & _). unfold appended. rewrite Hr. apply drop_app_length. Qed.

Lemma ckpt_write_eq fd f rec w :
  w_fds w !! fd = Some f →
  ∃ w', ckpt_write fd rec w = (Ok tt, w') ∧ appends f [rec] w w'
        ∧ w_fds w' = w_fds w ∧ w_signals w' = w_signals w ∧ w_tick w' = w_tick w
        ∧ w_paths w' = w_paths w.
Proof.
  intros Hfd. unfold ckpt_write. rewrite Hfd. eexists. split; [reflexivity |].
  split; [| done]. split; [done |]. unfold records. cbn. split.
  - by rewrite lookup_insert_eq.
  - intros g Hg. by rewrite lookup_insert_ne.
Qed.

(** [write_task_state] raises what [int] raises, before anything is
    written; otherwise it appends one task status. *)
Lemma write_task_state_eq ckpt clock s f w :
  w_fds w !! ckpt = Some f →
  match py_int (clock w * 1000)%float with
  | Ok timestamp_ms =>
      ∃ w', write_task_state ckpt clock s w = (Ok tt, w')
            ∧ appends f [task_status (status_update w s timestamp_ms)] w w'
            ∧ w_fds w' = w_fds w ∧ w_paths w' = w_paths w
  | Raise e => write_task_state ckpt clock s w = (Raise e, tick w)
  end.
Proof.
  intros Hfd. unfold write_task_state.
  rewrite (bind_Ok (clock_time clock) _ w _ _ eq_refl).
  unfold bind at 1, lift. destruct (py_int _) as [ms | e]; [| reflexivity].
  rewrite (bind_Ok os_getpid _ (tick w) _ _ eq_refl).
  rewrite (bind_Ok os_getuid _ (tick w) _ _ eq_refl).
  destruct (ckpt_write_eq ckpt f (task_status (status_update w s ms)) (tick w) Hfd)
    as (w' & Hw & (He & Hr & Ho) & Hfds & _ & _ & Hpaths).
  exists w'. split; [exact Hw |].
  split; [split; [exact He | split; [exact Hr | exact Ho]] |].
  split; [exact Hfds | exact Hpaths].
Qed.

Lemma accounted_mono st clock turns turns' status :
  turns ⊆ turns' → accounted st clock turns status → accounted st clock turns' status.
Proof.
  intros Hsub [name history prev w w1 Hin Hp Hl Ht Hk
              | name history prev w w1 Hin Hp Hl Ht Hk Hw].
  - eapply accounted_killed; eauto.
  - eapply accounted_lost; eauto.
Qed.

(** One turn of the loop of [kill] appends at most one record, for the
    process at hand, and that record is accounted for by this turn. *)
Lemma kill_loop_body_appends ckpt clock st f name history w r w' :
  processes st !! name = Some history →
  w_fds w !! ckpt = Some f →
  kill_loop_body ckpt clock st (name, history) w = (r, w') →
  w_fds w' = w_fds w ∧ w_paths w' = w_paths w
  ∧ ∃ recs, appends f (map process_status recs) w w'
            ∧ Forall (accounted st clock [((name, history), w)]) recs
            ∧ sublist (map process recs) [name].
Proof.
  intros Hp Hfd H.
  assert (∀ r0, (r0, w) = (r, w') → w_fds w' = w_fds w ∧ w_paths w' = w_paths w
    ∧ ∃ recs, appends f (map process_status recs) w w'
              ∧ Forall (accounted st clock [((name, history), w)]) recs
              ∧ sublist (map process recs) [name]) as Hnone.
  { intros r0 [= _ <-]. split; [done |]. split; [done |]. exists [].
    split; [apply appends_nil; reflexivity |]. split; [constructor |].
    apply sublist_nil_l. }
  unfold kill_loop_body, last_item in H.
  destruct (last history) as [prev |] eqn:Hl; [| exact (Hnone _ H)].
  rewrite (bind_Ok (ret prev) _ w prev w eq_refl) in H.
  destruct (is_process_terminal (state prev)) eqn:Hterm; [exact (Hnone _ H) |].
  cbn [negb] in H.
  pose proof (kill_process_os st name w) as Hos.
  unfold bind at 1 in H.
  destruct (kill_process st name w) as [[killed | e] w1] eqn:Hk; cbn [snd] in Hos.
  2:{ injection H as <- <-. split; [apply Hos |]. split; [apply Hos |]. exists [].
      split; [apply appends_nil, os_step_no_append, Hos |].
      split; [constructor | apply sublist_nil_l]. }
  assert (w_fds w1 !! ckpt = Some f) as Hfd1.
  { destruct Hos as (_ & _ & _ & -> & _). exact Hfd. }
  assert ((name, history, w) ∈ [(name, history, w)]) as Hin by constructor.
  destruct killed.
  - rewrite (bind_Ok (clock_time clock) _ w1 _ _ eq_refl) in H.
    unfold write_process_status in H.
    destruct (ckpt_write_eq ckpt f
                (process_status (KILLED_status name prev (clock w1))) (tick w1) Hfd1)
      as (w2 & Hw & Ha & Hfds & _ & _ & Hpaths). cbn in Hpaths.
    unfold KILLED_status in Hw. rewrite Hw in H. injection H as <- <-.
    split; [rewrite Hfds; apply Hos |]. split; [rewrite Hpaths; apply Hos |].
    exists [KILLED_status name prev (clock w1)].
    split; [| split; [| reflexivity]].
    + change (map process_status [KILLED_status name prev (clock w1)])
        with ([] ++ [process_status (KILLED_status name prev (clock w1))]).
      eapply appends_trans; [| exact Ha].
      apply appends_nil. etrans; [apply os_step_no_append, Hos |].
      split; [reflexivity | intros g; by left].
    + constructor; [| constructor]. by eapply accounted_killed.
  - destruct (bool_decide (state prev = PS_WAITING)) eqn:Hwait; cbn [negb] in H.
    + injection H as <- <-. split; [apply Hos |]. split; [apply Hos |]. exists [].
      split; [apply appends_nil, os_step_no_append, Hos |].
      split; [constructor | apply sublist_nil_l].
    + apply bool_decide_eq_false in Hwait. unfold write_process_status in H.
      destruct (ckpt_write_eq ckpt f (process_status (LOST_status name prev)) w1 Hfd1)
        as (w2 & Hw & Ha & Hfds & _ & _ & Hpaths).
      unfold LOST_status in Hw. rewrite Hw in H. injection H as <- <-.
      split; [rewrite Hfds; apply Hos |]. split; [rewrite Hpaths; apply Hos |].
      exists [LOST_status name prev].
      split; [| split; [| reflexivity]].
      * change (map process_status [LOST_status name prev])
          with ([] ++ [process_status (LOST_status name prev)]).
        eapply appends_trans; [| exact Ha].
        apply appends_nil, os_step_no_append, Hos.
      * constructor; [| constructor]. by eapply accounted_lost.
Qed.

Lemma kill_loop_appends ckpt clock st f items :
  (∀ name history, (name, history) ∈ items → processes st !! name = Some history) →
  ∀ w r w',
    w_fds w !! ckpt = Some f →
    for_each items (kill_loop_body ckpt clock st) w = (r, w') →
    w_fds w' = w_fds w ∧ w_paths w' = w_paths w
    ∧ ∃ recs, appends f (map process_status recs) w w'
              ∧ Forall (accounted st clock
                          (visits items (kill_loop_body ckpt clock st) w)) recs
              ∧ sublist (map process recs) items.*1.
Proof.
  induction items as [| [name history] items IH]; intros Hitems w r w' Hfd H.
  - injection H as <- <-. split; [done |]. split; [done |]. exists [].
    split; [apply appends_nil; reflexivity |]. split; [constructor | constructor].
  - cbn [for_each] in H. cbn [visits].
    assert (processes st !! name = Some history) as Hp
        by (apply Hitems; constructor).
    apply bind_inv in H as [(? & w1 & Hbody & Hrest) | (e & Hbody & ->)].
    + destruct (kill_loop_body_appends _ _ _ _ _ _ _ _ _ Hp Hfd Hbody)
        as (Hfds1 & Hpaths1 & recs1 & Ha1 & Hacc1 & Hsub1).
      assert (w_fds w1 !! ckpt = Some f) as Hfd1 by (by rewrite Hfds1).
      destruct (IH (λ n h Hin, Hitems n h (list_elem_of_further _ _ _ Hin))
                   w1 r w' Hfd1 Hrest)
        as (Hfds2 & Hpaths2 & recs2 & Ha2 & Hacc2 & Hsub2).
      rewrite Hbody.
      split; [congruence |]. split; [congruence |]. exists (recs1 ++ recs2).
      split; [rewrite map_app; by eapply appends_trans |].
      split.
      * apply Forall_app. split.
        -- eapply Forall_impl; [exact Hacc1 |]. intros s0. apply accounted_mono.
           intros t Ht. apply list_elem_of_singleton in Ht as ->. constructor.
        -- eapply Forall_impl; [exact Hacc2 |]. intros s0. apply accounted_mono.
           intros t Ht. by constructor.
      * rewrite map_app.
        change (((name, history) :: items).*1) with ([name] ++ items.*1).
        by apply sublist_app.
    + destruct (kill_loop_body_appends _ _ _ _ _ _ _ _ _ Hp Hfd Hbody)
        as (Hfds1 & Hpaths1 & recs1 & Ha1 & Hacc1 & Hsub1).
      rewrite Hbody.
      split; [done |]. split; [done |]. exists recs1. split; [done |]. split; [done |].
      etrans; [exact Hsub1 |]. cbn. apply sublist_skip, sublist_nil_l.
Qed.

(** The items of the turns of a loop are items of the list it runs over,
    in the same order. *)
Lemma visits_sublist {A} (l : list A) (body : A → M unit) w :
  (visits l body w).*1 `sublist_of` l.
Proof.
  revert w. induction l as [| x l IH]; intros w; [done |]. cbn [visits].
  destruct (body x w) as [[[] | e] w1]; cbn.
  - apply sublist_skip, IH.
  - apply sublist_skip, sublist_nil_l.
Qed.

(** The turns are those of the loop: the first one starts where the loop
    starts, each next one where the body of the previous one returned, and
    a loop that returns has gone through every item. *)
Lemma visits_chain {A} (l : list A) (body : A → M unit) w t1 x wx y wy t2 :
  visits l body w = t1 ++ (x, wx) :: (y, wy) :: t2 → body x wx = (Ok tt, wy).
Proof.
  revert w t1. induction l as [| z l IH]; intros w t1 H; cbn [visits] in H.
  - by destruct t1.
  - destruct (body z w) as [[[] | e] w1] eqn:Hz.
    + destruct t1 as [| t t1]; cbn in H.
      * injection H as -> -> H. rewrite Hz. destruct l as [| z' l]; [done |].
        cbn [visits] in H. by injection H as _ ->.
      * injection H as _ H. by eapply IH.
    + destruct t1 as [| t [| t' t1]]; discriminate.
Qed.

Lemma visits_for_each {A} (l : list A) (body : A → M unit) w w' :
  for_each l body w = (Ok tt, w') → (visits l body w).*1 = l.
Proof.
  revert w. induction l as [| x l IH]; intros w H; [done |].
  cbn [for_each] in H. apply bind_Ok_inv in H as ([] & w1 & Hx & Hrest).
  cbn [visits]. rewrite Hx. cbn. f_equal. by eapply IH.
Qed.

Lemma lock_file_fp f blocking w fd w' :
  lock_file f blocking w = (Ok (LF_fp fd), w') → w_fds w' !! fd = Some f.
Proof.
  unfold lock_file. destruct (env_lock _ _ _ _); intros [= <- <-].
  cbn. apply lookup_insert_eq.
Qed.

(** A writer returned by [open_checkpoint] is an open file bound to the
    checkpoint. *)
Lemma open_checkpoint_fd f force state w fd w' :
  open_checkpoint f force state w = (Ok fd, w') → w_fds w' !! fd = Some f.
Proof.
  intros H. unfold open_checkpoint in H.
  rewrite (bind_Ok (safe_mkdir _) _ w tt _ eq_refl) in H.
  apply bind_Ok_inv in H as (fp & wa & Hlf & H).
  apply bind_Ok_inv in H as (fp2 & wb & Hfp2 & H).
  destruct fp2 as [| | fd2]; [discriminate | discriminate |].
  injection H as -> ->.
  destruct (in_None_False fp) eqn:Hin.
  - destruct force.
    + apply bind_Ok_inv in Hfp2 as (state' & wc & _ & Hfp2).
      apply bind_Ok_inv in Hfp2 as (killed & wd & _ & Hfp2).
      destruct killed.
      * by eapply lock_file_fp.
      * injection Hfp2 as -> ->. discriminate.
    + injection Hfp2 as -> ->. discriminate.
  - injection Hfp2 as -> ->. by eapply lock_file_fp.
Qed.

Lemma appends_no_append f sfx w w1 w2 :
  appends f sfx w w1 → no_append w1 w2 → appends f sfx w w2.
Proof.
  intros H1 H2. rewrite <- (app_nil_r sfx).
  eapply appends_trans; [exact H1 | by apply appends_nil].
Qed.

Lemma no_append_appends f sfx w w1 w2 :
  no_append w w1 → appends f sfx w1 w2 → appends f sfx w w2.
Proof.
  intros H1 H2. change sfx with ([] ++ sfx).
  eapply appends_trans; [by apply appends_nil | exact H2].
Qed.

Lemma kill_from_file task_id root force term clock w :
  term ∈ [TS_KILLED; TS_LOST] →
  let spec := env_TaskPath (w_env w) root task_id in
  let f := runner_checkpoint spec in
  kill task_id root force term clock w =
    bind (open_checkpoint f force (replayed w f))
      (λ ckpt,
        match replayed w f with
        | None => ret tt
        | Some st =>
            match header st, statuses st with
            | Some _, Some sts =>
                latest ← last_item sts;
                if is_task_terminal (ts_state latest) then finalize_task spec
                else closing ckpt (kill_body ckpt clock st term);; finalize_task spec
            | _, _ => ret tt
            end
        end) w.
Proof.
  intros Hin spec f. unfold kill. rewrite (bool_decide_eq_true_2 _ Hin).
  rewrite (bind_Ok (assert true) _ w tt w eq_refl).
  rewrite (bind_Ok (TaskPath_of root task_id) _ w _ w eq_refl). fold spec f.
  rewrite (bind_Ok (from_file f) _ w _ w eq_refl). reflexivity.
Qed.

(** On a task that is not terminal, [kill] runs its body under
    [closing] and then finalizes. *)
Lemma kill_active_eq task_id root force term clock w st hd sts latest :
  let spec := env_TaskPath (w_env w) root task_id in
  let f := runner_checkpoint spec in
  replayed w f = Some st →
  header st = Some hd → statuses st = Some sts → last sts = Some latest →
  is_task_terminal (ts_state latest) = false →
  term ∈ [TS_KILLED; TS_LOST] →
  kill task_id root force term clock w =
    match open_checkpoint f force (Some st) w with
    | (Ok ckpt, w1) =>
        bind (closing ckpt (kill_body ckpt clock st term)) (λ _, finalize_task spec) w1
    | (Raise e, w1) => (Raise e, w1)
    end.
Proof.
  intros spec f Hst Hh Hs Hl Hterm Hin.
  rewrite (kill_from_file task_id root force term clock w Hin). fold spec f.
  rewrite Hst, Hh, Hs. unfold bind at 1.
  destruct (open_checkpoint f force (Some st) w) as [[ckpt | e] w1]; [| reflexivity].
  unfold last_item. rewrite Hl.
  rewrite (bind_Ok (ret latest) _ w1 latest w1 eq_refl). by rewrite Hterm.
Qed.

Lemma kill_turns_eq task_id root force term clock w st hd sts latest ckpt w1 :
  let f := runner_checkpoint (env_TaskPath (w_env w) root task_id) in
  replayed w f = Some st →
  header st = Some hd → statuses st = Some sts → last sts = Some latest →
  is_task_terminal (ts_state latest) = false →
  term ∈ [TS_KILLED; TS_LOST] →
  open_checkpoint f force (Some st) w = (Ok ckpt, w1) →
  kill_turns task_id root force term clock w
  = match write_task_state ckpt clock TS_ACTIVE w1 with
    | (Ok _, wa) =>
        visits (map_to_list (processes st)) (kill_loop_body ckpt clock st) wa
    | (Raise _, _) => []
    end.
Proof.
  intros f Hst Hh Hs Hl Hterm Hin Ho. unfold kill_turns. fold f.
  rewrite (bool_decide_eq_true_2 _ Hin). cbn [negb].
  rewrite Hst, Ho, Hh, Hs, Hl, Hterm. reflexivity.
Qed.

(** No process has two turns in a run of [kill]. *)
Lemma kill_turns_NoDup task_id root force term clock w :
  NoDup (kill_turns task_id root force term clock w).*1.*1.
Proof.
  unfold kill_turns.
  repeat first [apply NoDup_nil_2 | case_match];
    (eapply sublist_NoDup;
       [| apply fmap_sublist, visits_sublist];
     apply NoDup_fst_map_to_list).
Qed.

(** What [kill] runs under [closing], from a world where the writer is
    open: the task statuses around the process records of the loop, each
    accounted for by its turn, at most one per process; no path is
    touched; the terminal status is written only when the body returns. *)
Lemma kill_body_run ckpt clock st term f w1 :
  w_fds w1 !! ckpt = Some f →
  ∃ tss1 recs tss2,
    appends f (map task_status tss1 ++ map process_status recs ++ map task_status tss2)
            w1 (snd (kill_body ckpt clock st term w1))
    ∧ w_paths (snd (kill_body ckpt clock st term w1)) = w_paths w1
    ∧ Forall (accounted st clock
                (match write_task_state ckpt clock TS_ACTIVE w1 with
                 | (Ok _, wa) =>
                     visits (map_to_list (processes st)) (kill_loop_body ckpt clock st) wa
                 | (Raise _, _) => []
                 end)) recs
    ∧ NoDup (map process recs)
    ∧ Forall (λ ts, ts_state ts = TS_ACTIVE) tss1
    ∧ match fst (kill_body ckpt clock st term w1) with
      | Ok _ =>
          ∃ ms1 ms2 wa wb,
            py_int (clock w1 * 1000)%float = Ok ms1
            ∧ write_task_state ckpt clock TS_ACTIVE w1 = (Ok tt, wa)
            ∧ for_each (map_to_list (processes st)) (kill_loop_body ckpt clock st) wa
              = (Ok tt, wb)
            ∧ py_int (clock wb * 1000)%float = Ok ms2
            ∧ tss1 = [status_update w1 TS_ACTIVE ms1]
            ∧ tss2 = [status_update w1 term ms2]
      | Raise _ => tss2 = []
      end.
Proof.
  intros Hfd. unfold kill_body.
  pose proof (write_task_state_eq ckpt clock TS_ACTIVE f w1 Hfd) as H1.
  destruct (py_int (clock w1 * 1000)%float) as [ms1 | e1] eqn:Hms1.
  2:{ rewrite (bind_Raise _ _ _ _ _ H1), H1. cbn [fst snd]. exists [], [], [].
      split; [apply appends_nil; split; [reflexivity | intros g; by left] |].
      repeat split; constructor. }
  destruct H1 as (wa & Hw1 & Ha1 & Hfds1 & Hp1).
  rewrite (bind_Ok _ _ _ _ _ Hw1), Hw1.
  assert (w_fds wa !! ckpt = Some f) as Hfda by (by rewrite Hfds1).
  destruct (for_each (map_to_list (processes st)) (kill_loop_body ckpt clock st) wa)
    as [rl wb] eqn:Hloop.
  destruct (kill_loop_appends ckpt clock st f (map_to_list (processes st))
              (λ n h Hin, proj1 (elem_of_map_to_list _ n h) Hin) wa rl wb Hfda Hloop)
    as (Hfds2 & Hp2 & recs & Ha2 & Hacc & Hsub).
  assert (NoDup (map process recs)) as Hnd.
  { eapply sublist_NoDup; [| exact Hsub]. apply NoDup_fst_map_to_list. }
  assert (w_fds wb !! ckpt = Some f) as Hfdb by (by rewrite Hfds2).
  assert (w_env wb = w_env w1) as Hen.
  { transitivity (w_env wa); [apply Ha2 | apply Ha1]. }
  destruct rl as [[] | e];
    [rewrite (bind_Ok _ _ _ _ _ Hloop) | rewrite (bind_Raise _ _ _ _ _ Hloop)].
  - pose proof (write_task_state_eq ckpt clock term f wb Hfdb) as H2.
    destruct (py_int (clock wb * 1000)%float) as [ms2 | e2] eqn:Hms2.
    + destruct H2 as (wc & Hw2 & Ha3 & _ & Hp3). rewrite Hw2. cbn [fst snd].
      exists [status_update w1 TS_ACTIVE ms1], recs, [status_update w1 term ms2].
      split.
      { eapply appends_trans; [exact Ha1 |]. eapply appends_trans; [exact Ha2 |].
        unfold status_update in *. rewrite <- Hen. exact Ha3. }
      split; [by rewrite Hp3, Hp2 |]. split; [exact Hacc |]. split; [exact Hnd |].
      split; [by repeat constructor |]. by exists ms1, ms2, wa, wb.
    + rewrite H2. cbn [fst snd].
      exists [status_update w1 TS_ACTIVE ms1], recs, [].
      split.
      { eapply appends_trans; [exact Ha1 |]. cbn [map]. rewrite app_nil_r.
        eapply appends_no_append; [exact Ha2 |].
        split; [reflexivity | intros g; by left]. }
      split; [cbn; by rewrite Hp2 |]. split; [exact Hacc |]. split; [exact Hnd |].
      split; [by repeat constructor | reflexivity].
  - cbn [fst snd]. exists [status_update w1 TS_ACTIVE ms1], recs, [].
    split.
    { eapply appends_trans; [exact Ha1 |]. cbn [map]. rewrite app_nil_r. exact Ha2. }
    split; [by rewrite Hp2 |]. split; [exact Hacc |]. split; [exact Hnd |].
    split; [by repeat constructor | reflexivity].
Qed.

(** What [kill] appends to the checkpoint, whatever way it ends: task
    statuses around the process records of the loop, each accounted for by
    its turn in this run, at most one per process; no other checkpoint
    receives a record. *)
Lemma kill_appended task_id root force term clock w st :
  let f := runner_checkpoint (env_TaskPath (w_env w) root task_id) in
  replayed w f = Some st →
  ∃ tss1 recs tss2,
    appends f (map task_status tss1 ++ map process_status recs ++ map task_status tss2)
            w (snd (kill task_id root force term clock w))
    ∧ Forall (accounted st clock (kill_turns task_id root force term clock w)) recs
    ∧ NoDup (map process recs).
Proof.
  intros f Hst.
  assert (∀ w', no_append w w' →
    ∃ tss1 recs tss2,
      appends f (map task_status tss1 ++ map process_status recs ++ map task_status tss2)
              w w'
      ∧ Forall (accounted st clock (kill_turns task_id root force term clock w)) recs
      ∧ NoDup (map process recs)) as Hnone.
  { intros w' Hna. exists [], [], []. split; [by apply appends_nil |].
    split; constructor. }
  destruct (decide (term ∈ [TS_KILLED; TS_LOST])) as [Hin | Hin].
  2:{ unfold kill. rewrite (bool_decide_eq_false_2 _ Hin). apply Hnone. reflexivity. }
  pose proof (open_checkpoint_no_append f force (Some st) w) as Hopen.
  destruct (header st) as [hd |] eqn:Hh.
  2:{ rewrite (kill_from_file task_id root force term clock w Hin). fold f.
      rewrite Hst, Hh. unfold bind at 1.
      destruct (open_checkpoint f force (Some st) w) as [[ckpt | e] w1];
        by apply Hnone. }
  destruct (statuses st) as [sts |] eqn:Hs.
  2:{ rewrite (kill_from_file task_id root force term clock w Hin). fold f.
      rewrite Hst, Hh, Hs. unfold bind at 1.
      destruct (open_checkpoint f force (Some st) w) as [[ckpt | e] w1];
        by apply Hnone. }
  destruct (last sts) as [latest |] eqn:Hl.
  2:{ rewrite (kill_from_file task_id root force term clock w Hin). fold f.
      rewrite Hst, Hh, Hs. unfold bind at 1, last_item.
      destruct (open_checkpoint f force (Some st) w) as [[ckpt | e] w1];
        [rewrite Hl |]; by apply Hnone. }
  destruct (is_task_terminal (ts_state latest)) eqn:Hterm.
  { rewrite (kill_from_file task_id root force term clock w Hin). fold f.
    rewrite Hst, Hh, Hs. unfold bind at 1, last_item.
    destruct (open_checkpoint f force (Some st) w) as [[ckpt | e] w1];
      cbn [snd] in Hopen; [| by apply Hnone].
    rewrite Hl, (bind_Ok (ret latest) _ w1 latest w1 eq_refl), Hterm.
    apply Hnone. etrans; [exact Hopen |].
    apply fs_step_no_append, finalize_task_fs. }
  (* the main path *)
  rewrite (kill_active_eq task_id root force term clock w st hd sts latest
             Hst Hh Hs Hl Hterm Hin). fold f.
  destruct (open_checkpoint f force (Some st) w) as [[ckpt | e] w1] eqn:Ho;
    cbn [snd] in Hopen; [| by apply Hnone].
  pose proof (open_checkpoint_fd _ _ _ _ _ _ Ho) as Hfd.
  rewrite (kill_turns_eq task_id root force term clock w st hd sts latest ckpt w1
             Hst Hh Hs Hl Hterm Hin Ho).
  destruct (kill_body_run ckpt clock st term f w1 Hfd)
    as (tss1 & recs & tss2 & Ha & _ & Hacc & Hnd & _).
  exists tss1, recs, tss2. split; [| done].
  eapply no_append_appends; [exact Hopen |].
  eapply appends_no_append; [exact Ha |].
  unfold bind at 1, closing.
  destruct (kill_body ckpt clock st term w1) as [[[] | e] w5]; cbn [snd].
  - etrans; [apply (ckpt_close_no_append ckpt w5) |].
    apply fs_step_no_append, finalize_task_fs.
  - apply (ckpt_close_no_append ckpt w5).
Qed.

Lemma process_records_shape tss1 recs tss2 :
  process_records (map task_status tss1 ++ map process_status recs ++ map task_status tss2)
  = recs.
Proof.
  unfold process_records. rewrite !omap_app.
  assert (∀ l, omap (λ r, match r with
                          | process_status s => Some s
                          | task_status _ => None
                          end) (map task_status l) = []) as Hts
      by (induction l; [done | done]).
  rewrite !Hts, app_nil_r. cbn. induction recs as [| r recs IH]; [done |].
  cbn. by rewrite IH.
Qed.

Lemma elem_of_process_records s l :
  process_status s ∈ l ↔ s ∈ process_records l.
Proof.
  unfold process_records. rewrite list_elem_of_omap. split.
  - intros H. exists (process_status s). done.
  - intros ([ts | s'] & Hin & Heq); [done |]. by injection Heq as ->.
Qed.

(** The process records [kill] appends are accounted for by the turns of
    its loop, and no process receives two of them. *)
Lemma kill_process_records task_id root force term clock w st :
  let f := runner_checkpoint (env_TaskPath (w_env w) root task_id) in
  let w' := snd (kill task_id root force term clock w) in
  replayed w f = Some st →
  Forall (accounted st clock (kill_turns task_id root force term clock w))
         (process_records (appended w w' f))
  ∧ NoDup (map process (process_records (appended w w' f)))
  ∧ ∀ g, g ≠ f → records w' g = records w g.
Proof.
  intros f w' Hst.
  destruct (kill_appended task_id root force term clock w st Hst)
    as (tss1 & recs & tss2 & Ha & Hacc & Hnd).
  fold f in Ha. fold w' in Ha.
  rewrite (appends_appended _ _ _ _ Ha), process_records_shape.
  split; [done |]. split; [done |]. apply Ha.
Qed.

Lemma kill_process_false st name history run w w1 :
  processes st !! name = Some history → last history = Some run →
  kill_process st name w = (Ok false, w1) →
  ∃ coordinator_pid0 pid0 w0,
    _get_process_tuple st name w = (Ok (coordinator_pid0, pid0, ∅), w0)
    ∧ truthy coordinator_pid0 = false ∧ truthy pid0 = false.
Proof.
  intros Hp Hl H. rewrite (kill_process_eq _ _ _ _ _ Hp Hl) in H.
  destruct (_get_process_tuple st name w) as [[[[cp p] tree] | e] w0]; [| discriminate].
  injection H as Hb _.
  apply orb_false_iff in Hb as [Hb Ht]. apply orb_false_iff in Hb as [Hc Hq].
  apply negb_false_iff, bool_decide_eq_true in Ht. subst tree. by exists cp, p, w0.
Qed.

(** ** Records appended by [kill] (C4, C5, C6) *)

(** C4: a LOST record appended by [kill] belongs to a process that had a
    turn in the loop of this very run, whose latest record in the replayed
    state was neither terminal nor WAITING, and for which [kill_process],
    called in the world of that turn, answered [False] because its scan
    found nothing live (no confirmed coordinator, no confirmed pid, no
    descendant); no process has two turns.  Hence a process whose latest
    status is WAITING never receives a LOST record. *)
Theorem kill_never_loses_waiting :
  ∀ (task_id root : string) (force : bool) (term : TaskState) (clock : Clock)
    (w : World) (st : RunnerState),
    let f := runner_checkpoint (env_TaskPath (w_env w) root task_id) in
    let w' := snd (kill task_id root force term clock w) in
    replayed w f = Some st →
    (∀ status, process_status status ∈ appended w w' f → state status = PS_LOST →
       ∃ history prev w1 w2,
         ((process status, history), w1) ∈ kill_turns task_id root force term clock w
         ∧ processes st !! process status = Some history
         ∧ last history = Some prev
         ∧ state prev ≠ PS_WAITING
         ∧ is_process_terminal (state prev) = false
         ∧ kill_process st (process status) w1 = (Ok false, w2)
         ∧ ∃ coordinator_pid0 pid0 w0,
             _get_process_tuple st (process status) w1
               = (Ok (coordinator_pid0, pid0, ∅), w0)
             ∧ truthy coordinator_pid0 = false ∧ truthy pid0 = false)
    ∧ NoDup (kill_turns task_id root force term clock w).*1.*1
    ∧ (∀ name history prev,
         processes st !! name = Some history → last history = Some prev →
         state prev = PS_WAITING →
         ∀ status, process_status status ∈ appended w w' f →
                   process status = name → state status ≠ PS_LOST).
Proof.
  intros task_id root force term clock w st f w' Hst.
  destruct (kill_process_records task_id root force term clock w st Hst)
    as (Hacc & _ & _). fold f w' in Hacc. rewrite Forall_forall in Hacc.
  assert (∀ status, process_status status ∈ appended w w' f → state status = PS_LOST →
       ∃ history prev w1 w2,
         ((process status, history), w1) ∈ kill_turns task_id root force term clock w
         ∧ processes st !! process status = Some history
         ∧ last history = Some prev
         ∧ state prev ≠ PS_WAITING
         ∧ is_process_terminal (state prev) = false
         ∧ kill_process st (process status) w1 = (Ok false, w2)) as Hlost.
  { intros status Hin Hs. apply elem_of_process_records, Hacc in Hin.
    destruct Hin as [name history prev w1 w2 Hturn Hp Hl Ht Hk
                    | name history prev w1 w2 Hturn Hp Hl Ht Hk Hw]; [discriminate |].
    exists history, prev, w1, w2. done. }
  split; [| split].
  - intros status Hin Hs.
    destruct (Hlost status Hin Hs)
      as (history & prev & w1 & w2 & Hturn & Hp & Hl & Hw & Ht & Hk).
    exists history, prev, w1, w2. repeat (split; [done |]).
    by eapply kill_process_false.
  - apply kill_turns_NoDup.
  - intros name history prev Hp Hl Hwait status Hin <- Hs.
    destruct (Hlost status Hin Hs)
      as (history' & prev' & _ & _ & _ & Hp' & Hl' & Hw & _).
    congruence.
Qed.

(** C5: every process record appended by [kill] carries the [seq] of the
    latest record of its process in the replayed state plus one, and no
    process receives more than one record, so [seq] stays strictly
    increasing within each history. *)
Theorem kill_seq_monotonic :
  ∀ (task_id root : string) (force : bool) (term : TaskState) (clock : Clock)
    (w : World) (st : RunnerState),
    let f := runner_checkpoint (env_TaskPath (w_env w) root task_id) in
    let w' := snd (kill task_id root force term clock w) in
    replayed w f = Some st →
    (∀ status, process_status status ∈ appended w w' f →
       (state status = PS_KILLED ∨ state status = PS_LOST)
       ∧ ∃ history prev,
           processes st !! process status = Some history
           ∧ last history = Some prev
           ∧ seq status = seq prev + 1
           ∧ seq prev < seq status)
    ∧ NoDup (map process (process_records (appended w w' f))).
Proof.
  intros task_id root force term clock w st f w' Hst.
  destruct (kill_process_records task_id root force term clock w st Hst)
    as (Hacc & Hnd & _). fold f w' in Hacc, Hnd. rewrite Forall_forall in Hacc.
  split; [| exact Hnd].
  intros status Hin. apply elem_of_process_records, Hacc in Hin.
  destruct Hin as [name history prev w1 w2 Hturn Hp Hl Ht Hk
                  | name history prev w1 w2 Hturn Hp Hl Ht Hk Hw].
  - split; [by left |]. exists history, prev. cbn. repeat split; [done | done | lia].
  - split; [by right |]. exists history, prev. cbn. repeat split; [done | done | lia].
Qed.

(** C6: when the scan of [kill_process] finds live state, SIGKILL goes, in
    this order, to the process group of the recorded coordinator (exactly
    when the latest record has a coordinator pid, confirmed live or not),
    to the confirmed coordinator pid, to the confirmed main pid, and to
    each descendant; what was confirmed was recorded and is in the process
    table; and the record [kill] then appends is KILLED with return code
    -9, the previous [seq] plus one and [clock.time()] as stop time. *)
Theorem kill_process_dispatch :
  ∀ (st : RunnerState) (name : string) (history : list ProcessStatus)
    (run : ProcessStatus) (w : World)
    (coordinator_pid0 pid0 : option Z) (tree : gset Z) (w1 : World)
    (ckpt : nat) (clock : Clock) (f : string),
    processes st !! name = Some history → last history = Some run →
    _get_process_tuple st name w = (Ok (coordinator_pid0, pid0, tree), w1) →
    truthy coordinator_pid0 || truthy pid0 || negb (bool_decide (tree = ∅)) = true →
    let tab := env_ps (w_env w) (w_tick w) in
    let wk := signalled (kill_signals (coordinator_pid run) coordinator_pid0 pid0 tree) w1 in
    kill_process st name w = (Ok true, wk)
    ∧ w_signals wk
      = w_signals w
        ++ if_truthy (coordinator_pid run) (λ g, [(- g, SIGKILL)]) []
        ++ if_truthy coordinator_pid0 (λ c, [(c, SIGKILL)]) []
        ++ if_truthy pid0 (λ p, [(p, SIGKILL)]) []
        ++ map (λ child, (child, SIGKILL)) (elements tree)
    ∧ (∀ c, coordinator_pid0 = Some c → coordinator_pid run = Some c ∧ c ∈ pids tab)
    ∧ (∀ p, pid0 = Some p →
         pid run = Some p ∧ p ∈ pids tab ∧ tree = list_to_set (children_of tab p))
    ∧ (pid0 = None → tree = ∅)
    ∧ (is_process_terminal (state run) = false → w_fds w !! ckpt = Some f →
       ∃ w', kill_loop_body ckpt clock st (name, history) w = (Ok tt, w')
             ∧ appended w w' f
               = [process_status
                    (mkProcessStatus name (seq run + 1) PS_KILLED None None None None
                       (Some (-9)) (Some (clock wk)))]
             ∧ w_signals w' = w_signals wk).
Proof.
  intros st name history run w cp p tree w1 ckpt clock f Hp Hl Hscan Hlive tab wk.
  assert (kill_process st name w = (Ok true, wk)) as Hk.
  { rewrite (kill_process_eq _ _ _ _ _ Hp Hl), Hscan, Hlive. reflexivity. }
  pose proof (_get_process_tuple_scan st name w) as [Hos Hsig].
  rewrite Hscan in Hos, Hsig. cbn [snd] in Hos, Hsig.
  rewrite (_get_process_tuple_eq _ _ _ _ _ Hp Hl) in Hscan.
  destruct (scan_process_sound _ _ _ _ _ _ _ _ _ _ _ Hp Hl Hscan) as (Hc & Hq & Hn).
  split; [exact Hk |]. split.
  { subst wk. rewrite signalled_signals, Hsig. reflexivity. }
  split; [intros c Hcp; destruct (Hc c Hcp) as (? & _ & ? & _); done |].
  split; [intros q Hpq; destruct (Hq q Hpq) as (? & _ & ? & ? & _); done |].
  split; [exact Hn |].
  intros Hterm Hfd.
  pose proof (kill_process_os st name w) as Hkos. rewrite Hk in Hkos. cbn [snd] in Hkos.
  assert (w_fds (tick wk) !! ckpt = Some f) as Hfdk.
  { cbn. destruct Hkos as (_ & _ & _ & -> & _). exact Hfd. }
  destruct (ckpt_write_eq ckpt f
              (process_status (KILLED_status name run (clock wk))) (tick wk) Hfdk)
    as (w' & Hw & Ha & _ & Hsig' & _).
  exists w'. split; [| split].
  - unfold kill_loop_body, last_item. rewrite Hl.
    rewrite (bind_Ok (ret run) _ w run w eq_refl). rewrite Hterm. cbn [negb].
    rewrite (bind_Ok _ _ _ _ _ Hk).
    rewrite (bind_Ok (clock_time clock) _ wk _ _ eq_refl). exact Hw.
  - apply appends_appended.
    eapply no_append_appends; [| exact Ha].
    etrans; [apply os_step_no_append, Hkos |].
    split; [reflexivity | intros g; by left].
  - exact Hsig'.
Qed.

(** ** Killing an already terminal task (C1, C2) *)

(** On a task whose latest status is terminal, [kill] takes the lock and
    goes straight to [finalize_task]. *)
Lemma kill_terminal_eq task_id root force term clock w st hd sts latest :
  let spec := env_TaskPath (w_env w) root task_id in
  replayed w (runner_checkpoint spec) = Some st →
  header st = Some hd → statuses st = Some sts → last sts = Some latest →
  is_task_terminal (ts_state latest) = true →
  term ∈ [TS_KILLED; TS_LOST] →
  kill task_id root force term clock w =
    match open_checkpoint (runner_checkpoint spec) force (Some st) w with
    | (Ok _, w1) => finalize_task spec w1
    | (Raise e, w1) => (Raise e, w1)
    end.
Proof.
  intros spec Hst Hh Hs Hl Hterm Hin. unfold kill.
  rewrite (bool_decide_eq_true_2 _ Hin).
  rewrite (bind_Ok (assert true) _ w tt w eq_refl).
  rewrite (bind_Ok (TaskPath_of root task_id) _ w _ w eq_refl). fold spec.
  rewrite (bind_Ok (from_file (runner_checkpoint spec)) _ w _ w eq_refl).
  change (match w_ckpt w !! runner_checkpoint spec with
          | Some recs => env_replay (w_env w) recs
          | None => None
          end) with (replayed w (runner_checkpoint spec)). rewrite Hst.
  unfold bind at 1.
  destruct (open_checkpoint (runner_checkpoint spec) force (Some st) w)
    as [[ckpt | e] w1]; [| reflexivity].
  rewrite Hh, Hs. unfold last_item. rewrite Hl.
  rewrite (bind_Ok (ret latest) _ w1 latest w1 eq_refl). by rewrite Hterm.
Qed.

Lemma open_checkpoint_granted f force state w :
  env_lock (w_env w) (w_tick w) f false = Granted →
  ∃ w', open_checkpoint f force state w = (Ok (w_next_fd w), w')
        ∧ w_fds w' = <[w_next_fd w := f]> (w_fds w)
        ∧ w_paths w' = {[dirname f]} ∪ w_paths w
        ∧ w_signals w' = w_signals w.
Proof.
  intros Hg. unfold open_checkpoint.
  rewrite (bind_Ok (safe_mkdir _) _ w tt _ eq_refl).
  destruct (lock_file_granted f false (set_paths (λ s, {[dirname f]} ∪ s) w) Hg)
    as (w' & Hlf & Hfds & _ & _ & Hsig & Hpaths).
  exists w'. rewrite (bind_Ok _ _ _ _ _ Hlf). cbn [in_None_False].
  rewrite (bind_Ok (ret _) _ w' _ w' eq_refl). done.
Qed.

(** C1 (amended): on a task whose latest status is already terminal,
    [kill] appends no record to any checkpoint, on a first call and on a
    second call in succession.  The first call succeeds and finalizes the
    task when the lock is free, the active marker exists and the finished
    marker does not (and is not the directory of the checkpoint, which
    [open_checkpoint] creates).  After a first call that succeeded, a second call
    does not succeed: as soon as it gets the lock, [finalize_task] fails
    its assertion because the finished marker now exists. *)
Theorem kill_terminal_twice :
  ∀ (task_id root : string) (force : bool) (term : TaskState) (clock : Clock)
    (w : World) (st : RunnerState) (hd : RunnerHeader) (sts : list TaskStatus)
    (latest : TaskStatus),
    let spec := env_TaskPath (w_env w) root task_id in
    let f := runner_checkpoint spec in
    let first := kill task_id root force term clock w in
    let second := kill task_id root force term clock (snd first) in
    replayed w f = Some st →
    header st = Some hd → statuses st = Some sts → last sts = Some latest →
    is_task_terminal (ts_state latest) = true →
    term ∈ [TS_KILLED; TS_LOST] →
    (∀ g, records (snd first) g = records w g ∧ records (snd second) g = records w g)
    ∧ (env_lock (w_env w) (w_tick w) f false = Granted →
       active_task_path spec ∈ w_paths w → finished_task_path spec ∉ w_paths w →
       finished_task_path spec ≠ dirname f →
       fst first = Ok tt
       ∧ finished_task_path spec ∈ w_paths (snd first)
       ∧ active_task_path spec ∉ w_paths (snd first))
    ∧ (fst first = Ok tt → fst second ≠ Ok tt)
    ∧ (fst first = Ok tt →
       env_lock (w_env w) (w_tick (snd first)) f false = Granted →
       fst second = Raise AssertionError).
Proof.
  intros task_id root force term clock w st hd sts latest spec f first second
    Hst Hh Hs Hl Hterm Hin.
  pose proof (kill_terminal_eq task_id root force term clock w st hd sts latest
                Hst Hh Hs Hl Hterm Hin) as Hfirst.
  fold spec f first in Hfirst.
  pose proof (open_checkpoint_no_append f force (Some st) w) as Hopen.
  pose proof (open_checkpoint_grow f force (Some st) w) as Hgrow.
  assert (no_append w (snd first)) as Hna1.
  { rewrite Hfirst. destruct (open_checkpoint f force (Some st) w) as [[ckpt | e] wa];
      cbn [snd] in *; [| exact Hopen].
    etrans; [exact Hopen | apply fs_step_no_append, finalize_task_fs]. }
  assert (w_env (snd first) = w_env w) as Henv by apply Hna1.
  assert (env_TaskPath (w_env (snd first)) root task_id = spec) as Hspec
      by (by rewrite Henv).
  assert (replayed (snd first) f = Some st) as Hst1 by (by eapply no_append_replayed).
  pose proof (kill_terminal_eq task_id root force term clock (snd first) st hd sts latest)
    as Hsecond.
  cbv zeta in Hsecond. rewrite Hspec in Hsecond. fold f in Hsecond.
  specialize (Hsecond Hst1 Hh Hs Hl Hterm Hin). fold second in Hsecond.
  pose proof (open_checkpoint_no_append f force (Some st) (snd first)) as Hopen2.
  pose proof (open_checkpoint_grow f force (Some st) (snd first)) as Hgrow2.
  assert (no_append (snd first) (snd second)) as Hna2.
  { rewrite Hsecond.
    destruct (open_checkpoint f force (Some st) (snd first)) as [[ckpt | e] wa];
      cbn [snd] in *; [| exact Hopen2].
    etrans; [exact Hopen2 | apply fs_step_no_append, finalize_task_fs]. }
  assert (fst first = Ok tt → finished_task_path spec ∈ w_paths (snd first)) as Hfin.
  { rewrite Hfirst.
    destruct (open_checkpoint f force (Some st) w) as [[ckpt | e] wa]; [| discriminate].
    destruct (finalize_task spec wa) as [[[] | e] wb] eqn:Hf; [| discriminate].
    intros _. by apply finalize_task_Ok_inv in Hf as (_ & _ & ? & _). }
  split; [| split; [| split]].
  - intros g. split; [by apply no_append_records |].
    apply no_append_records. by etrans.
  - intros Hg Ha Hf Hdir. rewrite Hfirst.
    destruct (open_checkpoint_granted f force (Some st) w Hg)
      as (wa & Ho & _ & Hpaths & _). rewrite Ho.
    assert (active_task_path spec ∈ w_paths wa) as Ha'
        by (rewrite Hpaths; apply elem_of_union_r, Ha).
    assert (finished_task_path spec ∉ w_paths wa) as Hf'.
    { rewrite Hpaths. intros [Hd | ?]%elem_of_union; [| done].
      by apply elem_of_singleton in Hd. }
    pose proof (finalize_task_ok _ _ Ha' Hf') as Hfo. rewrite Hfo. cbn [fst snd].
    split; [done |]. by apply finalize_task_Ok_inv in Hfo as (_ & _ & ? & ?).
  - intros Hok Hsec. apply Hfin in Hok. rewrite Hsecond in Hsec.
    destruct (open_checkpoint f force (Some st) (snd first)) as [[ckpt | e] wa];
      cbn [snd] in *; [| discriminate].
    rewrite finalize_task_fails in Hsec; [discriminate |].
    right. apply Hgrow2, Hok.
  - intros Hok Hg. apply Hfin in Hok. rewrite Hsecond.
    rewrite <- Henv in Hg.
    destruct (open_checkpoint_granted f force (Some st) (snd first) Hg)
      as (wa & Ho & _ & Hpaths & _). rewrite Ho.
    rewrite finalize_task_fails; [done |]. right. rewrite Hpaths.
    apply elem_of_union_r, Hok.
Qed.

(** The claim as the specification words it: on a terminal task two calls
    of [kill] in succession both succeed and append nothing.  It fails on
    the concrete terminal task: the first call finalizes it, the second
    call fails the assertion of [finalize_task]. *)
Lemma kill_twice_not_both_succeed :
  ¬ (∀ (task_id root : string) (force : bool) (term : TaskState) (clock : Clock)
       (w : World) (st : RunnerState) (hd : RunnerHeader) (sts : list TaskStatus)
       (latest : TaskStatus),
       let f := runner_checkpoint (env_TaskPath (w_env w) root task_id) in
       let first := kill task_id root force term clock w in
       let second := kill task_id root force term clock (snd first) in
       replayed w f = Some st →
       header st = Some hd → statuses st = Some sts → last sts = Some latest →
       is_task_terminal (ts_state latest) = true →
       term ∈ [TS_KILLED; TS_LOST] →
       fst first = Ok tt ∧ fst second = Ok tt
       ∧ ∀ g, records (snd second) g = records w g).
Proof.
  intros H.
  specialize (H "t"%string "/r"%string true TS_KILLED time Example.w_terminal
                Example.terminal_state (mkRunnerHeader "t" "alice")
                [mkTaskStatus TS_ACTIVE 5 77 1000; mkTaskStatus TS_KILLED 9 77 1000]
                (mkTaskStatus TS_KILLED 9 77 1000)).
  cbv zeta in H.
  destruct H as (_ & Hsecond & _); [reflexivity.. | compute_done |].
  vm_compute in Hsecond. discriminate.
Qed.

Lemma kill_terminal_twice_witness :
  let first := kill "t" "/r" true TS_KILLED time Example.w_terminal in
  let second := kill "t" "/r" true TS_KILLED time (snd first) in
  fst first = Ok tt
  ∧ fst second = Raise AssertionError
  ∧ records (snd second) Example.ckpt_file = records Example.w_terminal Example.ckpt_file.
Proof.
  intros first second.
  destruct (kill_terminal_twice "t" "/r" true TS_KILLED time Example.w_terminal
              Example.terminal_state (mkRunnerHeader "t" "alice")
              [mkTaskStatus TS_ACTIVE 5 77 1000; mkTaskStatus TS_KILLED 9 77 1000]
              (mkTaskStatus TS_KILLED 9 77 1000))
    as (Hrec & Hfirst & _ & Hsecond);
    [reflexivity | reflexivity | reflexivity | reflexivity | reflexivity
    | compute_done |].
  destruct Hfirst as (Hok & _); [reflexivity | compute_done | compute_done
                                | vm_compute; discriminate |].
  split; [exact Hok |]. split; [apply (Hsecond Hok); reflexivity |].
  apply Hrec.
Defined.

(** C2: the writer is not closed on the early exits of [kill].  On the
    concrete terminal task and on a checkpoint that replays without a
    header, [kill] returns normally and the file that [open_checkpoint]
    locked is still open afterwards; on the main path (the same task still
    active) [with closing(ckpt)] has closed it. *)
Theorem kill_early_return_keeps_writer_open :
  (fst (kill "t" "/r" false TS_KILLED time Example.w_terminal) = Ok tt
   ∧ w_fds (snd (kill "t" "/r" false TS_KILLED time Example.w_terminal)) !! 0%nat
     = Some Example.ckpt_file)
  ∧ (fst (kill "t" "/r" false TS_KILLED time Example.w_headerless) = Ok tt
     ∧ w_fds (snd (kill "t" "/r" false TS_KILLED time Example.w_headerless)) !! 0%nat
       = Some Example.ckpt_file)
  ∧ (fst (kill "t" "/r" false TS_KILLED time Example.w_active) = Ok tt
     ∧ w_fds (snd (kill "t" "/r" false TS_KILLED time Example.w_active)) = ∅).
Proof. repeat split; vm_compute; reflexivity. Qed.

(** On every terminal task the short-circuit of [kill] returns with the
    writer it obtained still open. *)
Lemma kill_terminal_keeps_writer task_id root force term clock w st hd sts latest fd w1 :
  let spec := env_TaskPath (w_env w) root task_id in
  replayed w (runner_checkpoint spec) = Some st →
  header st = Some hd → statuses st = Some sts → last sts = Some latest →
  is_task_terminal (ts_state latest) = true →
  term ∈ [TS_KILLED; TS_LOST] →
  open_checkpoint (runner_checkpoint spec) force (Some st) w = (Ok fd, w1) →
  w_fds (snd (kill task_id root force term clock w)) !! fd
  = Some (runner_checkpoint spec).
Proof.
  intros spec Hst Hh Hs Hl Hterm Hin Ho.
  rewrite (kill_terminal_eq task_id root force term clock w st hd sts latest
             Hst Hh Hs Hl Hterm Hin).
  fold spec. rewrite Ho.
  destruct (finalize_task_fs spec w1) as (_ & _ & _ & -> & _).
  by eapply open_checkpoint_fd.
Qed.

(** ** The properties on the concrete task *)

Lemma this_is_really_our_pid_spec_witness :
  fst (this_is_really_our_pid (mkHandle 100 "alice" 5) "alice" (Some 1000%float) time
         Example.w_active) = Ok true
  ∧ fst (this_is_really_our_pid (mkHandle 100 "alice" 5) "bob" (Some 1000%float) time
           Example.w_active) = Ok false.
Proof.
  split.
  - apply (this_is_really_our_pid_spec (mkHandle 100 "alice" 5) "alice" 1000 time
             Example.w_active).
    split; [reflexivity | left; vm_compute; reflexivity].
  - apply (this_is_really_our_pid_spec (mkHandle 100 "alice" 5) "bob" 1000 time
             Example.w_active).
    vm_compute. discriminate.
Defined.

Lemma finalize_task_lifecycle_witness :
  (∃ w', finalize_task (Example.paths "/r" "t") Example.w_active = (Ok tt, w')
         ∧ finalize_task (Example.paths "/r" "t") w' = (Raise AssertionError, w'))
  ∧ fst (finalize_task (Example.paths "/r" "t") (set_paths (λ _, ∅) Example.w_active))
    = Raise AssertionError.
Proof.
  split.
  - destruct (finalize_task_lifecycle (Example.paths "/r" "t") Example.w_active)
      as (_ & _ & Hok).
    destruct Hok as (w' & Hrun & _ & _ & _ & Hagain); [compute_done | compute_done |].
    exists w'. split; [exact Hrun | exact Hagain].
  - destruct (finalize_task_lifecycle (Example.paths "/r" "t")
                (set_paths (λ _, ∅) Example.w_active)) as (Hfail & Hempty & _).
    rewrite Hempty; reflexivity.
Defined.

Lemma open_checkpoint_contention_witness :
  (∃ w', open_checkpoint Example.ckpt_file false (Some Example.active_state)
           (Example.w_held Delivered) = (Raise PermissionError, w')
         ∧ w_signals w' = [])
  ∧ (∃ w', kill "t" "/r" false TS_KILLED time (Example.w_held Delivered)
             = (Raise PermissionError, w')
           ∧ records w' Example.ckpt_file = []).
Proof.
  destruct (open_checkpoint_contention "t" "/r" TS_KILLED time
              (Some Example.active_state) (Example.w_held Delivered))
    as (Hopen & Hkill); [vm_compute; discriminate |].
  split.
  - destruct Hopen as (w' & Hrun & _ & _ & Hsig). exists w'. split; [exact Hrun |].
    rewrite Hsig. reflexivity.
  - destruct Hkill as (w' & Hrun & Hrec & _); [compute_done |].
    exists w'. split; [exact Hrun |]. rewrite Hrec. reflexivity.
Defined.

Lemma forced_takeover_witness :
  (∃ w', open_checkpoint Example.ckpt_file true (Some Example.active_state)
           (Example.w_held (KillOSError ESRCH)) = (Ok 0%nat, w')
         ∧ w_fds w' !! 0%nat = Some Example.ckpt_file
         ∧ w_signals w' = [(77, SIGKILL)])
  ∧ (∃ w', open_checkpoint Example.ckpt_file true (Some Example.active_state)
             (Example.w_held (KillOSError EPERM)) = (Raise PermissionError, w')
           ∧ w_fds w' = ∅).
Proof.
  split.
  - destruct (forced_takeover Example.ckpt_file Example.active_state
                [mkTaskStatus TS_ACTIVE 5 77 1000] (mkTaskStatus TS_ACTIVE 5 77 1000)
                (Example.w_held (KillOSError ESRCH)))
      as (_ & _ & Hsrch & _);
      [reflexivity | reflexivity | vm_compute; discriminate |].
    destruct Hsrch as (w' & Hrun & Hfd & Hsig);
      [vm_compute; discriminate | reflexivity | reflexivity |].
    exists w'. split; [exact Hrun |]. split; [exact Hfd | exact Hsig].
  - destruct (forced_takeover Example.ckpt_file Example.active_state
                [mkTaskStatus TS_ACTIVE 5 77 1000] (mkTaskStatus TS_ACTIVE 5 77 1000)
                (Example.w_held (KillOSError EPERM)))
      as (_ & _ & _ & Hperm);
      [reflexivity | reflexivity | vm_compute; discriminate |].
    destruct Hperm as (w' & Hrun & Hfds & _);
      [vm_compute; discriminate | reflexivity |].
    exists w'. split; [exact Hrun | exact Hfds].
Defined.

Lemma kill_never_loses_waiting_witness :
  let w' := snd (kill "t" "/r" false TS_KILLED time Example.w_active) in
  (∃ history prev w1 w2,
     (("old"%string, history), w1)
       ∈ kill_turns "t" "/r" false TS_KILLED time Example.w_active
     ∧ last history = Some prev
     ∧ state prev ≠ PS_WAITING
     ∧ kill_process Example.active_state "old" w1 = (Ok false, w2))
  ∧ (∀ status, process_status status ∈ appended Example.w_active w' Example.ckpt_file →
               process status = "job"%string → state status ≠ PS_LOST).
Proof.
  intros w'.
  destruct (kill_never_loses_waiting "t" "/r" false TS_KILLED time Example.w_active
              Example.active_state) as (Hlost & _ & Hwait); [reflexivity |].
  split.
  - destruct (Hlost (LOST_status "old" Example.old))
      as (history & prev & w1 & w2 & Hturn & Hp & Hl & Hw & _ & Hk & _);
      [apply (list_elem_of_lookup_2 _ 1%nat); vm_compute; reflexivity | reflexivity |].
    exists history, prev, w1, w2. split; [exact Hturn |]. split; [exact Hl |].
    split; [exact Hw | exact Hk].
  - apply (Hwait "job"%string [Example.job] Example.job); reflexivity.
Defined.

Lemma kill_seq_monotonic_witness :
  ∃ history prev,
    processes Example.active_state !! "web"%string = Some history
    ∧ last history = Some prev
    ∧ 4 = seq prev + 1.
Proof.
  destruct (kill_seq_monotonic "t" "/r" false TS_KILLED time Example.w_active
              Example.active_state) as (Hseq & _); [reflexivity |].
  destruct (Hseq (KILLED_status "web" Example.web 1005%float))
    as (_ & history & prev & Hp & Hl & Hs & _);
    [apply (list_elem_of_lookup_2 _ 2%nat); vm_compute; reflexivity |].
  exists history, prev. split; [exact Hp |]. split; [exact Hl | exact Hs].
Defined.

Lemma kill_process_dispatch_witness :
  fst (kill_process Example.active_state "web" Example.w_open) = Ok true
  ∧ w_signals (snd (kill_process Example.active_state "web" Example.w_open))
    = [(-200, SIGKILL); (200, SIGKILL); (100, SIGKILL); (101, SIGKILL); (102, SIGKILL)]
  ∧ ∃ w', kill_loop_body 0 time Example.active_state ("web"%string, [Example.web])
            Example.w_open = (Ok tt, w')
          ∧ appended Example.w_open w' Example.ckpt_file
            = [process_status
                 (mkProcessStatus "web" 4 PS_KILLED None None None None
                    (Some (-9)) (Some 1005%float))].
Proof.
  destruct (kill_process_dispatch Example.active_state "web" [Example.web] Example.web
              Example.w_open (Some 200) (Some 100) (list_to_set [101; 102])
              (snd (_get_process_tuple Example.active_state "web" Example.w_open))
              0%nat time Example.ckpt_file)
    as (Hk & Hsig & _ & _ & _ & Hrec);
    [reflexivity | reflexivity | vm_compute; reflexivity | reflexivity |].
  rewrite Hk. split; [reflexivity |]. split; [exact Hsig |].
  destruct Hrec as (w' & Hbody & Happ & _); [reflexivity | vm_compute; reflexivity |].
  exists w'. split; [exact Hbody | exact Happ].
Defined.

(** * Further properties of the helper *)

(** ** [process_from_name] *)

(** X1: [process_from_name] returns the first process of the task that
    bears the name, and [None] exactly when the task has no processes or
    none bears it. *)
Theorem process_from_name_first :
  ∀ (P : Type) (name_of : P → string) (task : option (list P)) (n : string),
    (∀ p, process_from_name name_of task n = Some p →
       name_of p = n
       ∧ ∃ l1 l2, task = Some (l1 ++ p :: l2) ∧ ∀ q, q ∈ l1 → name_of q ≠ n)
    ∧ (process_from_name name_of task n = None
       ↔ ∀ l, task = Some l → ∀ q, q ∈ l → name_of q ≠ n).
Proof.
  intros P name_of task n. destruct task as [l |]; cbn [process_from_name].
  2:{ split; [discriminate |]. split; [intros _ l [=] | done]. }
  induction l as [| p0 l IH]; cbn [first_named].
  - split; [discriminate |]. split; [| done].
    intros _ l [= <-] q Hq. by apply elem_of_nil in Hq.
  - destruct (String.eqb_spec (name_of p0) n) as [Heq | Hne].
    + split.
      * intros p [= <-]. split; [done |]. exists [], l. split; [done |].
        intros q Hq. by apply elem_of_nil in Hq.
      * split; [discriminate |]. intros H. exfalso.
        apply (H (p0 :: l) eq_refl p0); [constructor | done].
    + destruct IH as [IHs IHn]. split.
      * intros p Hp. destruct (IHs p Hp) as (Hname & l1 & l2 & [= ->] & Hl1).
        split; [done |]. exists (p0 :: l1), l2. split; [done |].
        intros q [-> | Hq]%elem_of_cons; [done | by apply Hl1].
      * rewrite IHn. split.
        -- intros H l' [= <-] q [-> | Hq]%elem_of_cons; [done |]. by eapply H.
        -- intros H l' [= <-] q Hq. apply (H (p0 :: l) eq_refl). by constructor.
Qed.

Lemma process_from_name_first_witness :
  process_from_name fst (Some [("a"%string, 1); ("b"%string, 2); ("b"%string, 3)]) "b"
    = Some ("b"%string, 2)
  ∧ ∃ l1 l2, Some [("a"%string, 1); ("b"%string, 2); ("b"%string, 3)]
             = Some (l1 ++ ("b"%string, 2) :: l2)
             ∧ ∀ q, q ∈ l1 → fst q ≠ "b"%string.
Proof.
  split; [reflexivity |].
  destruct (process_from_name_first (string * Z) fst
              (Some [("a"%string, 1); ("b"%string, 2); ("b"%string, 3)]) "b")
    as (Hsome & _).
  destruct (Hsome ("b"%string, 2) eq_refl) as (_ & l1 & l2 & Heq & Hl1).
  exists l1, l2. split; [exact Heq | exact Hl1].
Defined.

(** ** [reap_children] *)

Lemma reap_children_loop_spec wait3 k :
  ∀ i acc fuel,
    (∀ j, (i ≤ j < i + k)%nat → ∃ p, wait3 j = Wait3 p ∧ p ≠ 0) →
    (wait3 (i + k)%nat = Wait3 0 ∨ ∃ e, wait3 (i + k)%nat = Wait3Error e) →
    (k < fuel)%nat →
    ∃ pids, reap_children_loop wait3 fuel i acc = Some pids
            ∧ ∀ p, p ∈ pids ↔ p ∈ acc ∨ ∃ j, (i ≤ j < i + k)%nat ∧ wait3 j = Wait3 p.
Proof.
  induction k as [| k IH]; intros i acc fuel Hbefore Hstop Hfuel.
  - destruct fuel as [| fuel]; [lia |]. rewrite Nat.add_0_r in Hstop.
    exists acc. split.
    + cbn. destruct Hstop as [-> | [e ->]]; reflexivity.
    + intros p. split; [by left | intros [? | (j & ? & _)]; [done | lia]].
  - destruct fuel as [| fuel]; [lia |].
    destruct (Hbefore i) as (p0 & Hp0 & Hnz); [lia |].
    destruct (IH (S i) ({[p0]} ∪ acc) fuel) as (pids & Hrun & Hpids).
    + intros j Hj. apply Hbefore. lia.
    + by replace (S i + k)%nat with (i + S k)%nat by lia.
    + lia.
    + exists pids. split.
      * cbn. rewrite Hp0. apply Z.eqb_neq in Hnz. by rewrite Hnz.
      * intros p. rewrite Hpids, elem_of_union, elem_of_singleton. split.
        -- intros [[-> | ?] | (j & Hj & Hw)]; [| by left |].
           ++ right. exists i. split; [lia | done].
           ++ right. exists j. split; [lia | done].
        -- intros [? | (j & Hj & Hw)]; [by left; right |].
           destruct (decide (j = i)) as [-> | Hne].
           ++ left; left. congruence.
           ++ right. exists j. split; [lia | done].
Qed.

(** X2: when the operating system reports [n] terminated children and
    then either pid 0 or an [OSError], [reap_children] returns (with any
    fuel above [n]) exactly the set of the [n] reported pids; the error is
    swallowed and pid 0 is never part of the result. *)
Theorem reap_children_stops :
  ∀ (wait3 : nat → Wait3Answer) (n fuel : nat),
    (∀ i, (i < n)%nat → ∃ p, wait3 i = Wait3 p ∧ p ≠ 0) →
    (wait3 n = Wait3 0 ∨ ∃ e, wait3 n = Wait3Error e) →
    (n < fuel)%nat →
    ∃ pids, reap_children wait3 fuel = Some pids
            ∧ (∀ p, p ∈ pids ↔ ∃ i, (i < n)%nat ∧ wait3 i = Wait3 p)
            ∧ 0 ∉ pids.
Proof.
  intros wait3 n fuel Hbefore Hstop Hfuel.
  destruct (reap_children_loop_spec wait3 n 0 ∅ fuel) as (pids & Hrun & Hpids).
  - intros j Hj. apply Hbefore. lia.
  - exact Hstop.
  - exact Hfuel.
  - exists pids. split; [exact Hrun |].
    assert (∀ p, p ∈ pids ↔ ∃ i, (i < n)%nat ∧ wait3 i = Wait3 p) as Hiff.
    { intros p. rewrite Hpids. split.
      - intros [H | (j & Hj & Hw)]; [by apply not_elem_of_empty in H |].
        exists j. split; [lia | done].
      - intros (i & Hi & Hw). right. exists i. split; [lia | done]. }
    split; [exact Hiff |].
    intros (i & Hi & Hw)%Hiff. destruct (Hbefore i Hi) as (p & Hp & Hnz). congruence.
Qed.

Lemma reap_children_stops_witness :
  ∃ pids,
    reap_children (λ i, match i with
                        | O => Wait3 41
                        | S O => Wait3 42
                        | _ => Wait3Error (EOTHER 10)
                        end) 5 = Some pids
    ∧ 0 ∉ pids.
Proof.
  destruct (reap_children_stops
              (λ i, match i with
                    | O => Wait3 41
                    | S O => Wait3 42
                    | _ => Wait3Error (EOTHER 10)
                    end) 2 5) as (pids & Hrun & _ & Hzero).
  - intros [| [| i]] Hi; [by exists 41 | by exists 42 | lia].
  - right. by exists (EOTHER 10).
  - lia.
  - exists pids. split; [exact Hrun | exact Hzero].
Defined.

(** ** Signals *)

(** X3: [terminate_pid], [kill_pid] and [kill_group] never raise,
    whatever [os.kill] does: each makes exactly one call of [os.kill],
    (pid, SIGTERM), (pid, SIGKILL) and (-pgrp, SIGKILL) respectively, and
    touches nothing else. *)
Theorem signal_helpers_never_raise :
  ∀ (p : Z) (w : World),
    (∃ w', terminate_pid p w = (Ok tt, w')
           ∧ w_signals w' = w_signals w ++ [(p, SIGTERM)] ∧ os_step w w')
    ∧ (∃ w', kill_pid p w = (Ok tt, w')
             ∧ w_signals w' = w_signals w ++ [(p, SIGKILL)] ∧ os_step w w')
    ∧ (∃ w', kill_group p w = (Ok tt, w')
             ∧ w_signals w' = w_signals w ++ [(- p, SIGKILL)] ∧ os_step w w').
Proof.
  intros p w. unfold terminate_pid, kill_pid, kill_group.
  repeat split; eexists; (split; [apply safe_signal_eq |]);
    (split; [apply signalled_signals | apply signalled_os]).
Qed.

Lemma if_truthy_send o (f : Z → Z) sig w :
  if_truthy o (λ n, safe_signal (f n) sig) (ret tt) w
  = (Ok tt, signalled (if_truthy o (λ n, [(f n, sig)]) []) w).
Proof.
  unfold if_truthy. destruct o as [n |]; [| reflexivity].
  destruct (n =? 0); [reflexivity | apply safe_signal_eq].
Qed.

Lemma terminate_process_eq st name history run w :
  processes st !! name = Some history → last history = Some run →
  terminate_process st name w =
    match _get_process_tuple st name w with
    | (Ok (_, pid0, _), w1) =>
        (Ok (truthy pid0), signalled (if_truthy pid0 (λ q, [(q, SIGTERM)]) []) w1)
    | (Raise e, w1) => (Raise e, w1)
    end.
Proof.
  intros Hp Hl. unfold terminate_process, bind at 1.
  destruct (_get_process_tuple st name w) as [[[[cp p] tree] | e] w1]; [| reflexivity].
  unfold terminate_pid.
  by rewrite (bind_Ok _ _ _ _ _ (if_truthy_send _ id SIGTERM _)).
Qed.

(** X4: [terminate_process] sends at most one signal: SIGTERM to the
    recorded main pid, and only when that pid is set and not zero, is in
    the process table as refreshed by this call, and
    [this_is_really_our_pid] answered [True] for its handle, the user of
    the checkpoint header and the recorded start time, read against the
    [time] module in the world the scan had reached (right after the
    refresh, or one clock reading later when the coordinator was checked
    first); it returns [True] exactly when it sent the signal.  The
    coordinator, its group and the descendants are never signalled. *)
Theorem terminate_process_spec :
  ∀ (st : RunnerState) (name : string) (history : list ProcessStatus)
    (run : ProcessStatus) (w : World) (b : bool) (w' : World),
    processes st !! name = Some history → last history = Some run →
    terminate_process st name w = (Ok b, w') →
    let tab := env_ps (w_env w) (w_tick w) in
    let w_scan := tick (set_PS tab w) in
    (b = true →
       ∃ q h owner w0,
         pid run = Some q ∧ q ≠ 0
         ∧ q ∈ pids tab ∧ get_handle tab q = Some h
         ∧ user <$> header st = Some owner
         ∧ (w0 = w_scan ∨ w0 = tick w_scan)
         ∧ fst (this_is_really_our_pid h owner (start_time run) time w0) = Ok true
         ∧ w_signals w' = w_signals w ++ [(q, SIGTERM)])
    ∧ (b = false → w_signals w' = w_signals w).
Proof.
  intros st name history run w b w' Hp Hl H tab w_scan.
  rewrite (terminate_process_eq _ _ _ _ _ Hp Hl) in H.
  pose proof (_get_process_tuple_scan st name w) as [_ Hsig].
  destruct (_get_process_tuple st name w) as [[[[cp p] tree] | e] w1] eqn:Hscan;
    [| discriminate].
  cbn [snd] in Hsig. injection H as <- <-. rewrite signalled_signals, Hsig.
  rewrite (_get_process_tuple_eq _ _ _ _ _ Hp Hl) in Hscan.
  destruct (scan_process_sound _ _ _ _ _ _ _ _ _ _ _ Hp Hl Hscan) as (_ & Hq & _).
  split.
  - intros Ht. destruct p as [q |]; [| discriminate].
    destruct (Hq q eq_refl)
      as (Hrec & Hnz & Hin & _ & h & owner & w0 & Hh & Ho & Hw0 & Hours).
    exists q, h, owner, w0. repeat split; [done | done | done | done | done | done | done |].
    unfold if_truthy. apply Z.eqb_neq in Hnz. by rewrite Hnz.
  - intros Hf. unfold truthy in Hf. unfold if_truthy.
    destruct p as [q |]; [| by rewrite app_nil_r].
    apply negb_false_iff in Hf. rewrite Hf. by rewrite app_nil_r.
Qed.

Lemma terminate_process_spec_witness :
  terminate_process Example.active_state "web" Example.w_active
    = (Ok true, snd (terminate_process Example.active_state "web" Example.w_active))
  ∧ ∃ q h, pid Example.web = Some q ∧ q ≠ 0
         ∧ get_handle Example.table q = Some h
         ∧ w_signals (snd (terminate_process Example.active_state "web" Example.w_active))
           = w_signals Example.w_active ++ [(q, SIGTERM)].
Proof.
  assert (terminate_process Example.active_state "web" Example.w_active
          = (Ok true, snd (terminate_process Example.active_state "web" Example.w_active)))
    as Hrun by (vm_compute; reflexivity).
  split; [exact Hrun |].
  destruct (terminate_process_spec Example.active_state "web" [Example.web] Example.web
              Example.w_active true _ eq_refl eq_refl Hrun) as (Htrue & _).
  destruct (Htrue eq_refl) as (q & h & _ & _ & Hq & Hnz & _ & Hh & _ & _ & _ & Hsig).
  exists q, h. split; [exact Hq |]. split; [exact Hnz |]. split; [exact Hh | exact Hsig].
Defined.

(** X5: on a process name the state does not know, or whose history is
    empty, [kill_process] and [terminate_process] fail their assertion
    before doing anything: no signal is sent and the process table is not
    even refreshed. *)
Theorem unknown_process_asserts :
  ∀ (st : RunnerState) (name : string) (w : World),
    (processes st !! name = None ∨ processes st !! name = Some []) →
    kill_process st name w = (Raise AssertionError, w)
    ∧ terminate_process st name w = (Raise AssertionError, w).
Proof.
  intros st name w H.
  assert (has_history st name = false) as Hh
      by (unfold has_history; destruct H as [-> | ->]; reflexivity).
  unfold kill_process, terminate_process, _get_coordinator_group, _get_process_tuple.
  rewrite Hh. split; reflexivity.
Qed.

Lemma unknown_process_asserts_witness :
  kill_process Example.active_state "db" Example.w_active
    = (Raise AssertionError, Example.w_active)
  ∧ terminate_process Example.active_state "db" Example.w_active
    = (Raise AssertionError, Example.w_active).
Proof.
  apply (unknown_process_asserts Example.active_state "db" Example.w_active).
  left. reflexivity.
Defined.

Lemma scan_process_dead st name clock tab history run hd w :
  processes st !! name = Some history → last history = Some run →
  header st = Some hd →
  not_running tab (coordinator_pid run) → not_running tab (pid run) →
  scan_process st name clock (Some tab) w = (Ok (None, None, ∅), w).
Proof.
  intros Hp Hl Hh Hc Hq. unfold scan_process, lookup_process, last_item.
  rewrite Hp. rewrite (bind_Ok (ret history) _ w history w eq_refl).
  rewrite Hl. rewrite (bind_Ok (ret run) _ w run w eq_refl).
  rewrite Hh. rewrite (bind_Ok (ret (user hd)) _ w _ w eq_refl).
  rewrite (bind_Ok (ret tab) _ w _ w eq_refl).
  assert (∀ A (p : option Z) (k : Z → M A) (e : M A),
            not_running tab p →
            if_truthy p (λ n, if bool_decide (n ∈ pids tab) then k n else e) e = e)
    as Hskip.
  { intros A p k e Hnr. unfold if_truthy. destruct p as [n |]; [| done].
    destruct (n =? 0) eqn:Hz; [done |]. apply Z.eqb_neq in Hz.
    by rewrite (bool_decide_eq_false_2 _ (Hnr n eq_refl Hz)). }
  rewrite (Hskip _ _ _ _ Hc).
  rewrite (bind_Ok (ret None) _ w None w eq_refl). cbv zeta.
  rewrite (Hskip _ _ _ _ Hq). reflexivity.
Qed.

(** X6: when neither the recorded coordinator pid nor the recorded main
    pid is in the refreshed process table, [kill_process] answers [False],
    and yet it has sent SIGKILL to the process group of the recorded
    coordinator pid whenever one is recorded; nothing else is signalled. *)
Theorem kill_process_nothing_live :
  ∀ (st : RunnerState) (name : string) (history : list ProcessStatus)
    (run : ProcessStatus) (hd : RunnerHeader) (w : World),
    processes st !! name = Some history → last history = Some run →
    header st = Some hd →
    not_running (env_ps (w_env w) (w_tick w)) (coordinator_pid run) →
    not_running (env_ps (w_env w) (w_tick w)) (pid run) →
    ∃ w', kill_process st name w = (Ok false, w')
          ∧ w_signals w'
            = w_signals w ++ if_truthy (coordinator_pid run) (λ g, [(- g, SIGKILL)]) [].
Proof.
  intros st name history run hd w Hp Hl Hh Hc Hq.
  rewrite (kill_process_eq _ _ _ _ _ Hp Hl), (_get_process_tuple_eq _ _ _ _ _ Hp Hl).
  rewrite (scan_process_dead _ _ _ _ _ _ _ _ Hp Hl Hh Hc Hq).
  eexists. split; [reflexivity |].
  rewrite signalled_signals. unfold kill_signals. cbn [if_truthy map].
  rewrite elements_empty. cbn. by rewrite !app_nil_r.
Qed.

Lemma kill_process_nothing_live_witness :
  ∃ w', kill_process Example.active_state "old" Example.w_active = (Ok false, w')
        ∧ w_signals w' = [(-300, SIGKILL)].
Proof.
  destruct (kill_process_nothing_live Example.active_state "old" [Example.old]
              Example.old (mkRunnerHeader "t" "alice") Example.w_active)
    as (w' & Hrun & Hsig); [reflexivity | reflexivity | reflexivity | | |].
  - intros n [= <-] _. compute_done.
  - intros n [=].
  - exists w'. split; [exact Hrun | exact Hsig].
Defined.

(** ** [kill_runner] *)

(** X7: [kill_runner] refuses, by assertion and without sending any
    signal, a state that could not be read, a state without task status,
    and a state whose latest status names the calling process itself. *)
Theorem kill_runner_guards :
  ∀ (w : World),
    kill_runner None w = (Raise AssertionError, w)
    ∧ ∀ st,
        (statuses st = None ∨ statuses st = Some []
         ∨ ∃ sts latest, statuses st = Some sts ∧ last sts = Some latest
                         ∧ runner_pid latest = env_getpid (w_env w)) →
        kill_runner (Some st) w = (Raise AssertionError, w).
Proof.
  intros w. split; [reflexivity |].
  intros st [H | [H | (sts & latest & Hs & Hl & Hpid)]]; unfold kill_runner.
  - by rewrite H.
  - by rewrite H.
  - rewrite Hs. destruct sts as [| s0 sts']; [discriminate |].
    unfold last_item. rewrite Hl.
    unfold bind, ret, os_getpid, assert. rewrite Hpid, Z.eqb_refl. reflexivity.
Qed.

Lemma kill_runner_guards_witness :
  kill_runner
    (Some (mkRunnerState None (Some [mkTaskStatus TS_ACTIVE 5 1 1000]) ∅))
    Example.w_active
  = (Raise AssertionError, Example.w_active).
Proof.
  apply (kill_runner_guards Example.w_active). right; right.
  exists [mkTaskStatus TS_ACTIVE 5 1 1000], (mkTaskStatus TS_ACTIVE 5 1 1000).
  repeat split.
Defined.

(** X8: on a state whose latest status names another process,
    [kill_runner] sends exactly one signal, SIGKILL to that runner pid; it
    answers [True] when the signal is delivered, and an [OSError] other
    than EPERM and ESRCH is raised again to the caller. *)
Theorem kill_runner_outcomes :
  ∀ (st : RunnerState) (sts : list TaskStatus) (latest : TaskStatus) (w : World),
    statuses st = Some sts → last sts = Some latest →
    runner_pid latest ≠ env_getpid (w_env w) →
    w_signals (snd (kill_runner (Some st) w))
      = w_signals w ++ [(runner_pid latest, SIGKILL)]
    ∧ (env_kill (w_env w) (w_tick w) (runner_pid latest) SIGKILL = Delivered →
       fst (kill_runner (Some st) w) = Ok true)
    ∧ (∀ e, e ≠ EPERM → e ≠ ESRCH →
         env_kill (w_env w) (w_tick w) (runner_pid latest) SIGKILL = KillOSError e →
         fst (kill_runner (Some st) w) = Raise (OSError e)).
Proof.
  intros st sts latest w Hs Hl Hne.
  rewrite (kill_runner_eq _ _ _ _ Hs Hl Hne). cbv zeta.
  split; [| split].
  - destruct (env_kill _ _ _ _) as [| [] |]; reflexivity.
  - intros ->. reflexivity.
  - intros e He1 He2 ->. destruct e; done.
Qed.

Lemma kill_runner_outcomes_witness :
  fst (kill_runner (Some Example.active_state) Example.w_active) = Ok true
  ∧ w_signals (snd (kill_runner (Some Example.active_state) Example.w_active))
    = [(77, SIGKILL)].
Proof.
  destruct (kill_runner_outcomes Example.active_state
              [mkTaskStatus TS_ACTIVE 5 77 1000] (mkTaskStatus TS_ACTIVE 5 77 1000)
              Example.w_active) as (Hsig & Hok & _);
    [reflexivity | reflexivity | vm_compute; discriminate |].
  split; [apply Hok; reflexivity | exact Hsig].
Defined.

(** ** Scanning the process table *)

(** X9: [scan_process] raises [KeyError] on an unknown process name,
    [IndexError] on an empty history and [AttributeError] on a state
    without header; in each case before the process table is consulted or
    refreshed (the world is unchanged, also with the default [ps]). *)
Theorem scan_process_errors :
  ∀ (st : RunnerState) (name : string) (clock : Clock) (ps : option ProcessTable)
    (w : World),
    (processes st !! name = None →
       scan_process st name clock ps w = (Raise KeyError, w))
    ∧ (processes st !! name = Some [] →
       scan_process st name clock ps w = (Raise IndexError, w))
    ∧ (∀ history run,
         processes st !! name = Some history → last history = Some run →
         header st = None →
         scan_process st name clock ps w = (Raise AttributeError, w)).
Proof.
  intros st name clock ps w. unfold scan_process, lookup_process, last_item.
  split; [| split].
  - intros ->. reflexivity.
  - intros ->. reflexivity.
  - intros history run Hp Hl Hh. rewrite Hp.
    rewrite (bind_Ok (ret history) _ w history w eq_refl). rewrite Hl.
    rewrite (bind_Ok (ret run) _ w run w eq_refl). rewrite Hh. reflexivity.
Qed.

Lemma scan_process_errors_witness :
  scan_process Example.active_state "db" time None Example.w_active
    = (Raise KeyError, Example.w_active)
  ∧ scan_process Example.headerless_state "web" time None Example.w_headerless
    = (Raise AttributeError, Example.w_headerless).
Proof.
  split.
  - apply (scan_process_errors Example.active_state "db" time None Example.w_active).
    reflexivity.
  - apply (scan_process_errors Example.headerless_state "web" time None
             Example.w_headerless) with (history := [Example.web]) (run := Example.web);
      reflexivity.
Defined.

(** X10: when [scan_process] returns, a recorded main pid that is set,
    not zero and in the process table is reported exactly when
    [this_is_really_our_pid], called for its handle with the [clock]
    argument in the world the scan had reached (the one it started in, or
    one clock reading later when the coordinator was checked first),
    answered [True]; the descendants the table gives for the pid are
    returned exactly then, and none otherwise.  For a handle of the
    owner of the task the answer is the outcome of the drift test on the
    recorded start time in double arithmetic. *)
Theorem scan_process_main_pid :
  ∀ (st : RunnerState) (name : string) (clock : Clock) (tab : ProcessTable)
    (history : list ProcessStatus) (run : ProcessStatus) (hd : RunnerHeader)
    (q : Z) (h : ProcessHandle) (w : World)
    (cp p : option Z) (tree : gset Z) (w1 : World),
    processes st !! name = Some history → last history = Some run →
    header st = Some hd →
    pid run = Some q → q ≠ 0 → get_handle tab q = Some h →
    scan_process st name clock (Some tab) w = (Ok (cp, p, tree), w1) →
    ∃ (w0 : World) (ours : bool),
      (w0 = w ∨ w0 = tick w)
      ∧ this_is_really_our_pid h (user hd) (start_time run) clock w0 = (Ok ours, w1)
      ∧ p = (if ours then Some q else None)
      ∧ tree = (if ours then list_to_set (children_of tab q) else ∅)
      ∧ (∀ s, h_user h = user hd → start_time run = Some s →
           ours = negb (10 <=? abs (s - (clock w0 - h_wall_time h)))%float).
Proof.
  intros st name clock tab history run hd q h w cp p tree w1
    Hp Hl Hh Hq Hnz Hhandle H.
  unfold scan_process, lookup_process, last_item in H.
  rewrite Hp in H. rewrite (bind_Ok (ret history) _ w history w eq_refl) in H.
  rewrite Hl in H. rewrite (bind_Ok (ret run) _ w run w eq_refl) in H.
  rewrite Hh in H. rewrite (bind_Ok (ret (user hd)) _ w _ w eq_refl) in H.
  rewrite (bind_Ok (ret tab) _ w _ w eq_refl) in H.
  apply bind_Ok_inv in H as (cp' & wa & Hc & H). cbv zeta in H.
  apply bind_Ok_inv in H as ([p' tree'] & wb & Hscan & H).
  unfold ret in H. injection H as -> -> -> ->.
  pose proof (coordinator_check_world _ _ _ _ _ _ _ _ Hc) as Hwa.
  unfold if_truthy in Hscan. rewrite Hq in Hscan.
  apply Z.eqb_neq in Hnz. rewrite Hnz in Hscan.
  assert (q ∈ pids tab) as Hin by (apply elem_of_dom; by exists h).
  rewrite (bool_decide_eq_true_2 _ Hin) in Hscan.
  unfold handle_of in Hscan. rewrite Hhandle in Hscan.
  rewrite (bind_Ok (ret h) _ wa h wa eq_refl) in Hscan.
  apply bind_Ok_inv in Hscan as (ours & w2 & Hours & Hscan).
  exists wa, ours.
  assert (w2 = w1 ∧ p = (if ours then Some q else None)
          ∧ tree = (if ours then list_to_set (children_of tab q) else ∅))
    as (-> & -> & ->) by (destruct ours; by injection Hscan as <- <- <-).
  split; [exact Hwa |]. split; [exact Hours |]. split; [done |]. split; [done |].
  intros s Huser Hs. rewrite this_is_really_our_pid_eq, Hs in Hours.
  apply String.eqb_eq in Huser. rewrite Huser in Hours. cbn [negb] in Hours.
  by injection Hours as <- _.
Qed.

Lemma scan_process_main_pid_witness :
  pid_of (fst (scan_process Example.active_state "web" (λ _, 1005%float)
                 (Some Example.table) Example.w_active)) = Ok (Some 100)
  ∧ pid_of (fst (scan_process Example.active_state "web" (λ _, 2000%float)
                   (Some Example.table) Example.w_active)) = Ok None.
Proof.
  split.
  - destruct (scan_process Example.active_state "web" (λ _, 1005%float)
                (Some Example.table) Example.w_active) as [[[[cp p] tree] | e] w1] eqn:E;
      [| vm_compute in E; discriminate].
    destruct (scan_process_main_pid Example.active_state "web" (λ _, 1005%float)
                Example.table [Example.web] Example.web (mkRunnerHeader "t" "alice")
                100 (mkHandle 100 "alice" 5) Example.w_active cp p tree w1)
      as (w0 & ours & _ & _ & -> & _ & Hours);
      [reflexivity | reflexivity | reflexivity | reflexivity
      | discriminate | reflexivity | exact E |].
    rewrite (Hours 1000%float eq_refl eq_refl). reflexivity.
  - destruct (scan_process Example.active_state "web" (λ _, 2000%float)
                (Some Example.table) Example.w_active) as [[[[cp p] tree] | e] w1] eqn:E;
      [| vm_compute in E; discriminate].
    destruct (scan_process_main_pid Example.active_state "web" (λ _, 2000%float)
                Example.table [Example.web] Example.web (mkRunnerHeader "t" "alice")
                100 (mkHandle 100 "alice" 5) Example.w_active cp p tree w1)
      as (w0 & ours & _ & _ & -> & _ & Hours);
      [reflexivity | reflexivity | reflexivity | reflexivity
      | discriminate | reflexivity | exact E |].
    rewrite (Hours 1000%float eq_refl eq_refl). reflexivity.
Defined.

#[global] Instance same_PS_preorder : PreOrder same_PS.
Proof.
  split; [intros w; reflexivity |]. intros a b c H1 H2. unfold same_PS in *. congruence.
Qed.

Lemma clock_time_PS clock : Frame same_PS (clock_time clock).
Proof. intros w. reflexivity. Qed.
#[global] Hint Resolve clock_time_PS : frame.

Lemma this_is_really_our_pid_PS h u s clock :
  Frame same_PS (this_is_really_our_pid h u s clock).
Proof. unfold this_is_really_our_pid. frame. Qed.
#[global] Hint Resolve this_is_really_our_pid_PS : frame.

(** With an explicit process table, [scan_process] does not refresh the
    snapshot. *)
Lemma scan_process_PS st name clock tab :
  Frame same_PS (scan_process st name clock (Some tab)).
Proof. unfold scan_process, lookup_process, handle_of. cbv beta iota zeta. frame. Qed.

Lemma dict_of_scan st clock tab keys :
  ∀ acc w m w',
    w_PS w = tab →
    dict_of acc keys
      (λ process_name, ps ← get_PS; scan_process st process_name clock (Some ps)) w
      = (Ok m, w') →
    dom m = dom acc ∪ list_to_set keys
    ∧ ∀ k v, m !! k = Some v →
        acc !! k = Some v
        ∨ ∃ w0 w1, scan_process st k clock (Some tab) w0 = (Ok v, w1).
Proof.
  induction keys as [| k keys IH]; intros acc w m w' Htab H.
  - injection H as <- <-. split; [| by left].
    rewrite list_to_set_nil. by rewrite union_empty_r_L.
  - cbn [dict_of] in H. apply bind_Ok_inv in H as (v & w1 & Hscan & H).
    unfold bind at 1, get_PS in Hscan. rewrite Htab in Hscan.
    pose proof (scan_process_PS st k clock tab w) as Hps.
    rewrite Hscan in Hps. unfold same_PS in Hps. cbn [snd] in Hps.
    destruct (IH (<[k := v]> acc) w1 m w') as (Hdom & Hvals); [congruence | exact H |].
    split.
    + rewrite Hdom, dom_insert_L, list_to_set_cons.
      clear. generalize (dom acc) (list_to_set keys : gset string). intros X Y.
      rewrite (union_comm_L {[k]} X), <- union_assoc_L. reflexivity.
    + intros k' v' Hm. destruct (Hvals k' v' Hm) as [Hacc | Hex]; [| by right].
      destruct (decide (k = k')) as [<- | Hne].
      * rewrite lookup_insert_eq in Hacc. injection Hacc as <-. right. eauto.
      * rewrite lookup_insert_ne in Hacc by done. by left.
Qed.

Lemma scantree_scan st clock : Frame scan_step (scantree st clock).
Proof.
  unfold scantree. apply Frame_bind; [auto with frame |]. intros _.
  generalize (∅ : gmap string (option Z * option Z * gset Z)).
  induction ((map_to_list (processes st)).*1) as [| k keys IH]; intros acc; cbn [dict_of].
  - apply Frame_ret.
  - frame; apply IH.
Qed.

(** X11: when [scantree] returns, its dictionary has exactly the process
    names of the state as keys, and every value is what [scan_process]
    returns for that name against one and the same snapshot, the one
    taken on entry; no signal is sent and no file is touched.  It can only
    return if the state has a header and no process has an empty
    history. *)
Theorem scantree_snapshot :
  ∀ (st : RunnerState) (clock : Clock) (w : World)
    (m : gmap string (option Z * option Z * gset Z)) (w' : World),
    scantree st clock w = (Ok m, w') →
    dom m = dom (processes st)
    ∧ (∀ name v, m !! name = Some v →
         ∃ w0 w1, scan_process st name clock
                    (Some (env_ps (w_env w) (w_tick w))) w0 = (Ok v, w1))
    ∧ scan_step w w'
    ∧ (∀ name history, processes st !! name = Some history →
         history ≠ [] ∧ header st ≠ None).
Proof.
  intros st clock w m w' H.
  pose proof (scantree_scan st clock w) as Hstep. rewrite H in Hstep. cbn [snd] in Hstep.
  unfold scantree in H.
  rewrite (bind_Ok collect_all _ w tt _ eq_refl) in H.
  destruct (dict_of_scan st clock (env_ps (w_env w) (w_tick w)) _ ∅
              (tick (set_PS (env_ps (w_env w) (w_tick w)) w)) m w' eq_refl H)
    as (Hdom & Hvals).
  assert (dom m = dom (processes st)) as Hkeys.
  { rewrite Hdom, dom_empty_L, union_empty_l_L.
    apply set_eq. intros k. rewrite elem_of_list_to_set, elem_of_dom.
    rewrite list_elem_of_fmap. split.
    - intros ([k' h] & -> & Hin). apply elem_of_map_to_list in Hin. by exists h.
    - intros [h Hh]. exists (k, h). split; [done |]. by apply elem_of_map_to_list. }
  assert (∀ name v, m !! name = Some v →
            ∃ w0 w1, scan_process st name clock
                       (Some (env_ps (w_env w) (w_tick w))) w0 = (Ok v, w1)) as Hscan.
  { intros name v Hm. destruct (Hvals name v Hm) as [Hacc | Hex]; [| exact Hex].
    by rewrite lookup_empty in Hacc. }
  split; [exact Hkeys |]. split; [exact Hscan |]. split; [exact Hstep |].
  intros name history Hp.
  assert (is_Some (m !! name)) as [v Hv].
  { apply elem_of_dom. rewrite Hkeys. apply elem_of_dom. by exists history. }
  destruct (Hscan name v Hv) as (w0 & w1 & Hrun).
  unfold scan_process, lookup_process, last_item in Hrun. rewrite Hp in Hrun.
  rewrite (bind_Ok (ret history) _ w0 history w0 eq_refl) in Hrun.
  split.
  - intros ->. discriminate.
  - intros Hh. destruct (last history) as [run |]; [| discriminate].
    rewrite (bind_Ok (ret run) _ w0 run w0 eq_refl) in Hrun.
    rewrite Hh in Hrun. discriminate.
Qed.

Lemma scantree_snapshot_witness :
  ∃ m w', scantree Example.active_state time Example.w_active = (Ok m, w')
          ∧ dom m = dom Example.procs
          ∧ m !! "web"%string = Some (Some 200, Some 100, list_to_set [101; 102])
          ∧ w_signals w' = [].
Proof.
  destruct (scantree Example.active_state time Example.w_active) as [[m | e] w'] eqn:E;
    [| vm_compute in E; discriminate].
  destruct (scantree_snapshot Example.active_state time Example.w_active m w' E)
    as (Hdom & _ & [_ Hsig] & _).
  exists m, w'. split; [reflexivity |]. split; [exact Hdom |]. split; [| exact Hsig].
  assert (fst (scantree Example.active_state time Example.w_active) = Ok m) as Hm
      by (by rewrite E).
  vm_compute in Hm. injection Hm as <-. vm_compute. reflexivity.
Defined.

(** ** The checkpoint lock, continued *)

(** X12: when the lock of the checkpoint is free, [open_checkpoint]
    returns a writer bound to the file whatever [force] and [state] are:
    the recorded runner is not signalled, no record is appended, and the
    outcome is the one of [open_checkpoint(filename)] with the
    defaults. *)
Theorem open_checkpoint_free_lock :
  ∀ (filename : string) (force : bool) (state : option RunnerState) (w : World),
    env_lock (w_env w) (w_tick w) filename false = Granted →
    open_checkpoint filename force state w = open_checkpoint filename false None w
    ∧ ∃ w', open_checkpoint filename force state w = (Ok (w_next_fd w), w')
            ∧ w_fds w' !! w_next_fd w = Some filename
            ∧ w_signals w' = w_signals w
            ∧ ∀ g, records w' g = records w g.
Proof.
  intros filename force state w Hg.
  destruct (open_checkpoint_granted filename force state w Hg)
    as (w' & Hrun & Hfds & _ & Hsig).
  destruct (open_checkpoint_granted filename false None w Hg) as (w'' & Hrun' & _).
  assert (w'' = w') as ->.
  { unfold open_checkpoint in Hrun, Hrun'.
    rewrite (bind_Ok (safe_mkdir _) _ w tt _ eq_refl) in Hrun.
    rewrite (bind_Ok (safe_mkdir _) _ w tt _ eq_refl) in Hrun'.
    destruct (lock_file_granted filename false
                (set_paths (λ s, {[dirname filename]} ∪ s) w) Hg) as (w0 & Hlf & _).
    rewrite (bind_Ok _ _ _ _ _ Hlf) in Hrun. rewrite (bind_Ok _ _ _ _ _ Hlf) in Hrun'.
    cbn [in_None_False] in Hrun, Hrun'.
    rewrite (bind_Ok (ret _) _ w0 _ w0 eq_refl) in Hrun.
    rewrite (bind_Ok (ret _) _ w0 _ w0 eq_refl) in Hrun'.
    unfold ret in Hrun, Hrun'. congruence. }
  split; [congruence |]. exists w'. split; [exact Hrun |].
  split; [rewrite Hfds; apply lookup_insert_eq |]. split; [exact Hsig |].
  intros g. apply no_append_records.
  pose proof (open_checkpoint_no_append filename force state w) as Hna.
  by rewrite Hrun in Hna.
Qed.

Lemma open_checkpoint_free_lock_witness :
  ∃ w', open_checkpoint Example.ckpt_file true (Some Example.active_state)
          Example.w_active = (Ok 0%nat, w')
        ∧ w_signals w' = [].
Proof.
  destruct (open_checkpoint_free_lock Example.ckpt_file true (Some Example.active_state)
              Example.w_active) as (_ & w' & Hrun & _ & Hsig & _); [reflexivity |].
  exists w'. split; [exact Hrun | exact Hsig].
Defined.

(** ** Task lifecycle markers, continued *)

(** X13: [initialize_task] fails its assertion, changing nothing, when the
    finished marker exists; it does nothing at all when the active marker
    is already there (the task description is not written again); and
    whenever it returns, the finished marker did not exist, the active
    marker exists afterwards and every path that existed still does. *)
Theorem initialize_task_spec :
  ∀ (spec : TaskPath) (task : string) (w : World),
    (finished_task_path spec ∈ w_paths w →
       initialize_task spec task w = (Raise AssertionError, w))
    ∧ (finished_task_path spec ∉ w_paths w → active_task_path spec ∈ w_paths w →
       initialize_task spec task w = (Ok tt, w))
    ∧ (∀ w', initialize_task spec task w = (Ok tt, w') →
         (finished_task_path spec ∉ w_paths w)
         ∧ active_task_path spec ∈ w_paths w'
         ∧ w_paths w ⊆ w_paths w').
Proof.
  intros spec task w.
  destruct (decide (finished_task_path spec ∈ w_paths w)) as [Hf | Hf].
  { assert (initialize_task spec task w = (Raise AssertionError, w)) as Hrun.
    { unfold initialize_task, bind, os_path_exists, assert, raise.
      by rewrite (bool_decide_eq_true_2 _ Hf). }
    split; [done |]. split; [done |]. intros w'. rewrite Hrun. discriminate. }
  destruct (decide (active_task_path spec ∈ w_paths w)) as [Ha | Ha].
  { assert (initialize_task spec task w = (Ok tt, w)) as Hrun.
    { unfold initialize_task, bind, os_path_exists, assert, ret.
      by rewrite (bool_decide_eq_true_2 _ Ha), (bool_decide_eq_false_2 _ Hf). }
    split; [done |]. split; [done |]. intros w'. rewrite Hrun. by intros [= <-]. }
  split; [done |]. split; [done |]. intros w'.
  unfold initialize_task, bind, os_path_exists, assert, ret, safe_mkdir, write_file.
  rewrite (bool_decide_eq_false_2 _ Ha), (bool_decide_eq_false_2 _ Hf).
  intros [= <-]. cbn [w_paths set_paths]. split; [done |]. split.
  - apply elem_of_union_l. by apply elem_of_singleton.
  - intros x Hx. by apply elem_of_union_r, elem_of_union_r.
Qed.

Lemma initialize_task_spec_witness :
  initialize_task (Example.paths "/r" "t") "task" Example.w_active
    = (Ok tt, Example.w_active)
  ∧ active_task_path (Example.paths "/r" "t")
      ∈ w_paths (snd (initialize_task (Example.paths "/r" "t") "task"
                        (set_paths (λ _, ∅) Example.w_active))).
Proof.
  split.
  - apply (initialize_task_spec (Example.paths "/r" "t") "task" Example.w_active);
      compute_done.
  - destruct (initialize_task_spec (Example.paths "/r" "t") "task"
                (set_paths (λ _, ∅) Example.w_active)) as (_ & _ & Hnew).
    destruct (Hnew (snd (initialize_task (Example.paths "/r" "t") "task"
                           (set_paths (λ _, ∅) Example.w_active))))
      as (_ & Hactive & _); [vm_compute; reflexivity | exact Hactive].
Defined.

(** X14: the lifecycle is one-way.  Once [finalize_task] has returned,
    [initialize_task] fails its assertion and so does a further
    [finalize_task], both leaving everything as it is; the same holds once
    [kill] has returned on a checkpoint that replays with a header and a
    status list. *)
Theorem lifecycle_one_way :
  ∀ (spec : TaskPath) (task : string) (w w' : World),
    (finalize_task spec w = (Ok tt, w') →
       initialize_task spec task w' = (Raise AssertionError, w')
       ∧ finalize_task spec w' = (Raise AssertionError, w'))
    ∧ (∀ task_id root force term clock st hd sts,
         spec = env_TaskPath (w_env w) root task_id →
         replayed w (runner_checkpoint spec) = Some st →
         header st = Some hd → statuses st = Some sts →
         kill task_id root force term clock w = (Ok tt, w') →
         initialize_task spec task w' = (Raise AssertionError, w')
         ∧ finalize_task spec w' = (Raise AssertionError, w')).
Proof.
  intros spec task w w'.
  assert (∀ w0, finished_task_path spec ∈ w_paths w0 →
            initialize_task spec task w0 = (Raise AssertionError, w0)
            ∧ finalize_task spec w0 = (Raise AssertionError, w0)) as Hdone.
  { intros w0 Hf. split.
    - unfold initialize_task, bind, os_path_exists, assert, raise.
      by rewrite (bool_decide_eq_true_2 _ Hf).
    - apply finalize_task_fails. by right. }
  split.
  - intros Hfin. apply Hdone.
    by destruct (finalize_task_Ok_inv _ _ _ Hfin) as (_ & _ & ? & _).
  - intros task_id root force term clock st hd sts -> Hst Hh Hs Hk. apply Hdone.
    destruct (decide (term ∈ [TS_KILLED; TS_LOST])) as [Hin | Hin].
    2:{ unfold kill in Hk. rewrite (bool_decide_eq_false_2 _ Hin) in Hk. discriminate. }
    rewrite (kill_from_file task_id root force term clock w Hin) in Hk.
    rewrite Hst, Hh, Hs in Hk.
    apply bind_Ok_inv in Hk as (ckpt & w1 & _ & Hk).
    apply bind_Ok_inv in Hk as (latest & w2 & _ & Hk).
    destruct (is_task_terminal (ts_state latest)).
    + by apply finalize_task_Ok_inv in Hk as (_ & _ & ? & ?).
    + apply bind_Ok_inv in Hk as ([] & w3 & _ & Hk).
      by apply finalize_task_Ok_inv in Hk as (_ & _ & ? & ?).
Qed.

Lemma lifecycle_one_way_witness :
  ∃ w',
    finalize_task (Example.paths "/r" "t") Example.w_active = (Ok tt, w')
    ∧ initialize_task (Example.paths "/r" "t") "task" w' = (Raise AssertionError, w')
    ∧ finalize_task (Example.paths "/r" "t") w' = (Raise AssertionError, w').
Proof.
  exists (snd (finalize_task (Example.paths "/r" "t") Example.w_active)).
  assert (finalize_task (Example.paths "/r" "t") Example.w_active
          = (Ok tt, snd (finalize_task (Example.paths "/r" "t") Example.w_active)))
    as Hfin by (vm_compute; reflexivity).
  split; [exact Hfin |].
  exact (proj1 (lifecycle_one_way (Example.paths "/r" "t") "task" Example.w_active _)
           Hfin).
Defined.

(** ** [kill], continued *)

(** X15: with a terminal status other than KILLED or LOST, [kill] fails
    its assertion at once: the checkpoint is not read, the lock is not
    taken and nothing changes. *)
Theorem kill_rejects_other_status :
  ∀ (task_id root : string) (force : bool) (term : TaskState) (clock : Clock)
    (w : World),
    term ≠ TS_KILLED → term ≠ TS_LOST →
    kill task_id root force term clock w = (Raise AssertionError, w).
Proof.
  intros task_id root force term clock w H1 H2. unfold kill.
  rewrite bool_decide_eq_false_2; [reflexivity |].
  intros [-> | [-> | []%elem_of_nil]%elem_of_cons]%elem_of_cons; done.
Qed.

Lemma kill_rejects_other_status_witness :
  kill "t" "/r" true TS_SUCCESS time Example.w_active
  = (Raise AssertionError, Example.w_active).
Proof.
  apply (kill_rejects_other_status "t" "/r" true TS_SUCCESS time Example.w_active);
    discriminate.
Defined.

(** X16: on a checkpoint that cannot be replayed, or replays without
    header or without status list, [kill] does what [open_checkpoint]
    does and nothing more: it returns normally exactly when the lock was
    obtained, appends no record and does not finalize the task (existing
    paths stay). *)
Theorem kill_uninitialized :
  ∀ (task_id root : string) (force : bool) (term : TaskState) (clock : Clock)
    (w : World),
    let spec := env_TaskPath (w_env w) root task_id in
    let f := runner_checkpoint spec in
    term ∈ [TS_KILLED; TS_LOST] →
    (replayed w f = None
     ∨ ∃ st, replayed w f = Some st ∧ (header st = None ∨ statuses st = None)) →
    snd (kill task_id root force term clock w)
      = snd (open_checkpoint f force (replayed w f) w)
    ∧ (fst (kill task_id root force term clock w) = Ok tt
       ↔ ∃ fd, fst (open_checkpoint f force (replayed w f) w) = Ok fd)
    ∧ (∀ g, records (snd (kill task_id root force term clock w)) g = records w g)
    ∧ w_paths w ⊆ w_paths (snd (kill task_id root force term clock w)).
Proof.
  intros task_id root force term clock w spec f Hin Hst.
  rewrite (kill_from_file task_id root force term clock w Hin). fold spec f.
  pose proof (open_checkpoint_no_append f force (replayed w f) w) as Hna.
  pose proof (open_checkpoint_grow f force (replayed w f) w) as [_ Hgrow].
  assert (∀ fd w1,
            match replayed w f with
            | None => ret tt
            | Some st =>
                match header st, statuses st with
                | Some _, Some sts =>
                    bind (last_item sts)
                      (λ latest, if is_task_terminal (ts_state latest)
                                 then finalize_task spec
                                 else bind (closing fd (kill_body fd clock st term))
                                        (λ _, finalize_task spec))
                | _, _ => ret tt
                end
            end w1 = (Ok tt, w1)) as Hskip.
  { intros fd w1. destruct Hst as [-> | (st & -> & [-> | Hs])]; [done | done |].
    rewrite Hs. by destruct (header st). }
  match goal with
  | |- context [bind (open_checkpoint f force (replayed w f)) ?k w] =>
      assert (bind (open_checkpoint f force (replayed w f)) k w
              = match open_checkpoint f force (replayed w f) w with
                | (Ok _, w1) => (Ok tt, w1)
                | (Raise e, w1) => (Raise e, w1)
                end) as ->
  end.
  { unfold bind at 1.
    destruct (open_checkpoint f force (replayed w f) w) as [[fd | e] w1]; [| done].
    apply Hskip. }
  destruct (open_checkpoint f force (replayed w f) w) as [[fd | e] w1]; cbn [fst snd] in *.
  - split; [done |]. split; [split; [by exists fd | done] |].
    split; [intros g; by apply no_append_records | exact Hgrow].
  - split; [done |]. split; [split; [done | intros [fd [=]]] |].
    split; [intros g; by apply no_append_records | exact Hgrow].
Qed.

Lemma kill_uninitialized_witness :
  fst (kill "t" "/r" false TS_KILLED time Example.w_headerless) = Ok tt
  ∧ records (snd (kill "t" "/r" false TS_KILLED time Example.w_headerless))
      Example.ckpt_file = [].
Proof.
  destruct (kill_uninitialized "t" "/r" false TS_KILLED time Example.w_headerless)
    as (_ & Hok & Hrec & _); [compute_done | |].
  - right. exists Example.headerless_state. split; [reflexivity | by left].
  - split; [apply Hok; by exists 0%nat | apply Hrec].
Defined.

(** X17: on a task that is not terminal, the writer that [open_checkpoint]
    returned is closed when [kill] ends, whether it returns or raises
    (from the loop over the processes or from [finalize_task]). *)
Theorem kill_closes_writer :
  ∀ (task_id root : string) (force : bool) (term : TaskState) (clock : Clock)
    (w : World) (st : RunnerState) (hd : RunnerHeader) (sts : list TaskStatus)
    (latest : TaskStatus) (fd : nat) (w1 : World),
    let spec := env_TaskPath (w_env w) root task_id in
    let f := runner_checkpoint spec in
    replayed w f = Some st →
    header st = Some hd → statuses st = Some sts → last sts = Some latest →
    is_task_terminal (ts_state latest) = false →
    term ∈ [TS_KILLED; TS_LOST] →
    open_checkpoint f force (Some st) w = (Ok fd, w1) →
    w_fds (snd (kill task_id root force term clock w)) !! fd = None.
Proof.
  intros task_id root force term clock w st hd sts latest fd w1 spec f
    Hst Hh Hs Hl Hterm Hin Ho.
  rewrite (kill_active_eq task_id root force term clock w st hd sts latest
             Hst Hh Hs Hl Hterm Hin).
  fold spec f. rewrite Ho. unfold bind, closing.
  destruct (kill_body fd clock st term w1) as [[[] | e] w2]; cbn [snd ckpt_close].
  - destruct (finalize_task_fs spec (set_fds (λ m, delete fd m) w2))
      as (_ & _ & _ & -> & _).
    cbn. apply lookup_delete_eq.
  - cbn. apply lookup_delete_eq.
Qed.

Lemma kill_closes_writer_witness :
  w_fds (snd (kill "t" "/r" false TS_KILLED time Example.w_active)) !! 0%nat = None.
Proof.
  apply (kill_closes_writer "t" "/r" false TS_KILLED time Example.w_active
           Example.active_state (mkRunnerHeader "t" "alice")
           [mkTaskStatus TS_ACTIVE 5 77 1000] (mkTaskStatus TS_ACTIVE 5 77 1000)
           0%nat Example.w_open);
    [reflexivity | reflexivity | reflexivity | reflexivity | reflexivity
    | compute_done | vm_compute; reflexivity].
Defined.

(** X18: whenever [kill] returns normally on a checkpoint that replays
    with a header and a status list, the task is finalized: the finished
    marker exists and the active marker does not. *)
Theorem kill_returns_finalized :
  ∀ (task_id root : string) (force : bool) (term : TaskState) (clock : Clock)
    (w : World) (st : RunnerState) (hd : RunnerHeader) (sts : list TaskStatus),
    let spec := env_TaskPath (w_env w) root task_id in
    replayed w (runner_checkpoint spec) = Some st →
    header st = Some hd → statuses st = Some sts →
    fst (kill task_id root force term clock w) = Ok tt →
    finished_task_path spec ∈ w_paths (snd (kill task_id root force term clock w))
    ∧ active_task_path spec ∉ w_paths (snd (kill task_id root force term clock w)).
Proof.
  intros task_id root force term clock w st hd sts spec Hst Hh Hs Hok.
  destruct (decide (term ∈ [TS_KILLED; TS_LOST])) as [Hin | Hin].
  2:{ unfold kill in Hok. rewrite (bool_decide_eq_false_2 _ Hin) in Hok. discriminate. }
  destruct (kill task_id root force term clock w) as [r w'] eqn:Hk.
  cbn [fst snd] in *. subst r.
  rewrite (kill_from_file task_id root force term clock w Hin) in Hk.
  fold spec in Hk. rewrite Hst, Hh, Hs in Hk.
  apply bind_Ok_inv in Hk as (ckpt & w1 & _ & Hk).
  apply bind_Ok_inv in Hk as (latest & w2 & _ & Hk).
  destruct (is_task_terminal (ts_state latest)).
  - by apply finalize_task_Ok_inv in Hk as (_ & _ & ? & ?).
  - apply bind_Ok_inv in Hk as ([] & w3 & _ & Hk).
    by apply finalize_task_Ok_inv in Hk as (_ & _ & ? & ?).
Qed.

Lemma kill_returns_finalized_witness :
  finished_task_path (Example.paths "/r" "t")
    ∈ w_paths (snd (kill "t" "/r" false TS_KILLED time Example.w_active))
  ∧ active_task_path (Example.paths "/r" "t")
      ∉ w_paths (snd (kill "t" "/r" false TS_KILLED time Example.w_active)).
Proof.
  apply (kill_returns_finalized "t" "/r" false TS_KILLED time Example.w_active
           Example.active_state (mkRunnerHeader "t" "alice")
           [mkTaskStatus TS_ACTIVE 5 77 1000]);
    [reflexivity | reflexivity | reflexivity | vm_compute; reflexivity].
Defined.

(** The records of a [kill] that returns on a task that is not terminal,
    with the worlds in which its two clock readings for the task statuses
    are made. *)
Lemma kill_returns_records task_id root force term clock w st hd sts latest :
  let spec := env_TaskPath (w_env w) root task_id in
  let f := runner_checkpoint spec in
  replayed w f = Some st →
  header st = Some hd → statuses st = Some sts → last sts = Some latest →
  is_task_terminal (ts_state latest) = false →
  fst (kill task_id root force term clock w) = Ok tt →
  ∃ ckpt w1 wa wb ms1 ms2 recs,
    open_checkpoint f force (Some st) w = (Ok ckpt, w1)
    ∧ write_task_state ckpt clock TS_ACTIVE w1 = (Ok tt, wa)
    ∧ for_each (map_to_list (processes st)) (kill_loop_body ckpt clock st) wa
      = (Ok tt, wb)
    ∧ py_int (clock w1 * 1000)%float = Ok ms1
    ∧ py_int (clock wb * 1000)%float = Ok ms2
    ∧ appended w (snd (kill task_id root force term clock w)) f
      = task_status (status_update w TS_ACTIVE ms1)
        :: map process_status recs ++ [task_status (status_update w term ms2)]
    ∧ Forall (accounted st clock (kill_turns task_id root force term clock w)) recs
    ∧ NoDup (map process recs).
Proof.
  intros spec f Hst Hh Hs Hl Hterm Hok.
  destruct (decide (term ∈ [TS_KILLED; TS_LOST])) as [Hin | Hin].
  2:{ unfold kill in Hok. rewrite (bool_decide_eq_false_2 _ Hin) in Hok. discriminate. }
  destruct (kill task_id root force term clock w) as [r w'] eqn:Hk.
  cbn [fst snd] in *. subst r.
  rewrite (kill_active_eq task_id root force term clock w st hd sts latest
             Hst Hh Hs Hl Hterm Hin) in Hk. fold spec f in Hk.
  pose proof (open_checkpoint_no_append f force (Some st) w) as Hopen.
  destruct (open_checkpoint f force (Some st) w) as [[ckpt | e] w1] eqn:Ho;
    [| discriminate]. cbn [snd] in Hopen.
  pose proof (open_checkpoint_fd _ _ _ _ _ _ Ho) as Hfd.
  rewrite (kill_turns_eq task_id root force term clock w st hd sts latest ckpt w1
             Hst Hh Hs Hl Hterm Hin Ho).
  apply bind_Ok_inv in Hk as ([] & w3 & Hclosing & Hfin).
  unfold closing in Hclosing.
  destruct (kill_body_run ckpt clock st term f w1 Hfd)
    as (tss1 & recs & tss2 & Ha & _ & Hacc & Hnd & _ & Hres).
  destruct (kill_body ckpt clock st term w1) as [rb w2] eqn:Hb.
  injection Hclosing as -> <-. cbn [fst snd] in Ha, Hres.
  destruct Hres as (ms1 & ms2 & wa & wb & Hms1 & Hw1 & Hloop & Hms2 & -> & ->).
  exists ckpt, w1, wa, wb, ms1, ms2, recs. repeat (split; [done |]).
  split; [| done].
  assert (w_env w1 = w_env w) as He1 by apply Hopen.
  apply appends_appended.
  eapply no_append_appends; [exact Hopen |].
  eapply appends_no_append.
  - unfold status_update in *. rewrite <- He1. exact Ha.
  - etrans; [apply (ckpt_close_no_append ckpt w2) |].
    pose proof (finalize_task_fs spec (set_fds (λ m, delete ckpt m) w2)) as Hfs.
    rewrite Hfin in Hfs. by apply fs_step_no_append.
Qed.

(** X19: when [kill] returns normally on a task that is not terminal, the
    records it appended to the checkpoint are: one ACTIVE task status,
    then the process records (each accounted for by its turn in the loop
    of this run, at most one per process), then one task status with
    [terminal_status]; both task statuses carry the pid and uid of the
    calling process, the first [int(clock.time() * 1000)] for the clock
    read in the world [open_checkpoint] ended in, the second for the clock
    read in the world the loop ended in. *)
Theorem kill_returns_appended :
  ∀ (task_id root : string) (force : bool) (term : TaskState) (clock : Clock)
    (w : World) (st : RunnerState) (hd : RunnerHeader) (sts : list TaskStatus)
    (latest : TaskStatus),
    let f := runner_checkpoint (env_TaskPath (w_env w) root task_id) in
    replayed w f = Some st →
    header st = Some hd → statuses st = Some sts → last sts = Some latest →
    is_task_terminal (ts_state latest) = false →
    fst (kill task_id root force term clock w) = Ok tt →
    ∃ ckpt w1 wa wb ms1 ms2 recs,
      open_checkpoint f force (Some st) w = (Ok ckpt, w1)
      ∧ write_task_state ckpt clock TS_ACTIVE w1 = (Ok tt, wa)
      ∧ for_each (map_to_list (processes st)) (kill_loop_body ckpt clock st) wa
        = (Ok tt, wb)
      ∧ py_int (clock w1 * 1000)%float = Ok ms1
      ∧ py_int (clock wb * 1000)%float = Ok ms2
      ∧ appended w (snd (kill task_id root force term clock w)) f
        = task_status (mkTaskStatus TS_ACTIVE ms1
                         (env_getpid (w_env w)) (env_getuid (w_env w)))
          :: map process_status recs
          ++ [task_status (mkTaskStatus term ms2
                             (env_getpid (w_env w)) (env_getuid (w_env w)))]
      ∧ Forall (accounted st clock (kill_turns task_id root force term clock w)) recs
      ∧ NoDup (map process recs).
Proof.
  intros task_id root force term clock w st hd sts latest f Hst Hh Hs Hl Hterm Hok.
  exact (kill_returns_records task_id root force term clock w st hd sts latest
           Hst Hh Hs Hl Hterm Hok).
Qed.

Lemma kill_returns_appended_witness :
  ∃ recs,
    appended Example.w_active (snd (kill "t" "/r" false TS_LOST time Example.w_active))
      Example.ckpt_file
    = task_status (mkTaskStatus TS_ACTIVE 1005000 1 1000)
      :: map process_status recs
      ++ [task_status (mkTaskStatus TS_LOST 1005000 1 1000)].
Proof.
  destruct (kill_returns_appended "t" "/r" false TS_LOST time Example.w_active
              Example.active_state (mkRunnerHeader "t" "alice")
              [mkTaskStatus TS_ACTIVE 5 77 1000] (mkTaskStatus TS_ACTIVE 5 77 1000))
    as (ckpt & w1 & wa & wb & ms1 & ms2 & recs & Ho & Hw1 & Hloop & Hms1 & Hms2
        & Happ & _);
    [reflexivity | reflexivity | reflexivity | reflexivity | reflexivity
    | vm_compute; reflexivity |].
  exists recs.
  vm_compute in Ho. injection Ho as <- <-.
  vm_compute in Hw1. injection Hw1 as <-.
  vm_compute in Hloop. injection Hloop as <-.
  vm_compute in Hms1. vm_compute in Hms2. injection Hms1 as <-. injection Hms2 as <-.
  exact Happ.
Defined.

(** X20: the wrappers of [TaskKiller].  When [TaskKiller.kill] (resp.
    [lose]) returns normally on a task that is not terminal, the
    checkpoint has gained an ACTIVE task status first and a KILLED (resp.
    LOST) task status last; each process record in between is accounted
    for by its turn in the loop of this run, in the same way under both
    wrappers: a KILLED record where [kill_process] answered [True] (also
    under [lose]), a LOST record where it answered [False]. *)
Theorem TaskKiller_final_status :
  ∀ (task_id root : string) (force : bool) (w : World) (st : RunnerState)
    (hd : RunnerHeader) (sts : list TaskStatus) (latest : TaskStatus),
    let f := runner_checkpoint (env_TaskPath (w_env w) root task_id) in
    replayed w f = Some st →
    header st = Some hd → statuses st = Some sts → last sts = Some latest →
    is_task_terminal (ts_state latest) = false →
    (fst (TaskKiller_kill task_id root force w) = Ok tt →
       ∃ ts1 ts2 recs,
         appended w (snd (TaskKiller_kill task_id root force w)) f
           = task_status ts1 :: map process_status recs ++ [task_status ts2]
         ∧ ts_state ts1 = TS_ACTIVE ∧ ts_state ts2 = TS_KILLED
         ∧ Forall (accounted st time (kill_turns task_id root force TS_KILLED time w))
                  recs)
    ∧ (fst (TaskKiller_lose task_id root force w) = Ok tt →
       ∃ ts1 ts2 recs,
         appended w (snd (TaskKiller_lose task_id root force w)) f
           = task_status ts1 :: map process_status recs ++ [task_status ts2]
         ∧ ts_state ts1 = TS_ACTIVE ∧ ts_state ts2 = TS_LOST
         ∧ Forall (accounted st time (kill_turns task_id root force TS_LOST time w))
                  recs).
Proof.
  intros task_id root force w st hd sts latest f Hst Hh Hs Hl Hterm.
  unfold TaskKiller_kill, TaskKiller_lose. split; intros Hok.
  - destruct (kill_returns_records task_id root force TS_KILLED time w st hd sts latest
                Hst Hh Hs Hl Hterm Hok)
      as (_ & _ & _ & _ & ms1 & ms2 & recs & _ & _ & _ & _ & _ & Happ & Hacc & _).
    eexists _, _, recs. split; [exact Happ |]. done.
  - destruct (kill_returns_records task_id root force TS_LOST time w st hd sts latest
                Hst Hh Hs Hl Hterm Hok)
      as (_ & _ & _ & _ & ms1 & ms2 & recs & _ & _ & _ & _ & _ & Happ & Hacc & _).
    eexists _, _, recs. split; [exact Happ |]. done.
Qed.

Lemma TaskKiller_final_status_witness :
  ∃ ts1 ts2 recs,
    appended Example.w_active (snd (TaskKiller_lose "t" "/r" true Example.w_active))
      Example.ckpt_file
    = task_status ts1 :: map process_status recs ++ [task_status ts2]
    ∧ ts_state ts2 = TS_LOST.
Proof.
  destruct (TaskKiller_final_status "t" "/r" true Example.w_active
              Example.active_state (mkRunnerHeader "t" "alice")
              [mkTaskStatus TS_ACTIVE 5 77 1000] (mkTaskStatus TS_ACTIVE 5 77 1000))
    as (_ & Hlose);
    [reflexivity | reflexivity | reflexivity | reflexivity | reflexivity |].
  destruct Hlose as (ts1 & ts2 & recs & Happ & _ & Hts2 & _); [vm_compute; reflexivity |].
  exists ts1, ts2, recs. split; [exact Happ | exact Hts2].
Defined.

(** X21: [kill] appends process records only for processes of the replayed
    state, and never for a process whose latest record is already
    terminal. *)
Theorem kill_skips_terminal_processes :
  ∀ (task_id root : string) (force : bool) (term : TaskState) (clock : Clock)
    (w : World) (st : RunnerState),
    let f := runner_checkpoint (env_TaskPath (w_env w) root task_id) in
    let w' := snd (kill task_id root force term clock w) in
    replayed w f = Some st →
    (∀ status, process_status status ∈ appended w w' f →
       is_Some (processes st !! process status))
    ∧ (∀ name history prev,
         processes st !! name = Some history → last history = Some prev →
         is_process_terminal (state prev) = true →
         ∀ status, process_status status ∈ appended w w' f → process status ≠ name).
Proof.
  intros task_id root force term clock w st f w' Hst.
  destruct (kill_process_records task_id root force term clock w st Hst)
    as (Hacc & _ & _). fold f w' in Hacc. rewrite Forall_forall in Hacc.
  split.
  - intros status Hin. apply elem_of_process_records, Hacc in Hin.
    destruct Hin; cbn; eauto.
  - intros name history prev Hp Hl Hterm status Hin <-.
    apply elem_of_process_records, Hacc in Hin.
    destruct Hin as [name history' prev' w1 w2 Hturn Hp' Hl' Ht Hk
                    | name history' prev' w1 w2 Hturn Hp' Hl' Ht Hk Hw];
      cbn in Hp; congruence.
Qed.

Lemma kill_skips_terminal_processes_witness :
  is_Some (processes Example2.state !! "web"%string)
  ∧ ∀ status,
      process_status status
        ∈ appended Example2.w_active
            (snd (kill "t" "/r" false TS_KILLED time Example2.w_active))
            Example.ckpt_file →
      process status ≠ "cron"%string.
Proof.
  destruct (kill_skips_terminal_processes "t" "/r" false TS_KILLED time
              Example2.w_active Example2.state) as (Hknown & Hskip); [reflexivity |].
  split.
  - apply (Hknown (KILLED_status "web" Example.web 1005%float)).
    apply (list_elem_of_lookup_2 _ 1%nat). vm_compute. reflexivity.
  - apply (Hskip "cron"%string [Example2.cron] Example2.cron); reflexivity.
Defined.

(** ** The signals of [kill] *)

#[global] Instance sends_only_preorder sig : PreOrder (sends_only sig).
Proof.
  split.
  - intros w. exists []. split; [by rewrite app_nil_r | constructor].
  - intros a b c (l1 & H1 & F1) (l2 & H2 & F2). exists (l1 ++ l2). split.
    + by rewrite H2, H1, app_assoc.
    + by apply Forall_app.
Qed.

Lemma same_signals_sends_only sig w w' : w_signals w' = w_signals w → sends_only sig w w'.
Proof. intros H. exists []. split; [by rewrite app_nil_r | constructor]. Qed.

#[global] Hint Extern 5 (Frame (sends_only _) _) =>
  apply (Frame_weaken scan_step (sends_only _));
    [intros ? ? [_ ?]; by apply same_signals_sends_only |] : frame.
#[global] Hint Extern 5 (Frame (sends_only _) _) =>
  apply (Frame_weaken fs_step (sends_only _));
    [intros ? ? (_ & _ & _ & _ & _ & ?); by apply same_signals_sends_only |] : frame.

Lemma os_kill_sends p sig : Frame (sends_only sig) (os_kill p sig).
Proof.
  intros w. exists [(p, sig)]. split; [| by repeat constructor].
  unfold os_kill. destruct (env_kill _ _ _ _); reflexivity.
Qed.

Lemma lock_file_sends sig f b : Frame (sends_only sig) (lock_file f b).
Proof.
  intros w. apply same_signals_sends_only. unfold lock_file.
  destruct (env_lock _ _ _ _); reflexivity.
Qed.

Lemma ckpt_write_sends sig fd rec : Frame (sends_only sig) (ckpt_write fd rec).
Proof.
  intros w. apply same_signals_sends_only. unfold ckpt_write.
  destruct (w_fds w !! fd); reflexivity.
Qed.

Lemma ckpt_close_sends sig fd : Frame (sends_only sig) (ckpt_close fd).
Proof. intros w. by apply same_signals_sends_only. Qed.

#[global] Hint Resolve os_kill_sends lock_file_sends ckpt_write_sends ckpt_close_sends
  : frame.

Lemma Frame_closing {A} (R : relation World) `{!PreOrder R} fd (body : M A) :
  Frame R body → Frame R (ckpt_close fd) → Frame R (closing fd body).
Proof.
  intros Hb Hc w. unfold closing. specialize (Hb w).
  destruct (body w) as [r w1]. cbn [snd] in *. etrans; [exact Hb | apply Hc].
Qed.

Lemma kill_runner_sends st : Frame (sends_only SIGKILL) (kill_runner st).
Proof. unfold kill_runner. frame. Qed.

Lemma kill_process_sends st name : Frame (sends_only SIGKILL) (kill_process st name).
Proof. unfold kill_process, kill_group, kill_pid, safe_signal. frame. Qed.
#[global] Hint Resolve kill_runner_sends kill_process_sends : frame.

Lemma open_checkpoint_sends f force st :
  Frame (sends_only SIGKILL) (open_checkpoint f force st).
Proof. unfold open_checkpoint. frame. Qed.

Lemma write_task_state_sends ckpt clock s :
  Frame (sends_only SIGKILL) (write_task_state ckpt clock s).
Proof. unfold write_task_state. frame. Qed.

Lemma kill_loop_body_sends ckpt clock st item :
  Frame (sends_only SIGKILL) (kill_loop_body ckpt clock st item).
Proof. unfold kill_loop_body, write_process_status. frame. Qed.
#[global] Hint Resolve open_checkpoint_sends write_task_state_sends kill_loop_body_sends
  : frame.

(** X22: [kill] never sends any signal other than SIGKILL, whatever the
    checkpoint, the process table and the outcomes of the signals are;
    neither do [kill_process] and [kill_runner]. *)
Theorem kill_sends_only_SIGKILL :
  ∀ (task_id root : string) (force : bool) (term : TaskState) (clock : Clock)
    (w : World),
    (∃ l, w_signals (snd (kill task_id root force term clock w)) = w_signals w ++ l
          ∧ Forall (λ s, s.2 = SIGKILL) l)
    ∧ (∀ st name, ∃ l, w_signals (snd (kill_process st name w)) = w_signals w ++ l
                       ∧ Forall (λ s, s.2 = SIGKILL) l)
    ∧ (∀ st, ∃ l, w_signals (snd (kill_runner st w)) = w_signals w ++ l
                  ∧ Forall (λ s, s.2 = SIGKILL) l).
Proof.
  intros task_id root force term clock w. split; [| split].
  - assert (Frame (sends_only SIGKILL) (kill task_id root force term clock)) as H.
    { unfold kill. frame. apply Frame_closing; [apply _ | frame | frame]. }
    apply H.
  - intros st name. apply kill_process_sends.
  - intros st. apply kill_runner_sends.
Qed.

(** ** Edge cases of [kill] and [open_checkpoint] *)

Lemma for_each_Ok_inv {A} (l : list A) (body : A → M unit) w w' :
  for_each l body w = (Ok tt, w') →
  ∀ x, x ∈ l → ∃ w0 w1, body x w0 = (Ok tt, w1).
Proof.
  revert w. induction l as [| y l IH]; intros w H x Hx.
  - by apply elem_of_nil in Hx.
  - cbn [for_each] in H. apply bind_Ok_inv in H as ([] & w1 & Hy & Hrest).
    apply elem_of_cons in Hx as [-> | Hx]; [eauto | by eapply IH].
Qed.

(** X23: if some process of a task that is not terminal has an empty
    history, [kill] never returns normally: it raises, and it does so
    before the terminal task status is written and without finalizing the
    task.  Whatever task status it appended is ACTIVE, no path is removed
    (the active marker is not renamed) and no path exists afterwards that
    [open_checkpoint] did not leave. *)
Theorem kill_empty_history_raises :
  ∀ (task_id root : string) (force : bool) (term : TaskState) (clock : Clock)
    (w : World) (st : RunnerState) (hd : RunnerHeader) (sts : list TaskStatus)
    (latest : TaskStatus) (name : string),
    let spec := env_TaskPath (w_env w) root task_id in
    let f := runner_checkpoint spec in
    let w' := snd (kill task_id root force term clock w) in
    replayed w f = Some st →
    header st = Some hd → statuses st = Some sts → last sts = Some latest →
    is_task_terminal (ts_state latest) = false →
    processes st !! name = Some [] →
    (∃ e, fst (kill task_id root force term clock w) = Raise e)
    ∧ (∀ ts, task_status ts ∈ appended w w' f → ts_state ts = TS_ACTIVE)
    ∧ w_paths w ⊆ w_paths w'
    ∧ w_paths w' ⊆ w_paths (snd (open_checkpoint f force (Some st) w)).
Proof.
  intros task_id root force term clock w st hd sts latest name spec f w'
    Hst Hh Hs Hl Hterm Hempty.
  pose proof (open_checkpoint_grow f force (Some st) w) as [_ Hgrow].
  pose proof (open_checkpoint_no_append f force (Some st) w) as Hopen.
  subst w'.
  destruct (decide (term ∈ [TS_KILLED; TS_LOST])) as [Hin | Hin].
  2:{ unfold kill. rewrite (bool_decide_eq_false_2 _ Hin). cbn [fst snd assert bind raise].
      split; [by eexists |]. split; [| done].
      intros ts Hts. rewrite no_append_appended in Hts by reflexivity.
      by apply elem_of_nil in Hts. }
  rewrite (kill_active_eq task_id root force term clock w st hd sts latest
             Hst Hh Hs Hl Hterm Hin). fold spec f.
  destruct (open_checkpoint f force (Some st) w) as [[ckpt | e] w1] eqn:Ho;
    cbn [fst snd] in *.
  2:{ split; [by eexists |]. split; [| done].
      intros ts Hts. rewrite no_append_appended in Hts by exact Hopen.
      by apply elem_of_nil in Hts. }
  pose proof (open_checkpoint_fd _ _ _ _ _ _ Ho) as Hfd.
  destruct (kill_body_run ckpt clock st term f w1 Hfd)
    as (tss1 & recs & tss2 & Ha & Hpaths & _ & _ & Hact & Hres).
  unfold bind at 1 2 3 4, closing.
  destruct (kill_body ckpt clock st term w1) as [[[] | e] w2] eqn:Hb;
    cbn [fst snd] in *.
  { exfalso. destruct Hres as (_ & _ & wa & wb & _ & _ & Hloop & _).
    destruct (for_each_Ok_inv _ _ _ _ Hloop (name, []))
      as (w0 & w4 & Hbody); [by apply elem_of_map_to_list |].
    discriminate. }
  subst tss2. split; [by eexists |].
  split; [| cbn [w_paths set_fds ckpt_close snd]; rewrite Hpaths; by split].
  intros ts Hts.
  assert (appends f (map task_status tss1 ++ map process_status recs ++ [])
            w (set_fds (λ m, delete ckpt m) w2)) as Happ.
  { eapply no_append_appends; [exact Hopen |].
    eapply appends_no_append; [exact Ha |]. apply (ckpt_close_no_append ckpt w2). }
  erewrite (appends_appended f _ w _) in Hts by exact Happ.
  rewrite app_nil_r in Hts.
  apply elem_of_app in Hts as [Hts | Hts].
  - apply list_elem_of_fmap in Hts as (ts' & [= <-] & Hin').
    rewrite Forall_forall in Hact. by apply Hact.
  - by apply list_elem_of_fmap in Hts as (? & [=] & _).
Qed.

Lemma kill_empty_history_raises_witness :
  ∃ e,
    fst (kill "t" "/r" false TS_KILLED time
           (Example.world
              (Example.env 1005%float Delivered (λ _, Granted)
                 (mkRunnerState (Some (mkRunnerHeader "t" "alice"))
                    (Some [mkTaskStatus TS_ACTIVE 5 77 1000])
                    (<["web"%string := []]> ∅)))))
    = Raise e.
Proof.
  apply (kill_empty_history_raises "t" "/r" false TS_KILLED time _
           (mkRunnerState (Some (mkRunnerHeader "t" "alice"))
              (Some [mkTaskStatus TS_ACTIVE 5 77 1000]) (<["web"%string := []]> ∅))
           (mkRunnerHeader "t" "alice") [mkTaskStatus TS_ACTIVE 5 77 1000]
           (mkTaskStatus TS_ACTIVE 5 77 1000) "web"%string); reflexivity.
Defined.

(** X24: a forced [open_checkpoint] by the very process the checkpoint
    records as runner, while the lock is not granted, fails the assertion
    of [kill_runner]: no signal is sent, the lock is not tried again and
    no writer is opened. *)
Theorem open_checkpoint_refuses_suicide :
  ∀ (filename : string) (st : RunnerState) (sts : list TaskStatus)
    (latest : TaskStatus) (w : World),
    statuses st = Some sts → last sts = Some latest →
    runner_pid latest = env_getpid (w_env w) →
    env_lock (w_env w) (w_tick w) filename false ≠ Granted →
    ∃ w', open_checkpoint filename true (Some st) w = (Raise AssertionError, w')
          ∧ w_signals w' = w_signals w
          ∧ w_fds w' = w_fds w
          ∧ w_tick w' = S (w_tick w).
Proof.
  intros filename st sts latest w Hs Hl Hpid Hlock.
  destruct (lock_file_refused filename false
              (set_paths (λ s, {[dirname filename]} ∪ s) w) Hlock)
    as (fp & w1 & Hlf & Hfp & He1 & Ht1 & Hfds1 & Hsig1 & _).
  cbn [w_env w_tick w_fds w_signals set_paths] in *.
  assert (kill_runner (Some st) w1 = (Raise AssertionError, w1)) as Hkr.
  { unfold kill_runner. rewrite Hs. destruct sts as [| s0 sts']; [discriminate |].
    unfold last_item. rewrite Hl.
    unfold bind, ret, os_getpid, assert. rewrite He1, Hpid, Z.eqb_refl. reflexivity. }
  exists w1. split; [| done].
  unfold open_checkpoint.
  rewrite (bind_Ok (safe_mkdir _) _ w tt _ eq_refl).
  rewrite (bind_Ok _ _ _ _ _ Hlf). rewrite Hfp.
  apply bind_Raise. erewrite bind_Ok; [| reflexivity].
  apply bind_Raise. exact Hkr.
Qed.

Lemma open_checkpoint_refuses_suicide_witness :
  ∃ w', open_checkpoint Example.ckpt_file true
          (Some (mkRunnerState (Some (mkRunnerHeader "t" "alice"))
                   (Some [mkTaskStatus TS_ACTIVE 5 1 1000]) ∅))
          (Example.w_held Delivered) = (Raise AssertionError, w')
        ∧ w_signals w' = [].
Proof.
  destruct (open_checkpoint_refuses_suicide Example.ckpt_file
              (mkRunnerState (Some (mkRunnerHeader "t" "alice"))
                 (Some [mkTaskStatus TS_ACTIVE 5 1 1000]) ∅)
              [mkTaskStatus TS_ACTIVE 5 1 1000] (mkTaskStatus TS_ACTIVE 5 1 1000)
              (Example.w_held Delivered))
    as (w' & Hrun & Hsig & _);
    [reflexivity | reflexivity | reflexivity | vm_compute; discriminate |].
  exists w'. split; [exact Hrun | exact Hsig].
Defined.

(** X25: [open_checkpoint] treats a checkpoint file that cannot be opened
    like a held lock.  With [force], the recorded runner is sent SIGKILL
    although no lock was in the way, and when the file still cannot be
    opened afterwards [PermissionError] is raised all the same. *)
Theorem open_checkpoint_kills_when_unopenable :
  ∀ (filename : string) (st : RunnerState) (sts : list TaskStatus)
    (latest : TaskStatus) (w : World),
    statuses st = Some sts → last sts = Some latest →
    runner_pid latest ≠ env_getpid (w_env w) →
    env_lock (w_env w) (w_tick w) filename false = CannotOpen →
    env_kill (w_env w) (S (w_tick w)) (runner_pid latest) SIGKILL = Delivered →
    env_lock (w_env w) (S (S (w_tick w))) filename true = CannotOpen →
    ∃ w', open_checkpoint filename true (Some st) w = (Raise PermissionError, w')
          ∧ w_signals w' = w_signals w ++ [(runner_pid latest, SIGKILL)]
          ∧ w_fds w' = w_fds w.
Proof.
  intros filename st sts latest w Hs Hl Hne Hlock Hk Hlock2.
  set (w0 := set_paths (λ s, {[dirname filename]} ∪ s) w).
  set (w1 := tick w0).
  set (w2 := tick (set_signals (λ l, l ++ [(runner_pid latest, SIGKILL)]) w1)).
  assert (lock_file filename false w0 = (Ok LF_None, w1)) as Hlf.
  { unfold lock_file. subst w0. cbn [w_env w_tick set_paths]. by rewrite Hlock. }
  assert (kill_runner (Some st) w1 = (Ok true, w2)) as Hkr.
  { rewrite (kill_runner_eq st sts latest w1 Hs Hl Hne).
    subst w1 w0. cbn [w_env w_tick set_paths tick set_tick]. by rewrite Hk. }
  assert (lock_file filename true w2 = (Ok LF_None, tick w2)) as Hlf2.
  { unfold lock_file. subst w2 w1 w0.
    cbn [w_env w_tick set_paths tick set_tick set_signals]. by rewrite Hlock2. }
  exists (tick w2). split; [| split; reflexivity].
  unfold open_checkpoint.
  rewrite (bind_Ok (safe_mkdir _) _ w tt _ eq_refl). fold w0.
  rewrite (bind_Ok _ _ _ _ _ Hlf). cbn [in_None_False].
  erewrite bind_Ok;
    [| erewrite bind_Ok; [| reflexivity];
       erewrite bind_Ok; [| exact Hkr]; exact Hlf2].
  reflexivity.
Qed.

Lemma open_checkpoint_kills_when_unopenable_witness :
  ∃ w', open_checkpoint Example.ckpt_file true (Some Example.active_state)
          (Example.world
             (Example.env 1005%float Delivered (λ _, CannotOpen) Example.active_state))
        = (Raise PermissionError, w')
        ∧ w_signals w' = [(77, SIGKILL)].
Proof.
  destruct (open_checkpoint_kills_when_unopenable Example.ckpt_file Example.active_state
              [mkTaskStatus TS_ACTIVE 5 77 1000] (mkTaskStatus TS_ACTIVE 5 77 1000)
              (Example.world
                 (Example.env 1005%float Delivered (λ _, CannotOpen) Example.active_state)))
    as (w' & Hrun & Hsig & _);
    [reflexivity | reflexivity | vm_compute; discriminate
    | reflexivity | reflexivity | reflexivity |].
  exists w'. split; [exact Hrun | exact Hsig].
Defined.
